(** * SearchFunder scraper: the checkpointed incremental collection engine

    A shallow embedding of [src/index.js]: the fingerprint of a profile card,
    the extraction batch processor, the checkpoint store, the scroll / scrape /
    save loop with its convergence counter, and the SIGINT handler.

    JavaScript strings are sequences of UTF-16 code units; they are modelled
    as lists of [N].  The JavaScript [Set] that holds the processed
    fingerprints is an object shared by reference between the main function,
    the loop and the interrupt handler: it lives in a heap and is named by a
    location.  Numbers and strings are passed by value, as in the source. *)

From Stdlib Require Import Ascii String DecimalString.
From stdpp Require Import gmap list numbers strings.

Open Scope Z_scope.

(** ** Strings *)

Module JsString.

Abbreviation jsstring := (list N).

(** A string literal of the source, as code units (ASCII only). *)
Definition lit (s : string) : jsstring :=
  (λ a, N_of_ascii a) <$> list_ascii_of_string s.

(** The separator of the template string [`${name}|${occupation}|${linkedIn}`]. *)
Definition pipe : N := 124%N.

(** The class [\s] of a JavaScript regular expression, which is also what
    [String.prototype.trim] strips: WhiteSpace and LineTerminator. *)
Definition is_whitespace (c : N) : bool :=
  ((9 <=? c) && (c <=? 13) || (c =? 32) || (c =? 160) || (c =? 5760)
   || (8192 <=? c) && (c <=? 8202) || (c =? 8232) || (c =? 8233)
   || (c =? 8239) || (c =? 8287) || (c =? 12288) || (c =? 65279))%N.

Fixpoint trimStart (s : jsstring) : jsstring :=
  match s with
  | [] => []
  | c :: s' => if is_whitespace c then trimStart s' else s
  end.

(** [s.trim()] *)
Definition trim (s : jsstring) : jsstring :=
  reverse (trimStart (reverse (trimStart s))).

(** [s.replace(/\s+/g, '')] *)
Definition remove_whitespace (s : jsstring) : jsstring :=
  filter (λ c, is_whitespace c = false) s.

(** [`${n}`] for a non-negative integer [n]. *)
Definition of_nat (n : nat) : jsstring :=
  lit (NilEmpty.string_of_uint (Nat.to_uint n)).

(** [parts.join(sep)] *)
Fixpoint join (sep : jsstring) (parts : list jsstring) : jsstring :=
  match parts with
  | [] => []
  | [p] => p
  | p :: ps => p ++ sep ++ join sep ps
  end.

(** Truthiness of a string: the empty string is falsy. *)
Definition truthy (s : jsstring) : bool :=
  match s with [] => false | _ => true end.

End JsString.
Import JsString.

(** ** The page: profile cards as the selectors of the source see them *)

(** One element matched by [#directory-results > div > div].  Each field is
    what one of the inner selectors finds: [None] when [querySelector]
    returns [null], otherwise the [textContent] (or [href]) of the element. *)
Record Card := {
  nameEl : option jsstring;          (* div > div > span[data-profilecard] *)
  occupationEl : option jsstring;    (* div > div:nth-child(3) *)
  locationEl : option jsstring;      (* div > div:nth-child(4) *)
  uniContainerEl : option (list jsstring); (* div > div:nth-child(5), its inner divs *)
  linkedInEl : option jsstring;      (* div:nth-child(2) > a[href*="linkedin.com"] *)
  websiteEl : option jsstring        (* div:nth-child(2) > a:not(...) *)
}.

(** ** Fingerprint (lines 223-240) *)

(** [`${name}|${occupation}|${linkedIn}`.replace(/\s+/g, '')] *)
Definition uniqueId_of (name occupation linkedIn : jsstring) : jsstring :=
  remove_whitespace (name ++ [pipe] ++ occupation ++ [pipe] ++ linkedIn).

(** [el ? el.textContent.trim() : ''] *)
Definition text_or_empty (el : option jsstring) : jsstring :=
  match el with Some t => trim t | None => [] end.

(** [el ? el.href : ''] *)
Definition href_or_empty (el : option jsstring) : jsstring :=
  match el with Some h => h | None => [] end.

(** The fingerprint as a function of the three fields the probe reads. *)
Definition fingerprint (name occupation linkedIn : option jsstring) : jsstring :=
  uniqueId_of (text_or_empty name) (text_or_empty occupation)
              (href_or_empty linkedIn).

Record ProbeItem := { index : nat; uniqueId : jsstring }.

#[global] Instance ProbeItem_eq_dec : EqDecision ProbeItem.
Proof. solve_decision. Defined.

(** The callback of the probe, for one element. *)
Definition probe_card (i : nat) (el : Card) : ProbeItem :=
  {| index := i;
     uniqueId := fingerprint (nameEl el) (occupationEl el) (linkedInEl el) |}.

(** [elements.map((el, index) => ...)] *)
Definition probe (elements : list Card) : list ProbeItem :=
  imap probe_card elements.

(** ** Extraction batch processor (lines 320-419) *)

(** A call into the browser either returns a value or throws. *)
Inductive outcome (A : Type) : Type :=
  | Ok (a : A)
  | Thrown.
Arguments Ok {A} a.
Arguments Thrown {A}.

(** One row of the result; [None] is JavaScript's [null]. *)
Record ProfileData := {
  name : option jsstring;
  linkedIn_url : option jsstring;
  website_url : option jsstring;
  occupation : option jsstring;
  location : option jsstring;
  uni_name : option jsstring
}.

#[global] Instance ProfileData_eq_dec : EqDecision ProfileData.
Proof. solve_decision. Defined.

(** [element ? element.textContent.trim() : null] *)
Definition getTextContent (element : option jsstring) : option jsstring :=
  trim <$> element.

(** [element ? element.href : null] *)
Definition getHref (element : option jsstring) : option jsstring := element.

(** [x || null]: the empty string is falsy. *)
Definition or_null (x : option jsstring) : option jsstring :=
  match x with
  | Some s => if truthy s then Some s else None
  | None => None
  end.

(** The university names: [null] unless the container exists and holds
    at least one inner div, then their trimmed texts joined with ["; "]. *)
Definition uni_names (uniContainer : option (list jsstring)) : option jsstring :=
  match uniContainer with
  | Some (d :: ds) => Some (join (lit "; ") (trim <$> (d :: ds)))
  | _ => None
  end.

(** The object the callback of [page.evaluate] returns for an element
    that exists (lines 345-384). *)
Definition extract_card (profileEl : Card) : ProfileData :=
  {| name := or_null (getTextContent (nameEl profileEl));
     linkedIn_url := or_null (getHref (linkedInEl profileEl));
     website_url := or_null (getHref (websiteEl profileEl));
     occupation := or_null (getTextContent (occupationEl profileEl));
     location := or_null (getTextContent (locationEl profileEl));
     uni_name := or_null (uni_names (uniContainerEl profileEl)) |}.

(** The placeholder pushed when the element is missing or the call throws. *)
Definition error_profile (idx : nat) : ProfileData :=
  {| name := Some (lit "Error_Profile_" ++ of_nat idx);
     linkedIn_url := None; website_url := None;
     occupation := None; location := None; uni_name := None |}.

(** [document.querySelectorAll(selector)[idx]], then the extraction;
    [null] when there is no such element. *)
Definition evaluate_extract (elements : list Card) (idx : nat) : option ProfileData :=
  extract_card <$> elements !! idx.

(** The body of the [for] loop for one index: what is pushed to [batchData].
    [dom] is the page as the call finds it, or [Thrown] when the driver
    throws; both the [else] branch and the [catch] push the placeholder. *)
Definition extract_one (dom : outcome (list Card)) (idx : nat) : ProfileData :=
  match dom with
  | Ok elements =>
      match evaluate_extract elements idx with
      | Some data => data
      | None => error_profile idx
      end
  | Thrown => error_profile idx
  end.

(** The [for] loop, from position [i] on, with [batchData] as pushed so far.
    [page i] is the page at the [i]-th call. *)
Fixpoint extract_from (page : nat → outcome (list Card)) (i : nat)
    (rest : list nat) (batchData : list ProfileData) : list ProfileData :=
  match rest with
  | [] => batchData
  | idx :: rest' =>
      extract_from page (S i) rest' (batchData ++ [extract_one (page i) idx])
  end.

Definition extractProfileBatch (profileIndices : list nat)
    (page : nat → outcome (list Card)) : list ProfileData :=
  extract_from page 0 profileIndices [].

(** ** The processed set: a JavaScript [Set] of strings *)

(** A [Set] iterates in insertion order, so it is a duplicate-free list
    with the oldest element first. *)
Module JsSet.

Abbreviation t := (list jsstring).

Definition has (s : t) (x : jsstring) : bool := bool_decide (x ∈ s).

Definition add (s : t) (x : jsstring) : t :=
  if has s x then s else s ++ [x].

(** [new Set(array)] *)
Definition of_array (a : list jsstring) : t := foldl add [] a.

(** [Array.from(set)] *)
Definition to_array (s : t) : list jsstring := s.

Definition size (s : t) : nat := length s.

End JsSet.

(** ** Checkpoint store (lines 421-455) *)

Record Checkpoint := {
  lastProfileIndex : Z;
  csvFilename : option jsstring;
  processedProfileIds : list jsstring
}.

(** What [scraper_checkpoint.json] holds. *)
Inductive CheckpointFile :=
  | Missing
  | Unparsable
  | Document (c : Checkpoint).

Definition loc := nat.

(** A registered SIGINT listener: the closure of [setupGracefulShutdown],
    with the three parameters it captured and its flag. *)
Record Listener := {
  shuttingDown : bool;
  captured_lastProfileIndex : Z;
  captured_csvFilename : option jsstring;
  captured_processedProfileIds : loc
}.

(** The world outside the local variables: the heap of [Set] objects, the
    two kinds of files, the listeners of the process, and whether the
    process has exited.  A CSV file is the list of the records its lines
    hold, after the header; a blank line holds none. *)
Record World := {
  heap : gmap loc JsSet.t;
  checkpoint_file : CheckpointFile;
  csv_files : gmap jsstring (list ProfileData);
  listeners : list Listener;
  exited : bool
}.

Definition set_heap (h : gmap loc JsSet.t) (w : World) : World :=
  {| heap := h; checkpoint_file := checkpoint_file w;
     csv_files := csv_files w; listeners := listeners w; exited := exited w |}.

Definition set_checkpoint_file (c : CheckpointFile) (w : World) : World :=
  {| heap := heap w; checkpoint_file := c;
     csv_files := csv_files w; listeners := listeners w; exited := exited w |}.

Definition set_csv_files (f : gmap jsstring (list ProfileData)) (w : World) : World :=
  {| heap := heap w; checkpoint_file := checkpoint_file w;
     csv_files := f; listeners := listeners w; exited := exited w |}.

Definition set_listeners (ls : list Listener) (w : World) : World :=
  {| heap := heap w; checkpoint_file := checkpoint_file w;
     csv_files := csv_files w; listeners := ls; exited := exited w |}.

Definition set_exited (w : World) : World :=
  {| heap := heap w; checkpoint_file := checkpoint_file w;
     csv_files := csv_files w; listeners := listeners w; exited := true |}.

(** The [Set] a reference points to. *)
Definition deref (w : World) (r : loc) : JsSet.t := heap w !!! r.

Definition default_checkpoint : Checkpoint :=
  {| lastProfileIndex := -1; csvFilename := None; processedProfileIds := [] |}.

Definition loadCheckpoint (w : World) : Checkpoint :=
  match checkpoint_file w with
  | Document c => c
  | Unparsable => default_checkpoint
  | Missing => default_checkpoint
  end.

Definition maxCheckpointIds : nat := 1000.

(** [a.slice(-n)] *)
Definition slice_last (n : nat) (a : list jsstring) : list jsstring :=
  drop (length a - n) a.

(** The document [updateCheckpoint] builds. *)
Definition checkpoint_document (lastIndex : Z) (csv : option jsstring)
    (ids : list jsstring) : Checkpoint :=
  {| lastProfileIndex := lastIndex;
     csvFilename := csv;
     processedProfileIds :=
       if bool_decide (maxCheckpointIds < length ids)%nat
       then slice_last maxCheckpointIds ids else ids |}.

(** [write_ok] tells whether [fs.writeFileSync] succeeds; a failure is caught
    and logged, and the file is left as it was. *)
Definition updateCheckpoint (lastIndex : Z) (csv : option jsstring)
    (ids : list jsstring) (write_ok : bool) (w : World) : World :=
  if write_ok
  then set_checkpoint_file (Document (checkpoint_document lastIndex csv ids)) w
  else w.

(** ** Sink (lines 166-179) *)

(** A record for which the parser writes no line: every one of the six
    columns is [null] ([includeEmptyRows] is not set). *)
Definition empty_row (d : ProfileData) : bool :=
  match name d, linkedIn_url d, website_url d,
        occupation d, location d, uni_name d with
  | None, None, None, None, None, None => true
  | _, _, _, _, _, _ => false
  end.

(** [parser.parse(data)], as the records of the lines it gives: one line
    for each record that is not empty, in order. *)
Definition csv_rows (data : list ProfileData) : list ProfileData :=
  filter (λ d, empty_row d = false) data.

(** [append_ok] tells whether building the CSV text and [fs.appendFileSync]
    succeed.  A failure is caught inside the function and logged: the caller
    gets no result either way; it is taken to happen before anything is
    written.  [appendFileSync] creates a missing file.  When the parser
    gives no line at all, what is appended is a line break alone. *)
Definition appendToCsv (filename : jsstring) (data : list ProfileData)
    (append_ok : bool) (w : World) : World :=
  match data with
  | [] => w
  | _ =>
      if append_ok
      then set_csv_files
             (<[filename := default [] (csv_files w !! filename) ++ csv_rows data]>
                (csv_files w)) w
      else w
  end.

(** [createCsvWithHeaders]: a new file that holds the header line only.
    The name comes from the clock. *)
Definition createCsvWithHeaders (filename : jsstring) (w : World) : World :=
  set_csv_files (<[filename := []]> (csv_files w)) w.

(** ** The scroll, scrape and save loop (lines 185-315) *)

(** A row of [batchData] once the loop has attached [uniqueId] to it;
    [None] when the property was not set. *)
Record TaggedProfile := {
  profile_data : ProfileData;
  profile_uniqueId : option jsstring
}.

#[global] Instance TaggedProfile_eq_dec : EqDecision TaggedProfile.
Proof. solve_decision. Defined.

(** Lines 255-259. *)
Definition attach_uniqueIds (batchData : list ProfileData)
    (newProfiles : list ProbeItem) : list TaggedProfile :=
  imap (λ i d, {| profile_data := d;
                  profile_uniqueId := uniqueId <$> newProfiles !! i |}) batchData.

(** Lines 243-246: the profiles to scrape in this iteration. *)
Definition select_new (lastIndex : Z) (processed : JsSet.t)
    (currentProfilesWithIds : list ProbeItem) : list ProbeItem :=
  filter (λ profile, (Z.of_nat (index profile) >? lastIndex) = true
                     ∧ JsSet.has processed (uniqueId profile) = false)
         currentProfilesWithIds.

(** The test of lines 262-264:
    [profile && profile.uniqueId && !processedProfileIds.has(profile.uniqueId)] *)
Definition still_unprocessed (processed : JsSet.t) (profile : TaggedProfile) : bool :=
  match profile_uniqueId profile with
  | Some u => truthy u && negb (JsSet.has processed u)
  | None => false
  end.

Definition select_unique (processed : JsSet.t)
    (batchData : list TaggedProfile) : list TaggedProfile :=
  filter (λ profile, still_unprocessed processed profile = true) batchData.

(** Lines 274-276. *)
Definition mark_processed (processed : JsSet.t)
    (uniqueBatchData : list TaggedProfile) : JsSet.t :=
  foldl JsSet.add processed (omap profile_uniqueId uniqueBatchData).

(** [Math.max(lastProfileIndex, ...newProfiles.map(p => p.index))] *)
Definition max_index (lastIndex : Z) (newProfiles : list ProbeItem) : Z :=
  foldl Z.max lastIndex ((λ p, Z.of_nat (index p)) <$> newProfiles).

Definition maxNoChangeCount : nat := 5.

(** Lines 303-308. *)
Definition next_noChangeCount (noChangeCount : nat)
    (previousHeight newHeight : Z) (found : nat) : nat :=
  if (newHeight =? previousHeight) && (found =? 0)%nat
  then S noChangeCount else 0%nat.

(** The variables of [scrollScrapeAndSave] that change. *)
Record Frame := {
  loop_lastProfileIndex : Z;
  noChangeCount : nat;
  scrollCount : nat
}.

(** What the browser and the file system do during one iteration. *)
Record IterEnv := {
  probe_dom : outcome (list Card);          (* the elements at line 223 *)
  extract_dom : nat → outcome (list Card);  (* the page at each extraction call *)
  append_ok : bool;                         (* line 174 *)
  checkpoint_ok : bool;                     (* line 450 *)
  heights : outcome (Z * Z)                 (* previousHeight and newHeight, lines 290-302 *)
}.

(** What one iteration did, for the statements below: how many new profiles
    it found, the batch it handed to [appendToCsv] (with the fingerprints,
    which the rows written no longer carry), and the heights it measured. *)
Record IterReport := {
  report_found : nat;
  report_appended : list TaggedProfile;
  report_heights : outcome (Z * Z)
}.

(** Lines 251-287: extract, filter, and commit.  Yields the new value of
    [lastProfileIndex], the world, and the batch handed to [appendToCsv]. *)
Definition scrape_and_save (csv : jsstring) (processedRef : loc) (e : IterEnv)
    (lastIndex : Z) (newProfiles : list ProbeItem) (w : World)
    : Z * World * list TaggedProfile :=
  match newProfiles with
  | [] => (lastIndex, w, [])
  | _ =>
      let batchData := extractProfileBatch (index <$> newProfiles) (extract_dom e) in
      let tagged := attach_uniqueIds batchData newProfiles in
      let uniqueBatchData := select_unique (deref w processedRef) tagged in
      match uniqueBatchData with
      | [] => (lastIndex, w, [])
      | _ =>
          let cleanBatchData := profile_data <$> uniqueBatchData in
          let w1 := appendToCsv csv cleanBatchData (append_ok e) w in
          let w2 := set_heap (<[processedRef :=
                       mark_processed (deref w1 processedRef) uniqueBatchData]> (heap w1)) w1 in
          let lastIndex' := max_index lastIndex newProfiles in
          let w3 := updateCheckpoint lastIndex' (Some csv)
                      (JsSet.to_array (deref w2 processedRef)) (checkpoint_ok e) w2 in
          (lastIndex', w3, uniqueBatchData)
      end
  end.

(** One iteration of the [while] loop.  An exception of the driver at the
    probe or while scrolling leaves the function. *)
Definition loop_body (csv : jsstring) (processedRef : loc) (e : IterEnv)
    (fr : Frame) (w : World) : outcome Frame * World * IterReport :=
  match probe_dom e with
  | Thrown =>
      (Thrown, w, {| report_found := 0; report_appended := [];
                     report_heights := Thrown |})
  | Ok elements =>
      let currentProfilesWithIds := probe elements in
      let newProfiles :=
        select_new (loop_lastProfileIndex fr) (deref w processedRef)
                   currentProfilesWithIds in
      let '(lastIndex', w', appended) :=
        scrape_and_save csv processedRef e (loop_lastProfileIndex fr) newProfiles w in
      let report := {| report_found := length newProfiles;
                       report_appended := appended;
                       report_heights := heights e |} in
      match heights e with
      | Thrown => (Thrown, w', report)
      | Ok (previousHeight, newHeight) =>
          (Ok {| loop_lastProfileIndex := lastIndex';
                 noChangeCount :=
                   next_noChangeCount (noChangeCount fr) previousHeight newHeight
                                      (length newProfiles);
                 scrollCount := S (scrollCount fr) |},
           w', report)
      end
  end.

(** How the loop stands once the iterations given have been used. *)
Inductive LoopEnd :=
  | Returned (fr : Frame) (total : nat)
      (* the loop is over: the variables as it left them, and the value
         returned, [processedProfileIds.size] *)
  | Failed                     (* an exception left the function *)
  | Scrolling (fr : Frame).    (* still in the loop *)

(** [while (noChangeCount < maxNoChangeCount) { ... }] over the iterations
    the environment provides. *)
Fixpoint scroll_loop (csv : jsstring) (processedRef : loc) (envs : list IterEnv)
    (fr : Frame) (w : World) : LoopEnd * World * list IterReport :=
  if bool_decide (noChangeCount fr < maxNoChangeCount)%nat then
    match envs with
    | [] => (Scrolling fr, w, [])
    | e :: envs' =>
        match loop_body csv processedRef e fr w with
        | (Ok fr', w', report) =>
            let '(fin, w'', reports) := scroll_loop csv processedRef envs' fr' w' in
            (fin, w'', report :: reports)
        | (Thrown, w', report) => (Failed, w', [report])
        end
    end
  else (Returned fr (JsSet.size (deref w processedRef)), w, []).

(** Lines 198-218: when resuming, scroll until enough profiles are loaded.
    [counts i] is the number of profiles on the page after the [i]-th
    scroll.  Yields the number of scrolls made. *)
Fixpoint catch_up_from (counts : nat → outcome nat) (lastIndex : Z)
    (i remaining : nat) : outcome nat :=
  match remaining with
  | O => Ok i
  | S remaining' =>
      match counts i with
      | Thrown => Thrown
      | Ok currentProfiles =>
          if Z.of_nat currentProfiles >? lastIndex then Ok (S i)
          else catch_up_from counts lastIndex (S i) remaining'
      end
  end.

(** [Math.ceil(lastProfileIndex / 10)], for an integer. *)
Definition scrollsNeeded (lastIndex : Z) : Z := (lastIndex + 9) / 10.

Definition catch_up (counts : nat → outcome nat) (lastIndex : Z) : outcome nat :=
  if lastIndex >? 0
  then catch_up_from counts lastIndex 0 (Z.to_nat (Z.min (scrollsNeeded lastIndex) 30))
  else Ok 0%nat.

Definition scrollScrapeAndSave (csv : jsstring) (lastIndex : Z) (processedRef : loc)
    (counts : nat → outcome nat) (envs : list IterEnv) (w : World)
    : LoopEnd * World * list IterReport :=
  match catch_up counts lastIndex with
  | Thrown => (Failed, w, [])
  | Ok _ =>
      scroll_loop csv processedRef envs
        {| loop_lastProfileIndex := lastIndex; noChangeCount := 0; scrollCount := 0 |} w
  end.

(** ** Shutdown (lines 460-477) *)

(** [process.on('SIGINT', ...)]: one more listener, closed over the three
    arguments as they are at the call. *)
Definition setupGracefulShutdown (lastIndex : Z) (csv : option jsstring)
    (processedRef : loc) (w : World) : World :=
  set_listeners
    (listeners w ++ [ {| shuttingDown := false;
                         captured_lastProfileIndex := lastIndex;
                         captured_csvFilename := csv;
                         captured_processedProfileIds := processedRef |} ]) w.

(** The body of the listener. *)
Definition on_sigint (write_ok : bool) (l : Listener) (w : World) : Listener * World :=
  if shuttingDown l then (l, w)
  else
    let l' := {| shuttingDown := true;
                 captured_lastProfileIndex := captured_lastProfileIndex l;
                 captured_csvFilename := captured_csvFilename l;
                 captured_processedProfileIds := captured_processedProfileIds l |} in
    let w' := updateCheckpoint (captured_lastProfileIndex l) (captured_csvFilename l)
                (JsSet.to_array (deref w (captured_processedProfileIds l))) write_ok w in
    (l', set_exited w').

(** The listeners are called in the order they were registered; nothing runs
    once the process has exited. *)
Fixpoint emit (write_ok : bool) (ls : list Listener) (w : World) : list Listener * World :=
  match ls with
  | [] => ([], w)
  | l :: ls' =>
      if exited w then (l :: ls', w)
      else
        let '(l', w') := on_sigint write_ok l w in
        let '(ls'', w'') := emit write_ok ls' w' in
        (l' :: ls'', w'')
  end.

(** A SIGINT reaches the process.  Without a listener the process ends. *)
Definition sigint (write_ok : bool) (w : World) : World :=
  if exited w then w
  else
    match listeners w with
    | [] => set_exited w
    | ls => let '(ls', w') := emit write_ok ls w in set_listeners ls' w'
    end.

(** ** The main function (lines 17-144) *)

Record RunEnv := {
  startup : outcome unit;            (* lines 22-31, before the try *)
  setup : outcome unit;              (* login and navigation, lines 41-108 *)
  clock_filename : jsstring;         (* the name of a new CSV file *)
  create_ok : bool;                  (* line 157 *)
  create_checkpoint_ok : bool;       (* lines 116 and 123 *)
  catch_up_counts : nat → outcome nat;
  iterations : list IterEnv;
  unlink_ok : bool;                  (* line 134 *)
  error_checkpoint_ok : bool         (* line 140 *)
}.

(** How a run stands.  [Rejected]: an exception left the function before
    the [try], so before the listener was registered; [startup] is [Thrown]
    when [puppeteer.launch] (line 31) throws.  (Reading the fields of the
    checkpoint at lines 22-24 cannot fail on a file this program wrote; on a
    file edited to hold the JSON value [null] line 22 throws, and the
    function is left the same way.)  The set made at line 24 is then out of
    reach.  [Errored]: the [catch] of line 137 ran. *)
Inductive RunEnd :=
  | Completed (total : nat)
  | Errored
  | Rejected
  | Running (fr : Frame).

(** [checkpoint.lastProfileIndex || -1]: zero is falsy. *)
Definition initial_lastProfileIndex (c : Checkpoint) : Z :=
  if lastProfileIndex c =? 0 then -1 else lastProfileIndex c.

(** Lines 114-125: the file to append to, created when there is none.  A
    failure to create it throws before [csvFilename] is assigned. *)
Definition choose_csv (env : RunEnv) (lastIndex : Z) (csv : option jsstring)
    (processedRef : loc) (w : World) : outcome jsstring * World :=
  let create :=
    if create_ok env then
      let w1 := createCsvWithHeaders (clock_filename env) w in
      (Ok (clock_filename env),
       updateCheckpoint lastIndex (Some (clock_filename env))
         (JsSet.to_array (deref w1 processedRef)) (create_checkpoint_ok env) w1)
    else (Thrown, w) in
  match csv with
  | None => create
  | Some f =>
      match csv_files w !! f with
      | Some _ => (Ok f, w)
      | None => create
      end
  end.

(** Lines 133-136: the checkpoint file is removed if there is one;
    [fs.unlinkSync] may throw. *)
Definition clearCheckpoint (unlink_ok : bool) (w : World) : outcome World :=
  match checkpoint_file w with
  | Missing => Ok w
  | _ => if unlink_ok then Ok (set_checkpoint_file Missing w) else Thrown
  end.

(** Lines 40-143, from the [try] on, with the listener registered. *)
Definition scrape_in_try (env : RunEnv) (lastIndex : Z) (csv : option jsstring)
    (processedRef : loc) (w : World) : RunEnd * World * list IterReport :=
  let on_error (csv : option jsstring) (w : World) :=
    updateCheckpoint lastIndex csv (JsSet.to_array (deref w processedRef))
      (error_checkpoint_ok env) w in
  match setup env with
  | Thrown => (Errored, on_error csv w, [])
  | Ok _ =>
      match choose_csv env lastIndex csv processedRef w with
      | (Thrown, w) => (Errored, on_error csv w, [])
      | (Ok file, w) =>
          match scrollScrapeAndSave file lastIndex processedRef
                  (catch_up_counts env) (iterations env) w with
          | (Returned _ total, w, reports) =>
              match clearCheckpoint (unlink_ok env) w with
              | Ok w' => (Completed total, w', reports)
              | Thrown => (Errored, on_error (Some file) w, reports)
              end
          | (Failed, w, reports) => (Errored, on_error (Some file) w, reports)
          | (Scrolling fr, w, reports) => (Running fr, w, reports)
          end
      end
  end.

Definition scrapeSearchFunder (env : RunEnv) (w : World)
    : RunEnd * World * list IterReport :=
  let checkpoint := loadCheckpoint w in
  let lastIndex := initial_lastProfileIndex checkpoint in
  let csv := or_null (csvFilename checkpoint) in
  let processedRef : loc := fresh (dom (heap w)) in
  let w := set_heap (<[processedRef :=
               JsSet.of_array (processedProfileIds checkpoint)]> (heap w)) w in
  match startup env with
  | Thrown => (Rejected, w, [])
  | Ok _ =>
      scrape_in_try env lastIndex csv processedRef
        (setupGracefulShutdown lastIndex csv processedRef w)
  end.

(** ** Definitions used in the statements *)

(** The text of a field as the page gives it; a missing element gives
    the empty string. *)
Definition raw (el : option jsstring) : jsstring := default [] el.

(** Two characters at the same place: the same, or both not whitespace. *)
Definition same_or_visible (c1 c2 : N) : bool :=
  (c1 =? c2)%N || negb (is_whitespace c1) && negb (is_whitespace c2).

(** Two texts that differ, if at all, by replacing visible characters by
    visible characters: another case of a letter, another punctuation mark. *)
Definition same_shape (s t : jsstring) : Prop :=
  Forall2 (λ c1 c2, same_or_visible c1 c2 = true) s t.

(** ASCII punctuation, for the statement about punctuation below. *)
Definition is_punctuation (c : N) : bool :=
  ((33 <=? c) && (c <=? 47) || (58 <=? c) && (c <=? 64)
   || (91 <=? c) && (c <=? 96) || (123 <=? c) && (c <=? 126))%N.

(** The text without its punctuation. *)
Definition remove_punctuation (s : jsstring) : jsstring :=
  filter (λ c, is_punctuation c = false) s.

(** The extraction of index [idx] fails on page [dom]: the driver throws,
    or there is no element at that index. *)
Definition extraction_fails (dom : outcome (list Card)) (idx : nat) : Prop :=
  match dom with
  | Thrown => True
  | Ok elements => elements !! idx = None
  end.

(** A card with a name and nothing else. *)
Definition card_named (n : string) : Card :=
  {| nameEl := Some (lit n); occupationEl := None; locationEl := None;
     uniContainerEl := None; linkedInEl := None; websiteEl := None |}.

(** A card on which no selector finds anything: its fingerprint is [||]
    and every field of its record is [null]. *)
Definition blank_card : Card :=
  {| nameEl := None; occupationEl := None; locationEl := None;
     uniContainerEl := None; linkedInEl := None; websiteEl := None |}.

(** The profiles used in the larger examples: the name of the [k]-th is one
    character, and nothing else is on the card. *)
Definition sample_card (k : nat) : Card :=
  {| nameEl := Some [(20000 + N.of_nat k)%N]; occupationEl := None;
     locationEl := None; uniContainerEl := None; linkedInEl := None;
     websiteEl := None |}.

(** The fingerprints of the first [n] of them, in order. *)
Definition sample_ids (n : nat) : list jsstring :=
  (λ k, uniqueId (probe_card k (sample_card k))) <$> seq 0 n.

(** A process that has just started, with no files. *)
Definition fresh_world : World :=
  {| heap := ∅; checkpoint_file := Missing; csv_files := ∅;
     listeners := []; exited := false |}.

(** The batch an iteration hands to [appendToCsv], if it gets that far. *)
Definition unique_batch (processedRef : loc) (e : IterEnv)
    (newProfiles : list ProbeItem) (w : World) : list TaggedProfile :=
  select_unique (deref w processedRef)
    (attach_uniqueIds
       (extractProfileBatch (index <$> newProfiles) (extract_dom e)) newProfiles).

(** What the commit step does to the world, given the batch. *)
Definition committed (csv : jsstring) (processedRef : loc) (e : IterEnv)
    (lastIndex' : Z) (batch : list TaggedProfile) (w : World) : World :=
  let w1 := appendToCsv csv (profile_data <$> batch) (append_ok e) w in
  let w2 := set_heap (<[processedRef :=
               mark_processed (deref w1 processedRef) batch]> (heap w1)) w1 in
  updateCheckpoint lastIndex' (Some csv)
    (JsSet.to_array (deref w2 processedRef)) (checkpoint_ok e) w2.

(** An iteration without new profiles and with the height unchanged. *)
Definition stalled (r : IterReport) : bool :=
  match report_heights r with
  | Ok (previousHeight, newHeight) =>
      (newHeight =? previousHeight) && (report_found r =? 0)%nat
  | Thrown => false
  end.

(** A page with three profiles. *)
Definition sample_page : list Card :=
  [card_named "Ann"; card_named "Bob"; card_named "Cy"].

(** An iteration on a page that does not change while it is scraped. *)
Definition on_page (cards : list Card) (append_ok checkpoint_ok : bool)
    (previousHeight newHeight : Z) : IterEnv :=
  {| probe_dom := Ok cards; extract_dom := λ _, Ok cards;
     append_ok := append_ok; checkpoint_ok := checkpoint_ok;
     heights := Ok (previousHeight, newHeight) |}.

(** A run in progress: an empty set at location 0, an empty result file. *)
Definition started_world : World :=
  {| heap := {[ 0%nat := [] ]}; checkpoint_file := Missing;
     csv_files := {[ lit "out.csv" := [] ]}; listeners := []; exited := false |}.

(** The variables of the loop when it begins. *)
Definition first_frame (lastIndex : Z) : Frame :=
  {| loop_lastProfileIndex := lastIndex; noChangeCount := 0; scrollCount := 0 |}.

(** The variables of the loop where it stands, unless an exception ended it. *)
Definition final_frame (fin : LoopEnd) : option Frame :=
  match fin with
  | Returned fr _ => Some fr
  | Scrolling fr => Some fr
  | Failed => None
  end.

(** The world of an iteration in a run that has processed [n] sample
    profiles: they are in the set, oldest first. *)
Definition world_with (n : nat) : World :=
  {| heap := {[ 0%nat := sample_ids n ]}; checkpoint_file := Missing;
     csv_files := {[ lit "out.csv" := [] ]}; listeners := []; exited := false |}.

(** A page that stays as it is: nothing on it is new. *)
Definition quiet : IterEnv := on_page [] true true 100 100.

(** A checkpoint left after the first profile was saved. *)
Definition resumed_world : World :=
  {| heap := ∅;
     checkpoint_file :=
       Document {| lastProfileIndex := 0; csvFilename := Some (lit "out.csv");
                   processedProfileIds := [lit "Ann||"] |};
     csv_files := {[ lit "out.csv" := [extract_card (card_named "Ann")] ]};
     listeners := []; exited := false |}.

(** A run whose first iteration sees the page given. *)
Definition run_on (cards : list Card) : RunEnv :=
  {| startup := Ok (); setup := Ok (); clock_filename := lit "new.csv";
     create_ok := true; create_checkpoint_ok := true;
     catch_up_counts := λ _, Ok (length cards);
     iterations := [on_page cards true true 100 200];
     unlink_ok := true; error_checkpoint_ok := true |}.

(** A resumed run on a page that changes between the probe and the
    extraction: the probe sees Ann and Bob, the extraction a page with a
    card put before them. *)
Definition racing_run : RunEnv :=
  {| startup := Ok (); setup := Ok (); clock_filename := lit "new.csv";
     create_ok := true; create_checkpoint_ok := true;
     catch_up_counts := λ _, Ok 2%nat;
     iterations :=
       [{| probe_dom := Ok [card_named "Ann"; card_named "Bob"];
           extract_dom := λ _, Ok [card_named "Zed"; card_named "Ann";
                                   card_named "Bob"];
           append_ok := true; checkpoint_ok := true;
           heights := Ok (100, 200) |}];
     unlink_ok := true; error_checkpoint_ok := true |}.

(** The listener [setupGracefulShutdown] registers. *)
Definition shutdown_listener (lastIndex : Z) (csv : option jsstring)
    (processedRef : loc) (flag : bool) : Listener :=
  {| shuttingDown := flag;
     captured_lastProfileIndex := lastIndex;
     captured_csvFilename := csv;
     captured_processedProfileIds := processedRef |}.

(** ** Definitions used in the further properties *)

(** No whitespace at either end of the text. *)
Definition trimmed (s : jsstring) : Prop :=
  (∀ c, head s = Some c → is_whitespace c = false)
  ∧ (∀ c, last s = Some c → is_whitespace c = false).

(** The batch made of every selected profile: the record extracted for it,
    or the placeholder, with the fingerprint the probe gave it. *)
Definition scraped (page : nat → outcome (list Card))
    (newProfiles : list ProbeItem) : list TaggedProfile :=
  imap (λ i p, {| profile_data := extract_one (page i) (index p);
                  profile_uniqueId := Some (uniqueId p) |}) newProfiles.

(** The records of the lines the iterations of a loop wrote: for each
    iteration whose append succeeded, in order, the records of its batch
    that are not empty. *)
Definition rows_written (envs : list IterEnv) (reports : list IterReport)
    : list ProfileData :=
  concat (zip_with (λ e r, if append_ok e
                           then csv_rows (profile_data <$> report_appended r)
                           else [])
                   envs reports).



(** The checkpoint file holds the state of the loop: its
    [lastProfileIndex], the name of its file, the last 1000 entries of the
    set. *)
Definition in_sync (csv : jsstring) (processedRef : loc) (fr : Frame) (w : World)
    : Prop :=
  checkpoint_file w =
    Document (checkpoint_document (loop_lastProfileIndex fr) (Some csv)
                (JsSet.to_array (deref w processedRef))).

(** An iteration that sees the page [cards] and measures the same height
    before and after scrolling. *)
Definition settled (cards : list Card) (e : IterEnv) : Prop :=
  probe_dom e = Ok cards ∧ ∃ h, heights e = Ok (h, h).

(** ** The first version of the loop (src/unnamed/part_000, lines 146-210) *)

(** The first version keeps the indices it has scraped in a [Set] of its
    own, has no checkpoint, and appends every batch as extracted.  These are
    the variables of its loop that change. *)
Record V0Frame := {
  v0_processedProfileIndices : list nat;
  v0_noChangeCount : nat;
  v0_scrollCount : nat
}.

(** [set.has(index)], on a [Set] of numbers kept in insertion order. *)
Definition v0_has (s : list nat) (i : nat) : bool := bool_decide (i ∈ s).

(** [set.add(index)] *)
Definition v0_add (s : list nat) (i : nat) : list nat :=
  if v0_has s i then s else s ++ [i].

(** [elements.map((_, index) => index)] *)
Definition v0_currentProfiles (elements : list Card) : list nat :=
  seq 0 (length elements).

(** [currentProfiles.filter(index => !processedProfileIndices.has(index))] *)
Definition v0_select_new (processed : list nat) (current : list nat) : list nat :=
  filter (λ i, v0_has processed i = false) current.

(** One iteration of the first version: the new frame, the world, and the
    batch handed to [appendToCsv]. *)
Definition v0_loop_body (csv : jsstring) (e : IterEnv) (fr : V0Frame) (w : World)
    : outcome V0Frame * World * list ProfileData :=
  match probe_dom e with
  | Thrown => (Thrown, w, [])
  | Ok elements =>
      let newProfiles :=
        v0_select_new (v0_processedProfileIndices fr) (v0_currentProfiles elements) in
      let '(processed', w', batch) :=
        match newProfiles with
        | [] => (v0_processedProfileIndices fr, w, [])
        | _ =>
            let batchData := extractProfileBatch newProfiles (extract_dom e) in
            (foldl v0_add (v0_processedProfileIndices fr) newProfiles,
             appendToCsv csv batchData (append_ok e) w, batchData)
        end in
      match heights e with
      | Thrown => (Thrown, w', batch)
      | Ok (previousHeight, newHeight) =>
          (Ok {| v0_processedProfileIndices := processed';
                 v0_noChangeCount :=
                   next_noChangeCount (v0_noChangeCount fr) previousHeight newHeight
                                      (length newProfiles);
                 v0_scrollCount := S (v0_scrollCount fr) |},
           w', batch)
      end
  end.

(** How the first version of the loop stands once the iterations given have
    been used. *)
Inductive V0LoopEnd :=
  | V0Returned (fr : V0Frame) (total : nat)
  | V0Failed
  | V0Scrolling (fr : V0Frame).

(** [while (noChangeCount < maxNoChangeCount) { ... }] *)
Fixpoint v0_scroll_loop (csv : jsstring) (envs : list IterEnv) (fr : V0Frame)
    (w : World) : V0LoopEnd * World * list (list ProfileData) :=
  if bool_decide (v0_noChangeCount fr < maxNoChangeCount)%nat then
    match envs with
    | [] => (V0Scrolling fr, w, [])
    | e :: envs' =>
        match v0_loop_body csv e fr w with
        | (Ok fr', w', batch) =>
            let '(fin, w'', batches) := v0_scroll_loop csv envs' fr' w' in
            (fin, w'', batch :: batches)
        | (Thrown, w', batch) => (V0Failed, w', [batch])
        end
    end
  else (V0Returned fr (length (v0_processedProfileIndices fr)), w, []).

(** The function, from an empty set. *)
Definition v0_scrollScrapeAndSave (csv : jsstring) (envs : list IterEnv) (w : World)
    : V0LoopEnd * World * list (list ProfileData) :=
  v0_scroll_loop csv envs
    {| v0_processedProfileIndices := []; v0_noChangeCount := 0;
       v0_scrollCount := 0 |} w.

(** The variables of the first version where it stands, unless an exception
    ended it. *)
Definition v0_final_frame (fin : V0LoopEnd) : option V0Frame :=
  match fin with
  | V0Returned fr _ => Some fr
  | V0Scrolling fr => Some fr
  | V0Failed => None
  end.

(** * Properties *)

(** ** The definitions at work *)

Example trim_name : trim (lit "  John Smith ") = lit "John Smith".
Proof. reflexivity. Qed.

Example no_break_space_is_whitespace : is_whitespace 160 = true.
Proof. reflexivity. Qed.

Example of_nat_12 : of_nat 12 = lit "12".
Proof. reflexivity. Qed.

Example fingerprint_of_card :
  fingerprint (Some (lit " John  Smith ")) (Some (lit "CEO, Acme"))
              (Some (lit "https://www.linkedin.com/in/js"))
  = lit "JohnSmith|CEO,Acme|https://www.linkedin.com/in/js".
Proof. reflexivity. Qed.

Example extract_card_fields :
  extract_card {| nameEl := Some (lit " Ann "); occupationEl := Some (lit "");
                  locationEl := None;
                  uniContainerEl := Some [lit " MIT "; lit "Yale"];
                  linkedInEl := Some (lit "https://www.linkedin.com/in/ann");
                  websiteEl := None |}
  = {| name := Some (lit "Ann");
       linkedIn_url := Some (lit "https://www.linkedin.com/in/ann");
       website_url := None; occupation := None; location := None;
       uni_name := Some (lit "MIT; Yale") |}.
Proof. reflexivity. Qed.

(** A first run on a page of three profiles that never changes: one
    iteration saves the three, five more find nothing, the run completes
    with three rows in the new file and no checkpoint file. *)
Example first_run_to_completion :
  let env := {| startup := Ok (); setup := Ok (); clock_filename := lit "new.csv";
                create_ok := true; create_checkpoint_ok := true;
                catch_up_counts := λ _, Ok 3%nat;
                iterations := replicate 6 (on_page sample_page true true 100 100);
                unlink_ok := true; error_checkpoint_ok := true |} in
  let run := scrapeSearchFunder env fresh_world in
  run.1.1 = Completed 3
  ∧ checkpoint_file run.1.2 = Missing
  ∧ csv_files run.1.2 !! lit "new.csv" = Some (extract_card <$> sample_page).
Proof. vm_compute. done. Qed.

(** ** Strings and the fingerprint *)

Section Fingerprint.

Implicit Types s t : jsstring.

Lemma remove_whitespace_app s t :
  remove_whitespace (s ++ t) = remove_whitespace s ++ remove_whitespace t.
Proof. apply filter_app. Qed.

Lemma remove_whitespace_trimStart s :
  remove_whitespace (trimStart s) = remove_whitespace s.
Proof.
  induction s as [|c s IH]; simpl; [done|].
  destruct (is_whitespace c) eqn:Hc; [|done].
  rewrite IH. unfold remove_whitespace.
  rewrite filter_cons_False; [done|]. by rewrite Hc.
Qed.

Lemma remove_whitespace_reverse s :
  remove_whitespace (reverse s) = reverse (remove_whitespace s).
Proof.
  induction s as [|c s IH]; [done|].
  rewrite reverse_cons, remove_whitespace_app, IH.
  unfold remove_whitespace at 2 3. rewrite filter_cons.
  destruct (decide (is_whitespace c = false)).
  - rewrite filter_cons_True, reverse_cons; done.
  - rewrite filter_cons_False, app_nil_r; done.
Qed.

(** Trimming first changes nothing once all whitespace is removed. *)
Lemma remove_whitespace_trim s :
  remove_whitespace (trim s) = remove_whitespace s.
Proof.
  unfold trim.
  rewrite remove_whitespace_reverse, remove_whitespace_trimStart,
    remove_whitespace_reverse, reverse_involutive.
  apply remove_whitespace_trimStart.
Qed.

Lemma remove_whitespace_id s :
  Forall (λ c, is_whitespace c = false) s → remove_whitespace s = s.
Proof.
  induction 1 as [|c s Hc _ IH]; [done|].
  unfold remove_whitespace. rewrite filter_cons_True by done.
  f_equal. apply IH.
Qed.

Lemma pipe_not_whitespace : is_whitespace pipe = false.
Proof. reflexivity. Qed.

Lemma remove_whitespace_pipe : remove_whitespace [pipe] = [pipe].
Proof. reflexivity. Qed.

Lemma remove_whitespace_text_or_empty (el : option jsstring) :
  remove_whitespace (text_or_empty el) = remove_whitespace (raw el).
Proof. destruct el; simpl; [apply remove_whitespace_trim|done]. Qed.

Lemma href_or_empty_raw (el : option jsstring) : href_or_empty el = raw el.
Proof. by destruct el. Qed.

Lemma fingerprint_segments (n o l : option jsstring) :
  fingerprint n o l =
    remove_whitespace (raw n) ++ [pipe] ++
    remove_whitespace (raw o) ++ [pipe] ++ remove_whitespace (raw l).
Proof.
  unfold fingerprint, uniqueId_of.
  rewrite !remove_whitespace_app, !remove_whitespace_pipe.
  rewrite (remove_whitespace_text_or_empty n).
  rewrite (remove_whitespace_text_or_empty o).
  by destruct l.
Qed.

Lemma fingerprint_raw (n o l : option jsstring) :
  fingerprint n o l =
    remove_whitespace (raw n ++ [pipe] ++ raw o ++ [pipe] ++ raw l).
Proof.
  rewrite fingerprint_segments, !remove_whitespace_app.
  by rewrite remove_whitespace_pipe.
Qed.

(** Splitting at the first separator. *)
Lemma split_at_first_pipe (a a' r r' : jsstring) :
  pipe ∉ a → pipe ∉ a' →
  a ++ pipe :: r = a' ++ pipe :: r' → a = a' ∧ r = r'.
Proof.
  revert a'. induction a as [|x a IH]; intros [|x' a'] Ha Ha' Heq; simpl in *.
  - by inversion Heq.
  - inversion Heq; subst. exfalso. apply Ha'. left.
  - inversion Heq; subst. exfalso. apply Ha. left.
  - inversion Heq; subst.
    destruct (IH a') as [-> ->]; try done.
    + intros ?. apply Ha. by right.
    + intros ?. apply Ha'. by right.
Qed.

Lemma pipe_not_in_remove_whitespace s :
  pipe ∉ s → pipe ∉ remove_whitespace s.
Proof. intros Hs Hin. apply Hs. by apply list_elem_of_filter in Hin as [_ ?]. Qed.

Lemma same_shape_refl s : same_shape s s.
Proof.
  induction s; constructor; [|done].
  unfold same_or_visible. by rewrite N.eqb_refl.
Qed.

Lemma same_shape_remove_whitespace_inj s t :
  same_shape s t → remove_whitespace s = remove_whitespace t → s = t.
Proof.
  unfold remove_whitespace.
  induction 1 as [|c1 c2 s t Hc _ IH]; [done|].
  unfold same_or_visible in Hc.
  apply orb_true_iff in Hc as [Hc|Hc].
  - apply N.eqb_eq in Hc as ->.
    rewrite !filter_cons. destruct (decide (is_whitespace c2 = false)).
    + intros [=]. f_equal. by apply IH.
    + intros ?. f_equal. by apply IH.
  - apply andb_true_iff in Hc as [H1%negb_true_iff H2%negb_true_iff].
    rewrite !filter_cons_True by done. intros [= -> ?]. f_equal. by apply IH.
Qed.

Lemma same_shape_fields_inj (n1 o1 l1 n2 o2 l2 : jsstring) :
  same_shape n1 n2 → same_shape o1 o2 → same_shape l1 l2 →
  remove_whitespace (n1 ++ [pipe] ++ o1 ++ [pipe] ++ l1)
    = remove_whitespace (n2 ++ [pipe] ++ o2 ++ [pipe] ++ l2) →
  n1 = n2 ∧ o1 = o2 ∧ l1 = l2.
Proof.
  intros Hn Ho Hl Heq.
  apply same_shape_remove_whitespace_inj in Heq.
  - apply app_inj_1 in Heq as [-> Heq]; [|by eapply Forall2_length].
    simpl in Heq. injection Heq as Heq.
    apply app_inj_1 in Heq as [-> Heq]; [|by eapply Forall2_length].
    simpl in Heq. by injection Heq as ->.
  - repeat (apply Forall2_app; [done|]).
    apply Forall2_app; [apply same_shape_refl|].
    apply Forall2_app; [done|].
    apply Forall2_app; [apply same_shape_refl|done].
Qed.

End Fingerprint.

(** C7, as the code has it.  The fingerprint is a function of the three
    fields alone: it is the three texts with all whitespace removed (a
    missing element counts as the empty text), separated by two bars; texts
    without whitespace are kept as they are; two cards with the same three
    fields get the same fingerprint.  Nothing
    else is normalized: texts of the same shape that differ in a visible
    character (the case of a letter, a punctuation mark replaced by another)
    get different fingerprints, and when neither name nor occupation holds
    the separator, equal fingerprints force the three texts to be equal up
    to whitespace. *)
Theorem fingerprint_removes_whitespace_only :
  (∀ n o l : option jsstring,
     fingerprint n o l =
       remove_whitespace (raw n) ++ [pipe] ++
       remove_whitespace (raw o) ++ [pipe] ++ remove_whitespace (raw l))
  ∧ fingerprint None None None = lit "||"
  ∧ (∀ n o l : jsstring,
       Forall (λ c, is_whitespace c = false) (n ++ o ++ l) →
       fingerprint (Some n) (Some o) (Some l) = n ++ [pipe] ++ o ++ [pipe] ++ l)
  ∧ (∀ (i j : nat) (c1 c2 : Card),
       nameEl c1 = nameEl c2 → occupationEl c1 = occupationEl c2 →
       linkedInEl c1 = linkedInEl c2 →
       uniqueId (probe_card i c1) = uniqueId (probe_card j c2))
  ∧ (∀ n1 o1 l1 n2 o2 l2 : option jsstring,
       same_shape (raw n1) (raw n2) → same_shape (raw o1) (raw o2) →
       same_shape (raw l1) (raw l2) →
       fingerprint n1 o1 l1 = fingerprint n2 o2 l2 →
       raw n1 = raw n2 ∧ raw o1 = raw o2 ∧ raw l1 = raw l2)
  ∧ (∀ n1 o1 l1 n2 o2 l2 : option jsstring,
       pipe ∉ raw n1 → pipe ∉ raw o1 → pipe ∉ raw n2 → pipe ∉ raw o2 →
       fingerprint n1 o1 l1 = fingerprint n2 o2 l2 →
       remove_whitespace (raw n1) = remove_whitespace (raw n2)
       ∧ remove_whitespace (raw o1) = remove_whitespace (raw o2)
       ∧ remove_whitespace (raw l1) = remove_whitespace (raw l2)).
Proof.
  split; [exact fingerprint_segments|].
  split; [reflexivity|].
  split.
  { intros n o l [Hn [Ho Hl]%Forall_app]%Forall_app.
    rewrite fingerprint_segments. simpl.
    by rewrite !remove_whitespace_id. }
  split; [intros i j c1 c2 Hn Ho Hl; simpl; by rewrite Hn, Ho, Hl|].
  split.
  - intros n1 o1 l1 n2 o2 l2 Hn Ho Hl.
    rewrite !fingerprint_raw.
    by apply same_shape_fields_inj.
  - intros n1 o1 l1 n2 o2 l2 Hn1 Ho1 Hn2 Ho2.
    rewrite !fingerprint_segments. simpl. intros Heq.
    apply split_at_first_pipe in Heq as [-> Heq];
      [|by apply pipe_not_in_remove_whitespace..].
    apply split_at_first_pipe in Heq as [-> ->];
      [done|by apply pipe_not_in_remove_whitespace..].
Qed.

(** The same name and occupation in another case and with another
    punctuation mark: another fingerprint. *)
Lemma fingerprint_removes_whitespace_only_witness :
  fingerprint (Some (lit "Jane Doe")) (Some (lit "CEO, Acme")) None
  ≠ fingerprint (Some (lit "jane doe")) (Some (lit "CEO; Acme")) None.
Proof.
  intros Heq.
  destruct fingerprint_removes_whitespace_only as (_ & _ & _ & _ & Hshape & _).
  apply Hshape in Heq as [Hn _]; [discriminate Hn|..];
    vm_compute; repeat constructor.
Defined.

(** C7 as stated fails for the separator: two inputs that differ in
    punctuation only (a bar at the end of the name, or as the occupation)
    and have the same fingerprint. *)
Lemma fingerprint_separator_collision :
  ¬ (∀ n1 o1 l1 n2 o2 l2 : jsstring,
       (n1, o1, l1) ≠ (n2, o2, l2) →
       remove_punctuation n1 = remove_punctuation n2 →
       remove_punctuation o1 = remove_punctuation o2 →
       remove_punctuation l1 = remove_punctuation l2 →
       fingerprint (Some n1) (Some o1) (Some l1)
       ≠ fingerprint (Some n2) (Some o2) (Some l2)).
Proof.
  intros H.
  apply (H (lit "a|") (lit "") (lit "") (lit "a") (lit "|") (lit ""));
    [discriminate|reflexivity..].
Qed.

(** ** The extraction batch processor *)

Section Extraction.

Variable page : nat → outcome (list Card).

Lemma extract_from_imap (i : nat) (rest : list nat) (batchData : list ProfileData) :
  extract_from page i rest batchData =
    batchData ++ imap (λ k idx, extract_one (page (i + k)) idx) rest.
Proof.
  revert i batchData. induction rest as [|idx rest IH]; intros i batchData; simpl.
  - by rewrite app_nil_r.
  - rewrite IH, <- app_assoc. simpl. rewrite Nat.add_0_r.
    do 2 f_equal. apply imap_ext. intros k x _. simpl. f_equal. f_equal. lia.
Qed.

Lemma extractProfileBatch_imap (profileIndices : list nat) :
  extractProfileBatch profileIndices page =
    imap (λ i idx, extract_one (page i) idx) profileIndices.
Proof. unfold extractProfileBatch. by rewrite extract_from_imap. Qed.

Lemma length_extractProfileBatch (profileIndices : list nat) :
  length (extractProfileBatch profileIndices page) = length profileIndices.
Proof. by rewrite extractProfileBatch_imap, length_imap. Qed.

Lemma extractProfileBatch_lookup (profileIndices : list nat) (i idx : nat) :
  profileIndices !! i = Some idx →
  extractProfileBatch profileIndices page !! i = Some (extract_one (page i) idx).
Proof.
  intros Hi. by rewrite extractProfileBatch_imap, list_lookup_imap, Hi.
Qed.

End Extraction.

(** C6.  The batch has one record for each index asked for, in the order
    asked.  Where the extraction throws or finds no element the record is
    the placeholder: its name is [Error_Profile_<index>], every other field
    is [null]; the other indices of the batch still get their record. *)
Theorem extractProfileBatch_one_record_per_index
    (profileIndices : list nat) (page : nat → outcome (list Card)) :
  length (extractProfileBatch profileIndices page) = length profileIndices
  ∧ (∀ i idx, profileIndices !! i = Some idx →
       extraction_fails (page i) idx →
       extractProfileBatch profileIndices page !! i =
         Some {| name := Some (lit "Error_Profile_" ++ of_nat idx);
                 linkedIn_url := None; website_url := None;
                 occupation := None; location := None; uni_name := None |})
  ∧ (∀ i idx elements el, profileIndices !! i = Some idx →
       page i = Ok elements → elements !! idx = Some el →
       extractProfileBatch profileIndices page !! i = Some (extract_card el)).
Proof.
  split; [apply length_extractProfileBatch|]. split.
  - intros i idx Hi Hfail. rewrite (extractProfileBatch_lookup _ _ _ _ Hi).
    f_equal. unfold extract_one, evaluate_extract.
    destruct (page i) as [elements|]; [|done].
    simpl in Hfail. by rewrite Hfail.
  - intros i idx elements el Hi Hpage Hel.
    rewrite (extractProfileBatch_lookup _ _ _ _ Hi).
    unfold extract_one, evaluate_extract. by rewrite Hpage, Hel.
Qed.

(** Ten indices, the driver throws at the sixth call: ten records, the
    sixth is the placeholder for index 5, the seventh is extracted. *)
Lemma extractProfileBatch_one_record_per_index_witness :
  let page := λ i : nat, if (i =? 5)%nat then Thrown
                         else Ok (replicate 10 (card_named "Ann")) in
  length (extractProfileBatch (seq 0 10) page) = 10%nat
  ∧ extractProfileBatch (seq 0 10) page !! 5%nat =
      Some {| name := Some (lit "Error_Profile_5");
              linkedIn_url := None; website_url := None;
              occupation := None; location := None; uni_name := None |}
  ∧ extractProfileBatch (seq 0 10) page !! 6%nat =
      Some (extract_card (card_named "Ann")).
Proof.
  intros page.
  destruct (extractProfileBatch_one_record_per_index (seq 0 10) page)
    as (Hlen & Hfail & Hok).
  split; [exact Hlen|]. split.
  - exact (Hfail 5%nat 5%nat eq_refl I).
  - exact (Hok 6%nat 6%nat (replicate 10 (card_named "Ann")) (card_named "Ann")
             eq_refl eq_refl eq_refl).
Defined.

(** ** The processed set *)

Section JsSetFacts.

Implicit Types (s : JsSet.t) (x y : jsstring) (l : list jsstring).

Lemma has_true s x : JsSet.has s x = true ↔ x ∈ s.
Proof. unfold JsSet.has. apply bool_decide_eq_true. Qed.

Lemma has_false s x : JsSet.has s x = false ↔ x ∉ s.
Proof. unfold JsSet.has. apply bool_decide_eq_false. Qed.

Lemma add_prefix s x : s `prefix_of` JsSet.add s x.
Proof.
  unfold JsSet.add. destruct (JsSet.has s x); [done|].
  by apply prefix_app_r.
Qed.

Lemma elem_of_add s x y : y ∈ JsSet.add s x ↔ y ∈ s ∨ y = x.
Proof.
  unfold JsSet.add. destruct (JsSet.has s x) eqn:Hx.
  - apply has_true in Hx. split; [by left|]. by intros [?| ->].
  - rewrite elem_of_app, list_elem_of_singleton. done.
Qed.

Lemma NoDup_add s x : NoDup s → NoDup (JsSet.add s x).
Proof.
  intros Hs. unfold JsSet.add. destruct (JsSet.has s x) eqn:Hx; [done|].
  apply has_false in Hx. apply NoDup_app. split; [done|].
  split; [|apply NoDup_singleton].
  intros y Hy ->%list_elem_of_singleton. done.
Qed.

Lemma foldl_add_prefix s l : s `prefix_of` foldl JsSet.add s l.
Proof.
  revert s. induction l as [|x l IH]; intros s; simpl; [done|].
  etrans; [apply add_prefix|apply IH].
Qed.

Lemma elem_of_foldl_add s l y : y ∈ foldl JsSet.add s l ↔ y ∈ s ∨ y ∈ l.
Proof.
  revert s. induction l as [|x l IH]; intros s; simpl.
  - rewrite elem_of_nil. tauto.
  - rewrite IH, elem_of_add, elem_of_cons. tauto.
Qed.

Lemma NoDup_foldl_add s l : NoDup s → NoDup (foldl JsSet.add s l).
Proof.
  revert s. induction l as [|x l IH]; intros s Hs; simpl; [done|].
  by apply IH, NoDup_add.
Qed.

(** Adding fingerprints that are all new and distinct appends them in
    order. *)
Lemma foldl_add_fresh s l : NoDup (s ++ l) → foldl JsSet.add s l = s ++ l.
Proof.
  revert s. induction l as [|x l IH]; intros s Hnd; simpl.
  - by rewrite app_nil_r.
  - assert (x ∉ s) as Hx.
    { apply NoDup_app in Hnd as (_ & Hdisj & _).
      intros Hin. apply (Hdisj x Hin). left. }
    unfold JsSet.add at 2. apply has_false in Hx. rewrite Hx.
    rewrite IH; rewrite <- app_assoc; done.
Qed.

Lemma of_array_fresh l : NoDup l → JsSet.of_array l = l.
Proof. intros Hl. unfold JsSet.of_array. by rewrite foldl_add_fresh. Qed.


End JsSetFacts.

(** ** The checkpoint store *)

Lemma checkpoint_document_ids (lastIndex : Z) (csv : option jsstring)
    (ids : list jsstring) :
  processedProfileIds (checkpoint_document lastIndex csv ids)
    = slice_last maxCheckpointIds ids.
Proof.
  unfold checkpoint_document, slice_last. simpl. case_bool_decide; [done|].
  replace (length ids - maxCheckpointIds)%nat with 0%nat by lia. done.
Qed.

Lemma length_slice_last (n : nat) (a : list jsstring) :
  length (slice_last n a) = (length a `min` n)%nat.
Proof. unfold slice_last. rewrite length_drop. lia. Qed.

Lemma slice_last_suffix (n : nat) (a : list jsstring) :
  slice_last n a `suffix_of` a.
Proof. apply suffix_drop. Qed.

(** C5.  A save that succeeds writes the last 1000 entries of the array it
    is given, in order, and so at most 1000 of them.  When the set was built
    by adding 1200 distinct fingerprints one after the other, what is
    written is exactly the last 1000 of them: none of the first 200 is in the
    file. *)
Theorem updateCheckpoint_keeps_last_1000 :
  (∀ (lastIndex : Z) (csv : option jsstring) (ids : list jsstring) (w : World),
     ∃ c, checkpoint_file (updateCheckpoint lastIndex csv ids true w) = Document c
          ∧ processedProfileIds c = drop (length ids - 1000) ids
          ∧ (length (processedProfileIds c) ≤ 1000)%nat
          ∧ processedProfileIds c `suffix_of` ids)
  ∧ (∀ (lastIndex : Z) (csv : option jsstring) (fps : list jsstring) (w : World),
       NoDup fps → length fps = 1200%nat →
       let set := foldl JsSet.add [] fps in
       ∃ c, checkpoint_file
              (updateCheckpoint lastIndex csv (JsSet.to_array set) true w) = Document c
            ∧ processedProfileIds c = drop 200 fps
            ∧ length (processedProfileIds c) = 1000%nat
            ∧ ∀ x, x ∈ take 200 fps → x ∉ processedProfileIds c).
Proof.
  split.
  - intros lastIndex csv ids w. eexists. split; [reflexivity|].
    rewrite checkpoint_document_ids.
    split; [done|]. split; [|apply slice_last_suffix].
    rewrite length_slice_last. unfold maxCheckpointIds. lia.
  - intros lastIndex csv fps w Hnd Hlen set. eexists. split; [reflexivity|].
    rewrite checkpoint_document_ids. subst set. unfold JsSet.to_array.
    rewrite foldl_add_fresh by done. simpl.
    unfold slice_last, maxCheckpointIds. rewrite Hlen.
    change (1200 - 1000)%nat with 200%nat.
    split; [done|]. split; [rewrite length_drop; lia|].
    intros x Hx Hx'.
    rewrite <- (take_drop 200 fps) in Hnd.
    apply NoDup_app in Hnd as (_ & Hdisj & _). by apply (Hdisj x).
Qed.

(** 1200 sample fingerprints added in order to an empty set and saved: the
    file holds the last 1000 and none of the first 200. *)
Lemma updateCheckpoint_keeps_last_1000_witness :
  ∃ c, checkpoint_file
         (updateCheckpoint 1199 None
            (JsSet.to_array (foldl JsSet.add [] (sample_ids 1200))) true fresh_world)
       = Document c
       ∧ processedProfileIds c = drop 200 (sample_ids 1200)
       ∧ length (processedProfileIds c) = 1000%nat
       ∧ ∀ x, x ∈ take 200 (sample_ids 1200) → x ∉ processedProfileIds c.
Proof.
  apply (proj2 updateCheckpoint_keeps_last_1000 1199 None (sample_ids 1200) fresh_world).
  - apply (bool_decide_unpack _). vm_compute. exact I.
  - vm_compute. reflexivity.
Defined.

(** ** One iteration of the loop *)

Lemma heap_updateCheckpoint (lastIndex : Z) (csv : option jsstring)
    (ids : list jsstring) (write_ok : bool) (w : World) :
  heap (updateCheckpoint lastIndex csv ids write_ok w) = heap w.
Proof. unfold updateCheckpoint. by destruct write_ok. Qed.

Lemma heap_appendToCsv (filename : jsstring) (rows : list ProfileData)
    (ok : bool) (w : World) :
  heap (appendToCsv filename rows ok w) = heap w.
Proof. unfold appendToCsv. by destruct rows, ok. Qed.

Lemma listeners_updateCheckpoint (lastIndex : Z) (csv : option jsstring)
    (ids : list jsstring) (write_ok : bool) (w : World) :
  listeners (updateCheckpoint lastIndex csv ids write_ok w) = listeners w.
Proof. unfold updateCheckpoint. by destruct write_ok. Qed.

Lemma csv_files_updateCheckpoint (lastIndex : Z) (csv : option jsstring)
    (ids : list jsstring) (write_ok : bool) (w : World) :
  csv_files (updateCheckpoint lastIndex csv ids write_ok w) = csv_files w.
Proof. unfold updateCheckpoint. by destruct write_ok. Qed.

(** Either nothing is committed and nothing changes, or the batch is not
    empty and is committed whole, whatever [appendToCsv] did. *)
Lemma scrape_and_save_cases (csv : jsstring) (processedRef : loc) (e : IterEnv)
    (lastIndex : Z) (newProfiles : list ProbeItem) (w : World) :
  let batch := unique_batch processedRef e newProfiles w in
  (scrape_and_save csv processedRef e lastIndex newProfiles w = (lastIndex, w, [])
   ∧ (newProfiles = [] ∨ batch = []))
  ∨ (scrape_and_save csv processedRef e lastIndex newProfiles w
       = (max_index lastIndex newProfiles,
          committed csv processedRef e (max_index lastIndex newProfiles) batch w,
          batch)
     ∧ newProfiles ≠ [] ∧ batch ≠ []).
Proof.
  intros batch. unfold scrape_and_save.
  destruct newProfiles as [|p ps]; [left; split; [done|by left]|].
  fold (unique_batch processedRef e (p :: ps) w). fold batch.
  destruct batch as [|b bs] eqn:Hb; [left; split; [done|by right]|].
  right. done.
Qed.

Lemma deref_committed (csv : jsstring) (processedRef : loc) (e : IterEnv)
    (lastIndex' : Z) (batch : list TaggedProfile) (w : World) :
  deref (committed csv processedRef e lastIndex' batch w) processedRef
    = mark_processed (deref w processedRef) batch.
Proof.
  unfold committed, deref.
  rewrite heap_updateCheckpoint. simpl.
  rewrite lookup_total_insert_eq. by rewrite heap_appendToCsv.
Qed.

Lemma deref_committed_ne (csv : jsstring) (processedRef r : loc) (e : IterEnv)
    (lastIndex' : Z) (batch : list TaggedProfile) (w : World) :
  r ≠ processedRef →
  deref (committed csv processedRef e lastIndex' batch w) r = deref w r.
Proof.
  intros Hr. unfold committed, deref.
  rewrite heap_updateCheckpoint. simpl.
  rewrite lookup_total_insert_ne by done. by rewrite heap_appendToCsv.
Qed.

Lemma listeners_committed (csv : jsstring) (processedRef : loc) (e : IterEnv)
    (lastIndex' : Z) (batch : list TaggedProfile) (w : World) :
  listeners (committed csv processedRef e lastIndex' batch w) = listeners w.
Proof.
  unfold committed. rewrite listeners_updateCheckpoint. simpl.
  unfold appendToCsv. by destruct (profile_data <$> batch), (append_ok e).
Qed.

Lemma mark_processed_prefix (processed : JsSet.t) (batch : list TaggedProfile) :
  processed `prefix_of` mark_processed processed batch.
Proof. apply foldl_add_prefix. Qed.

Lemma elem_of_mark_processed (processed : JsSet.t) (batch : list TaggedProfile)
    (u : jsstring) :
  u ∈ mark_processed processed batch
  ↔ u ∈ processed ∨ ∃ p, p ∈ batch ∧ profile_uniqueId p = Some u.
Proof.
  unfold mark_processed. rewrite elem_of_foldl_add, list_elem_of_omap. done.
Qed.

Lemma elem_of_select_unique (processed : JsSet.t) (tagged : list TaggedProfile)
    (p : TaggedProfile) :
  p ∈ select_unique processed tagged
  ↔ p ∈ tagged ∧ ∃ u, profile_uniqueId p = Some u ∧ u ≠ [] ∧ u ∉ processed.
Proof.
  unfold select_unique. rewrite list_elem_of_filter.
  unfold still_unprocessed. split.
  - intros [Hp ?]. split; [done|].
    destruct (profile_uniqueId p) as [u|]; [|done]. exists u.
    apply andb_true_iff in Hp as [Hu Hh%negb_true_iff%has_false].
    split; [done|]. split; [|done]. by destruct u.
  - intros [? (u & -> & Hu & Hh)]. split; [|done].
    apply andb_true_iff. split; [by destruct u|].
    by apply negb_true_iff, has_false.
Qed.

Lemma elem_of_select_new (lastIndex : Z) (processed : JsSet.t)
    (current : list ProbeItem) (p : ProbeItem) :
  p ∈ select_new lastIndex processed current
  ↔ p ∈ current ∧ lastIndex < Z.of_nat (index p) ∧ uniqueId p ∉ processed.
Proof.
  unfold select_new. rewrite list_elem_of_filter, has_false.
  rewrite Z.gtb_ltb, Z.ltb_lt. tauto.
Qed.

(** One iteration either leaves the world as it is, or commits a batch
    that is not empty. *)
Lemma loop_body_inv (csv : jsstring) (processedRef : loc) (e : IterEnv)
    (fr : Frame) (w : World) (res : outcome Frame) (w' : World) (rep : IterReport) :
  loop_body csv processedRef e fr w = (res, w', rep) →
  (w' = w ∧ report_appended rep = []
   ∧ ∀ fr', res = Ok fr' → loop_lastProfileIndex fr' = loop_lastProfileIndex fr)
  ∨ (∃ elements, probe_dom e = Ok elements ∧
       let newProfiles :=
         select_new (loop_lastProfileIndex fr) (deref w processedRef) (probe elements) in
       let batch := unique_batch processedRef e newProfiles w in
       batch ≠ [] ∧ newProfiles ≠ [] ∧ report_appended rep = batch
       ∧ w' = committed csv processedRef e
                (max_index (loop_lastProfileIndex fr) newProfiles) batch w
       ∧ ∀ fr', res = Ok fr' →
           loop_lastProfileIndex fr' = max_index (loop_lastProfileIndex fr) newProfiles).
Proof.
  unfold loop_body. destruct (probe_dom e) as [elements|] eqn:Hprobe.
  - set (newProfiles := select_new _ _ _).
    destruct (scrape_and_save_cases csv processedRef e
                (loop_lastProfileIndex fr) newProfiles w) as [[-> _]|(-> & Hn & Hb)].
    + intros Heq. left.
      destruct (heights e) as [[previousHeight newHeight]|];
        injection Heq as <- <- <-; (split; [done|split; [done|]]);
        by intros fr' [= <-].
    + intros Heq. right. exists elements. split; [done|]. simpl.
      destruct (heights e) as [[previousHeight newHeight]|];
        injection Heq as <- <- <-; (do 4 (split; [done|]));
        by intros fr' [= <-].
  - intros [= <- <- <-]. left. done.
Qed.

Lemma loop_body_found (csv : jsstring) (processedRef : loc) (e : IterEnv)
    (fr : Frame) (w : World) (elements : list Card) :
  probe_dom e = Ok elements →
  report_found (loop_body csv processedRef e fr w).2
    = length (select_new (loop_lastProfileIndex fr) (deref w processedRef)
                (probe elements)).
Proof.
  intros Hprobe. unfold loop_body. rewrite Hprobe.
  destruct (scrape_and_save _ _ _ _ _ _) as [[lastIndex' w'] appended].
  by destruct (heights e) as [[??]|].
Qed.

Lemma loop_body_counter (csv : jsstring) (processedRef : loc) (e : IterEnv)
    (fr fr' : Frame) (w w' : World) (rep : IterReport) :
  loop_body csv processedRef e fr w = (Ok fr', w', rep) →
  noChangeCount fr' = if stalled rep then S (noChangeCount fr) else 0%nat.
Proof.
  unfold loop_body. destruct (probe_dom e) as [elements|]; [|done].
  destruct (scrape_and_save _ _ _ _ _ _) as [[lastIndex' w1] appended].
  destruct (heights e) as [[previousHeight newHeight]|]; [|done].
  intros [= <- <- <-]. unfold stalled, next_noChangeCount. simpl.
  by destruct (_ && _).
Qed.

(** ** C2: the profiles selected for extraction *)

(** C2, as the code has it.  The profiles an iteration selects are exactly
    the visible profiles whose index is greater than [lastProfileIndex] AND
    whose fingerprint is not in [processedProfileIds], in page order; their
    number is what the iteration reports as found. *)
Theorem select_new_index_and_fingerprint :
  (∀ (lastIndex : Z) (processed : JsSet.t) (current : list ProbeItem) (p : ProbeItem),
     p ∈ select_new lastIndex processed current
     ↔ p ∈ current ∧ lastIndex < Z.of_nat (index p) ∧ uniqueId p ∉ processed)
  ∧ (∀ (lastIndex : Z) (processed : JsSet.t) (current : list ProbeItem),
       select_new lastIndex processed current `sublist_of` current)
  ∧ (∀ csv processedRef e fr w elements,
       probe_dom e = Ok elements →
       report_found (loop_body csv processedRef e fr w).2
         = length (select_new (loop_lastProfileIndex fr) (deref w processedRef)
                     (probe elements))).
Proof.
  split; [exact elem_of_select_new|].
  split; [intros; apply sublist_filter|].
  intros. by apply loop_body_found.
Qed.

(** Three profiles on the page, the first already saved and not above
    [lastProfileIndex]: the other two are selected. *)
Lemma select_new_index_and_fingerprint_witness :
  select_new 0 [lit "Ann||"] (probe sample_page)
    = [ {| index := 1; uniqueId := lit "Bob||" |};
        {| index := 2; uniqueId := lit "Cy||" |} ]
  ∧ ({| index := 1; uniqueId := lit "Bob||" |}
       ∈ select_new 0 [lit "Ann||"] (probe sample_page)).
Proof.
  split; [reflexivity|].
  apply (proj1 select_new_index_and_fingerprint).
  split; [|split].
  - apply (bool_decide_unpack _). vm_compute. exact I.
  - simpl. lia.
  - apply (bool_decide_unpack _). vm_compute. exact I.
Defined.

(** C2 as stated fails: a visible profile whose fingerprint is not in the
    set, but whose index is not greater than [lastProfileIndex], is not
    selected. *)
Lemma select_new_not_disjunction :
  ¬ (∀ (lastIndex : Z) (processed : JsSet.t) (current : list ProbeItem) (p : ProbeItem),
       p ∈ select_new lastIndex processed current
       ↔ p ∈ current ∧ (lastIndex < Z.of_nat (index p) ∨ uniqueId p ∉ processed)).
Proof.
  intros H.
  assert ({| index := 0; uniqueId := lit "Ann||" |}
            ∈ select_new 5 [] (probe sample_page)) as Hin.
  { apply H. split; [left|right; apply not_elem_of_nil]. }
  vm_compute in Hin. by apply elem_of_nil in Hin.
Qed.

(** ** C1: what a failed append leaves behind *)

(** C1, as the code has it.  [appendToCsv] catches its own failure, so the
    loop goes on the same way whether the rows were written or not: the
    fingerprints of the batch are added to the set, and the checkpoint saved
    next holds the last 1000 entries of that set.  The set gains no
    fingerprint other than those of the batch handed to [appendToCsv] in that
    iteration.  When the append succeeds, the file gains one line for each
    record of the batch that is not empty. *)
Theorem loop_body_marks_batch_even_if_append_fails
    (csv : jsstring) (processedRef : loc) (e : IterEnv) (fr : Frame) (w : World)
    (res : outcome Frame) (w' : World) (rep : IterReport) :
  loop_body csv processedRef e fr w = (res, w', rep) →
  let batch := report_appended rep in
  deref w' processedRef = mark_processed (deref w processedRef) batch
  ∧ (∀ u, u ∈ deref w' processedRef
          ↔ u ∈ deref w processedRef ∨ ∃ p, p ∈ batch ∧ profile_uniqueId p = Some u)
  ∧ (append_ok e = true → batch ≠ [] →
       csv_files w' !! csv
         = Some (default [] (csv_files w !! csv)
                 ++ csv_rows (profile_data <$> batch)))
  ∧ (batch ≠ [] → checkpoint_ok e = true →
       ∃ c, checkpoint_file w' = Document c
            ∧ csvFilename c = Some csv
            ∧ processedProfileIds c
                = slice_last maxCheckpointIds
                    (mark_processed (deref w processedRef) batch)).
Proof.
  intros Hbody batch.
  assert (deref w' processedRef = mark_processed (deref w processedRef) batch) as Hset.
  { subst batch.
    destruct (loop_body_inv _ _ _ _ _ _ _ _ Hbody)
      as [(-> & -> & _)|(elements & _ & _ & _ & -> & -> & _)]; [done|].
    apply deref_committed. }
  split; [done|]. split.
  { intros u. rewrite Hset. apply elem_of_mark_processed. }
  subst batch.
  destruct (loop_body_inv _ _ _ _ _ _ _ _ Hbody)
    as [(-> & -> & _)|(elements & _ & Hne & _ & -> & -> & _)].
  - done.
  - set (newProfiles := select_new _ _ _) in *.
    set (batch := unique_batch _ _ _ _) in *.
    unfold committed.
    rewrite csv_files_updateCheckpoint. simpl.
    unfold appendToCsv.
    destruct (profile_data <$> batch) as [|row rows] eqn:Hrows.
    { by destruct batch. }
    split.
    { intros -> _. simpl. by rewrite lookup_insert_eq. }
    intros _ Hok. unfold updateCheckpoint. rewrite Hok. eexists.
    split; [reflexivity|]. split; [reflexivity|].
    rewrite checkpoint_document_ids. unfold deref. simpl.
    rewrite lookup_total_insert_eq. by destruct (append_ok e).
Qed.

(** Two profiles on the page, the append fails: both fingerprints are in
    the set and in the checkpoint.  A profile and a card without content,
    the append succeeds: both fingerprints are in the set, and the file has
    the one record that is not empty. *)
Lemma loop_body_marks_batch_even_if_append_fails_witness :
  let e := on_page [card_named "Ann"; card_named "Bob"] false true 100 200 in
  let w' := (loop_body (lit "out.csv") 0%nat e (first_frame (-1)) started_world).1.2 in
  let e2 := on_page [card_named "Ann"; blank_card] true true 100 200 in
  let w2 := (loop_body (lit "out.csv") 0%nat e2 (first_frame (-1)) started_world).1.2 in
  (deref w' 0%nat = [lit "Ann||"; lit "Bob||"]
   ∧ ∃ c, checkpoint_file w' = Document c
          ∧ processedProfileIds c = [lit "Ann||"; lit "Bob||"])
  ∧ (deref w2 0%nat = [lit "Ann||"; lit "||"]
     ∧ csv_files w2 !! lit "out.csv" = Some [extract_card (card_named "Ann")]).
Proof.
  intros e w' e2 w2. split.
  - destruct (loop_body_marks_batch_even_if_append_fails
                (lit "out.csv") 0%nat e (first_frame (-1)) started_world
                _ _ _ eq_refl) as (Hset & _ & _ & Hck).
    split; [exact Hset|].
    destruct Hck as (c & Hc & _ & Hids); [discriminate|reflexivity|].
    exists c. split; [exact Hc|exact Hids].
  - destruct (loop_body_marks_batch_even_if_append_fails
                (lit "out.csv") 0%nat e2 (first_frame (-1)) started_world
                _ _ _ eq_refl) as (Hset & _ & Hfile & _).
    split; [exact Hset|]. apply Hfile; [reflexivity|discriminate].
Defined.

(** C1 as stated fails: the append of a batch fails, and its fingerprints
    are in the set and in the checkpoint saved in the same step. *)
Lemma failed_append_still_marked :
  ¬ (∀ csv processedRef e fr w res w' rep,
       loop_body csv processedRef e fr w = (res, w', rep) →
       append_ok e = false →
       ∀ p u, p ∈ report_appended rep → profile_uniqueId p = Some u →
         (u ∉ deref w' processedRef)
         ∧ (∀ c, checkpoint_file w' = Document c → u ∉ processedProfileIds c)).
Proof.
  intros H.
  pose (e := on_page [card_named "Ann"; card_named "Bob"] false true 100 200).
  destruct (H (lit "out.csv") 0%nat e (first_frame (-1)) started_world
              _ _ _ eq_refl eq_refl
              {| profile_data := extract_card (card_named "Ann");
                 profile_uniqueId := Some (lit "Ann||") |}
              (lit "Ann||")) as [Hset Hck].
  - vm_compute. left.
  - reflexivity.
  - apply Hset. vm_compute. left.
Qed.

(** ** The whole loop *)

Section Loop.

Variables (csv : jsstring) (processedRef : loc).

Lemma scroll_loop_unfold (envs : list IterEnv) (fr : Frame) (w : World) :
  scroll_loop csv processedRef envs fr w =
    if bool_decide (noChangeCount fr < maxNoChangeCount)%nat then
      match envs with
      | [] => (Scrolling fr, w, [])
      | e :: envs' =>
          match loop_body csv processedRef e fr w with
          | (Ok fr', w', report) =>
              let '(fin, w'', reports) := scroll_loop csv processedRef envs' fr' w' in
              (fin, w'', report :: reports)
          | (Thrown, w', report) => (Failed, w', [report])
          end
      end
    else (Returned fr (JsSet.size (deref w processedRef)), w, []).
Proof. by destruct envs. Qed.

(** A property of the start and the end of an iteration that is reflexive
    and transitive holds of the start and the end of the loop. *)
Lemma scroll_loop_ind_world (R : World → World → Prop) :
  (∀ w, R w w) →
  (∀ w1 w2 w3, R w1 w2 → R w2 w3 → R w1 w3) →
  (∀ e fr w res w' rep,
     loop_body csv processedRef e fr w = (res, w', rep) → R w w') →
  ∀ envs fr w fin w' reports,
    scroll_loop csv processedRef envs fr w = (fin, w', reports) → R w w'.
Proof.
  intros Hrefl Htrans Hstep. induction envs as [|e envs IH]; intros fr w fin w' reports.
  - rewrite scroll_loop_unfold. case_bool_decide; intros [= <- <- <-]; apply Hrefl.
  - rewrite scroll_loop_unfold. case_bool_decide; [|intros [= <- <- <-]; apply Hrefl].
    destruct (loop_body csv processedRef e fr w) as [[[fr1|] w1] rep] eqn:Hbody.
    + destruct (scroll_loop csv processedRef envs fr1 w1) as [[fin2 w2] reports2] eqn:Hloop.
      intros [= <- <- <-]. eapply Htrans; [by eapply Hstep|by eapply IH].
    + intros [= <- <- <-]. by eapply Hstep.
Qed.

Lemma loop_body_prefix (e : IterEnv) (fr : Frame) (w : World)
    (res : outcome Frame) (w' : World) (rep : IterReport) :
  loop_body csv processedRef e fr w = (res, w', rep) →
  deref w processedRef `prefix_of` deref w' processedRef.
Proof.
  intros Hbody.
  destruct (loop_body_inv _ _ _ _ _ _ _ _ Hbody)
    as [(-> & _)|(elements & _ & _ & _ & _ & -> & _)]; [done|].
  rewrite deref_committed. apply mark_processed_prefix.
Qed.

Lemma scroll_loop_prefix (envs : list IterEnv) (fr : Frame) (w : World)
    (fin : LoopEnd) (w' : World) (reports : list IterReport) :
  scroll_loop csv processedRef envs fr w = (fin, w', reports) →
  deref w processedRef `prefix_of` deref w' processedRef.
Proof.
  apply (scroll_loop_ind_world
           (λ w w', deref w processedRef `prefix_of` deref w' processedRef)).
  - done.
  - intros w1 w2 w3 ??. by etrans.
  - apply loop_body_prefix.
Qed.

Lemma loop_body_listeners (e : IterEnv) (fr : Frame) (w : World)
    (res : outcome Frame) (w' : World) (rep : IterReport) :
  loop_body csv processedRef e fr w = (res, w', rep) →
  listeners w' = listeners w.
Proof.
  intros Hbody.
  destruct (loop_body_inv _ _ _ _ _ _ _ _ Hbody)
    as [(-> & _)|(elements & _ & _ & _ & _ & -> & _)]; [done|].
  apply listeners_committed.
Qed.

Lemma scroll_loop_listeners (envs : list IterEnv) (fr : Frame) (w : World)
    (fin : LoopEnd) (w' : World) (reports : list IterReport) :
  scroll_loop csv processedRef envs fr w = (fin, w', reports) →
  listeners w' = listeners w.
Proof.
  apply (scroll_loop_ind_world (λ w w', listeners w' = listeners w)).
  - done.
  - intros w1 w2 w3 ??. congruence.
  - apply loop_body_listeners.
Qed.

(** What an iteration appends was not in the set when it began. *)
Lemma loop_body_appended_fresh (e : IterEnv) (fr : Frame) (w : World)
    (res : outcome Frame) (w' : World) (rep : IterReport)
    (p : TaggedProfile) (u : jsstring) :
  loop_body csv processedRef e fr w = (res, w', rep) →
  p ∈ report_appended rep → profile_uniqueId p = Some u →
  u ∉ deref w processedRef.
Proof.
  intros Hbody Hp Hu.
  destruct (loop_body_inv _ _ _ _ _ _ _ _ Hbody)
    as [(_ & Hnil & _)|(elements & _ & _ & _ & Hrep & _)].
  - rewrite Hnil in Hp. by apply elem_of_nil in Hp.
  - rewrite Hrep in Hp. unfold unique_batch in Hp.
    apply elem_of_select_unique in Hp as (_ & u' & Hu' & _ & Hfresh).
    congruence.
Qed.

Lemma scroll_loop_appended_fresh (envs : list IterEnv) (fr : Frame) (w : World)
    (fin : LoopEnd) (w' : World) (reports : list IterReport)
    (rep : IterReport) (p : TaggedProfile) (u : jsstring) :
  scroll_loop csv processedRef envs fr w = (fin, w', reports) →
  rep ∈ reports → p ∈ report_appended rep → profile_uniqueId p = Some u →
  u ∉ deref w processedRef.
Proof.
  revert fr w fin w' reports.
  induction envs as [|e envs IH]; intros fr w fin w' reports.
  - rewrite scroll_loop_unfold.
    case_bool_decide; intros [= <- <- <-] Hrep; by apply elem_of_nil in Hrep.
  - rewrite scroll_loop_unfold.
    case_bool_decide; [|intros [= <- <- <-] Hrep; by apply elem_of_nil in Hrep].
    destruct (loop_body csv processedRef e fr w) as [[[fr1|] w1] rep1] eqn:Hbody.
    + destruct (scroll_loop csv processedRef envs fr1 w1)
        as [[fin2 w2] reports2] eqn:Hloop.
      intros [= <- <- <-] [->|Hrep]%elem_of_cons Hp Hu.
      * by eapply loop_body_appended_fresh.
      * intros Hin. eapply IH; [done..|].
        eapply elem_of_prefix; [exact Hin|]. by eapply loop_body_prefix.
    + intros [= <- <- <-] ->%list_elem_of_singleton Hp Hu.
      by eapply loop_body_appended_fresh.
Qed.

Lemma loop_body_lastProfileIndex (e : IterEnv) (fr fr' : Frame) (w w' : World)
    (rep : IterReport) :
  loop_body csv processedRef e fr w = (Ok fr', w', rep) →
  (report_appended rep = []
   ∧ loop_lastProfileIndex fr' = loop_lastProfileIndex fr)
  ∨ (∃ elements, probe_dom e = Ok elements ∧ report_appended rep ≠ []
       ∧ loop_lastProfileIndex fr'
         = max_index (loop_lastProfileIndex fr)
             (select_new (loop_lastProfileIndex fr) (deref w processedRef)
                (probe elements))).
Proof.
  intros Hbody.
  destruct (loop_body_inv _ _ _ _ _ _ _ _ Hbody)
    as [(_ & Hnil & Hlast)|(elements & Hprobe & Hne & _ & Hrep & _ & Hlast)].
  - left. split; [done|]. by apply Hlast.
  - right. exists elements. split; [done|]. split; [|by apply Hlast].
    by rewrite Hrep.
Qed.

End Loop.

(** ** C9: [lastProfileIndex] within a run *)

Lemma max_index_cons (lastIndex : Z) (p : ProbeItem) (ps : list ProbeItem) :
  max_index lastIndex (p :: ps)
    = max_index (lastIndex `max` Z.of_nat (index p)) ps.
Proof. reflexivity. Qed.

Lemma max_index_ge (lastIndex : Z) (newProfiles : list ProbeItem) :
  lastIndex ≤ max_index lastIndex newProfiles.
Proof.
  revert lastIndex.
  induction newProfiles as [|p ps IH]; intros lastIndex; [done|].
  rewrite max_index_cons. etrans; [|apply IH]. lia.
Qed.

Lemma max_index_bounds (lastIndex : Z) (newProfiles : list ProbeItem) :
  Forall (λ p, Z.of_nat (index p) ≤ max_index lastIndex newProfiles) newProfiles.
Proof.
  revert lastIndex.
  induction newProfiles as [|p ps IH]; intros lastIndex; constructor.
  - rewrite max_index_cons. etrans; [|apply max_index_ge]. lia.
  - rewrite Forall_forall. intros q Hq. rewrite max_index_cons.
    by apply (proj1 (Forall_forall _ _) (IH (lastIndex `max` Z.of_nat (index p)))).
Qed.

Lemma max_index_attained (lastIndex : Z) (newProfiles : list ProbeItem) :
  max_index lastIndex newProfiles = lastIndex
  ∨ ∃ p, p ∈ newProfiles ∧ max_index lastIndex newProfiles = Z.of_nat (index p).
Proof.
  revert lastIndex.
  induction newProfiles as [|p ps IH]; intros lastIndex; [by left|].
  rewrite max_index_cons.
  destruct (IH (lastIndex `max` Z.of_nat (index p))) as [Heq|(q & Hq & Heq)];
    rewrite Heq.
  - destruct (Z.max_spec lastIndex (Z.of_nat (index p))) as [[_ Hm]|[_ Hm]];
      rewrite Hm.
    + right. exists p. split; [left|done].
    + by left.
  - right. exists q. split; [by right|done].
Qed.

(** C9.  The value an update assigns is the maximum of the old value and the
    indices of the profiles selected in that iteration; an iteration either
    leaves [lastProfileIndex] as it is or assigns that maximum; so wherever
    the loop stands, or ends, the value is at least the one it started
    with. *)
Theorem lastProfileIndex_never_decreases :
  (∀ (lastIndex : Z) (newProfiles : list ProbeItem),
     lastIndex ≤ max_index lastIndex newProfiles
     ∧ Forall (λ p, Z.of_nat (index p) ≤ max_index lastIndex newProfiles) newProfiles
     ∧ (max_index lastIndex newProfiles = lastIndex
        ∨ ∃ p, p ∈ newProfiles
               ∧ max_index lastIndex newProfiles = Z.of_nat (index p)))
  ∧ (∀ csv processedRef e fr w fr' w' rep,
       loop_body csv processedRef e fr w = (Ok fr', w', rep) →
       loop_lastProfileIndex fr ≤ loop_lastProfileIndex fr'
       ∧ ((report_appended rep = []
           ∧ loop_lastProfileIndex fr' = loop_lastProfileIndex fr)
          ∨ (∃ elements, probe_dom e = Ok elements ∧ report_appended rep ≠ []
               ∧ loop_lastProfileIndex fr'
                 = max_index (loop_lastProfileIndex fr)
                     (select_new (loop_lastProfileIndex fr) (deref w processedRef)
                        (probe elements)))))
  ∧ (∀ csv processedRef envs fr w fin w' reports fr',
       scroll_loop csv processedRef envs fr w = (fin, w', reports) →
       final_frame fin = Some fr' →
       loop_lastProfileIndex fr ≤ loop_lastProfileIndex fr').
Proof.
  assert (∀ csv processedRef e fr w fr' w' rep,
            loop_body csv processedRef e fr w = (Ok fr', w', rep) →
            loop_lastProfileIndex fr ≤ loop_lastProfileIndex fr') as Hstep.
  { intros csv processedRef e fr w fr' w' rep Hbody.
    destruct (loop_body_lastProfileIndex _ _ _ _ _ _ _ _ Hbody)
      as [[_ ->]|(elements & _ & _ & ->)]; [done|apply max_index_ge]. }
  split; [|split].
  - intros lastIndex newProfiles.
    split; [apply max_index_ge|].
    split; [apply max_index_bounds|apply max_index_attained].
  - intros csv processedRef e fr w fr' w' rep Hbody.
    split; [by eapply Hstep|by eapply loop_body_lastProfileIndex].
  - intros csv processedRef envs.
    induction envs as [|e envs IH]; intros fr w fin w' reports fr'.
    + rewrite scroll_loop_unfold.
      case_bool_decide; intros [= <- <- <-] [= <-]; done.
    + rewrite scroll_loop_unfold.
      case_bool_decide; [|intros [= <- <- <-] [= <-]; done].
      destruct (loop_body csv processedRef e fr w) as [[[fr1|] w1] rep1] eqn:Hbody.
      * destruct (scroll_loop csv processedRef envs fr1 w1)
          as [[fin2 w2] reports2] eqn:Hloop.
        intros [= <- <- <-] Hfin.
        etrans; [by eapply Hstep|by eapply IH].
      * intros [= <- <- <-] [=].
Qed.

(** Two iterations on a growing page, from index -1: the loop stands at
    index 2. *)
Lemma lastProfileIndex_never_decreases_witness :
  let envs := [on_page [card_named "Ann"] true true 100 200;
               on_page sample_page true true 200 300] in
  ∃ fr' w' reports,
    scroll_loop (lit "out.csv") 0%nat envs (first_frame (-1)) started_world
      = (Scrolling fr', w', reports)
    ∧ loop_lastProfileIndex fr' = 2
    ∧ loop_lastProfileIndex (first_frame (-1)) ≤ loop_lastProfileIndex fr'.
Proof.
  intros envs. eexists _, _, _.
  split; [vm_compute; reflexivity|]. split; [reflexivity|].
  eapply (proj2 (proj2 lastProfileIndex_never_decreases)
            (lit "out.csv") 0%nat envs (first_frame (-1)) started_world).
  - vm_compute. reflexivity.
  - reflexivity.
Defined.

(** ** C10: the set in memory *)

Lemma heap_on_sigint (write_ok : bool) (l : Listener) (w : World) :
  heap (on_sigint write_ok l w).2 = heap w.
Proof.
  unfold on_sigint. destruct (shuttingDown l); [done|].
  simpl. apply heap_updateCheckpoint.
Qed.

Lemma heap_emit (write_ok : bool) (ls : list Listener) (w : World) :
  heap (emit write_ok ls w).2 = heap w.
Proof.
  revert w. induction ls as [|l ls IH]; intros w; simpl; [done|].
  destruct (exited w); [done|].
  destruct (on_sigint write_ok l w) as [l' w1] eqn:Hl.
  specialize (IH w1). destruct (emit write_ok ls w1) as [ls' w2]. simpl in *.
  rewrite IH. change w1 with (l', w1).2. rewrite <- Hl. apply heap_on_sigint.
Qed.

Lemma heap_sigint (write_ok : bool) (w : World) :
  heap (sigint write_ok w) = heap w.
Proof.
  unfold sigint. destruct (exited w); [done|].
  destruct (listeners w) as [|l ls]; [done|].
  pose proof (heap_emit write_ok (l :: ls) w) as Hemit.
  destruct (emit write_ok (l :: ls) w) as [ls' w']. done.
Qed.

(** C10.  Saving a checkpoint does not touch the set: the truncation is
    made on the array handed to [updateCheckpoint].  Across an iteration,
    across the whole loop, and across a SIGINT, the set after starts with
    the set before.  A fingerprint that is in the set, however long ago it
    was added, is never appended again. *)
Theorem processed_set_only_grows :
  (∀ lastIndex csv ids write_ok w,
     heap (updateCheckpoint lastIndex csv ids write_ok w) = heap w)
  ∧ (∀ csv processedRef e fr w res w' rep,
       loop_body csv processedRef e fr w = (res, w', rep) →
       deref w processedRef `prefix_of` deref w' processedRef)
  ∧ (∀ csv processedRef envs fr w fin w' reports,
       scroll_loop csv processedRef envs fr w = (fin, w', reports) →
       deref w processedRef `prefix_of` deref w' processedRef)
  ∧ (∀ write_ok w, heap (sigint write_ok w) = heap w)
  ∧ (∀ csv processedRef envs fr w fin w' reports rep p u,
       scroll_loop csv processedRef envs fr w = (fin, w', reports) →
       u ∈ deref w processedRef →
       rep ∈ reports → p ∈ report_appended rep → profile_uniqueId p ≠ Some u).
Proof.
  split; [exact heap_updateCheckpoint|].
  split; [exact loop_body_prefix|].
  split; [exact scroll_loop_prefix|].
  split; [exact heap_sigint|].
  intros csv processedRef envs fr w fin w' reports rep p u Hloop Hu Hrep Hp Hpu.
  by eapply scroll_loop_appended_fresh.
Qed.

(** 1200 fingerprints in the set; below the 1200 profiles the page shows
    the oldest profile once more, and a new one.  Only the new one is appended;
    the checkpoint written holds 1000 fingerprints and not the oldest, the
    set holds all 1201. *)
Lemma processed_set_only_grows_witness :
  let e := on_page ((sample_card <$> seq 0 1200)
                      ++ [sample_card 0; sample_card 1200]) true true 100 200 in
  let run := scroll_loop (lit "out.csv") 0%nat [e] (first_frame 1199) (world_with 1200) in
  sample_ids 1200 `prefix_of` deref run.1.2 0%nat
  ∧ length (deref run.1.2 0%nat) = 1201%nat
  ∧ (∃ c, checkpoint_file run.1.2 = Document c
          ∧ length (processedProfileIds c) = 1000%nat
          ∧ uniqueId (probe_card 0 (sample_card 0)) ∉ processedProfileIds c)
  ∧ (omap profile_uniqueId <$> (report_appended <$> run.2))
      = [[uniqueId (probe_card 0 (sample_card 1200))]].
Proof.
  intros e run.
  destruct processed_set_only_grows as (_ & _ & Hloop & _).
  split.
  { apply (Hloop (lit "out.csv") 0%nat [e] (first_frame 1199) (world_with 1200)
             run.1.1 run.1.2 run.2).
    unfold run. by destruct (scroll_loop _ _ _ _ _) as [[??]?]. }
  split; [vm_compute; reflexivity|].
  split; [|vm_compute; reflexivity].
  eexists. split; [vm_compute; reflexivity|].
  split; [vm_compute; reflexivity|].
  apply (bool_decide_unpack _). vm_compute. exact I.
Defined.

(** ** C4: when the loop ends *)

(** The loop returns only with the counter at 5, and then the reports of
    the iterations made end with five stalled ones: either these are all
    the iterations since the counter was [5 - n], or the iteration before
    them was not stalled. *)
Lemma scroll_loop_returned (csv : jsstring) (processedRef : loc)
    (envs : list IterEnv) (fr : Frame) (w : World)
    (fr' : Frame) (total : nat) (w' : World) (reports : list IterReport) :
  scroll_loop csv processedRef envs fr w = (Returned fr' total, w', reports) →
  (noChangeCount fr ≤ maxNoChangeCount)%nat →
  noChangeCount fr' = maxNoChangeCount
  ∧ ((Forall (λ r, stalled r = true) reports
      ∧ (length reports + noChangeCount fr)%nat = maxNoChangeCount)
     ∨ (∃ before r after,
          reports = before ++ r :: after ∧ stalled r = false
          ∧ Forall (λ r, stalled r = true) after
          ∧ length after = maxNoChangeCount)).
Proof.
  revert fr w reports.
  induction envs as [|e envs IH]; intros fr w reports; rewrite scroll_loop_unfold.
  - case_bool_decide; [done|]. intros [= <- <- <- <-] Hle.
    split; [lia|]. left. split; [constructor|simpl; lia].
  - case_bool_decide as Hlt.
    + destruct (loop_body csv processedRef e fr w) as [[[fr1|] w1] rep1] eqn:Hbody;
        [|done].
      destruct (scroll_loop csv processedRef envs fr1 w1)
        as [[fin2 w2] reports2] eqn:Hloop.
      intros [= -> <- <-] _.
      pose proof (loop_body_counter _ _ _ _ _ _ _ _ Hbody) as Hcount.
      destruct (stalled rep1) eqn:Hst.
      * destruct (IH _ _ _ Hloop) as [Hfive [[Hall Hlen]|(before & r & after & -> & ?)]];
          [lia|..]; (split; [done|]).
        -- left. split; [by constructor|]. simpl. lia.
        -- right. by exists (rep1 :: before), r, after.
      * destruct (IH _ _ _ Hloop) as [Hfive [[Hall Hlen]|(before & r & after & -> & ?)]];
          [lia|..]; (split; [done|]); right.
        -- exists [], rep1, reports2. split; [done|]. split; [done|].
           split; [done|lia].
        -- by exists (rep1 :: before), r, after.
    + intros [= <- <- <- <-] Hle.
      split; [lia|]. left. split; [constructor|simpl; lia].
Qed.

(** While the loop is in progress the counter is below 5. *)
Lemma scroll_loop_scrolling (csv : jsstring) (processedRef : loc)
    (envs : list IterEnv) (fr : Frame) (w : World)
    (fr' : Frame) (w' : World) (reports : list IterReport) :
  scroll_loop csv processedRef envs fr w = (Scrolling fr', w', reports) →
  (noChangeCount fr' < maxNoChangeCount)%nat.
Proof.
  revert fr w reports.
  induction envs as [|e envs IH]; intros fr w reports; rewrite scroll_loop_unfold.
  - case_bool_decide; [|done]. by intros [= <- <- <-].
  - case_bool_decide; [|done].
    destruct (loop_body csv processedRef e fr w) as [[[fr1|] w1] rep1]; [|done].
    destruct (scroll_loop csv processedRef envs fr1 w1)
      as [[fin2 w2] reports2] eqn:Hloop.
    intros [= -> <- <-]. by eapply IH.
Qed.

(** The loop goes on as long as the counter is below 5: with one more
    iteration to make, it makes it. *)
Lemma scroll_loop_step (csv : jsstring) (processedRef : loc)
    (e : IterEnv) (fr fr' : Frame) (w w' : World) (rep : IterReport) :
  (noChangeCount fr < maxNoChangeCount)%nat →
  loop_body csv processedRef e fr w = (Ok fr', w', rep) →
  scroll_loop csv processedRef [e] fr w
    = (if bool_decide (noChangeCount fr' < maxNoChangeCount)%nat
       then Scrolling fr'
       else Returned fr' (JsSet.size (deref w' processedRef)), w', [rep]).
Proof.
  intros Hlt Hbody. simpl. rewrite bool_decide_eq_true_2 by done.
  rewrite Hbody. by case_bool_decide.
Qed.

(** The reports of a loop that began with the counter at 0 and returned. *)
Lemma scroll_loop_returned_from_zero (csv : jsstring) (processedRef : loc)
    (envs : list IterEnv) (fr : Frame) (w : World)
    (fr' : Frame) (total : nat) (w' : World) (reports : list IterReport) :
  noChangeCount fr = 0%nat →
  scroll_loop csv processedRef envs fr w = (Returned fr' total, w', reports) →
  noChangeCount fr' = 5%nat
  ∧ ∃ before last5,
      reports = before ++ last5 ∧ length last5 = 5%nat
      ∧ Forall (λ r, stalled r = true) last5
      ∧ (before = [] ∨ ∃ r, last before = Some r ∧ stalled r = false).
Proof.
  intros Hzero Hloop.
  destruct (scroll_loop_returned _ _ _ _ _ _ _ _ _ Hloop)
    as [Hfive [[Hall Hlen]|(before & r & after & -> & Hr & Hall & Hlen)]].
  - rewrite Hzero. unfold maxNoChangeCount. lia.
  - split; [done|]. exists [], reports.
    rewrite Hzero in Hlen. unfold maxNoChangeCount in Hlen.
    split; [done|]. split; [lia|]. split; [done|by left].
  - split; [done|]. exists (before ++ [r]), after.
    split; [by rewrite <- app_assoc|]. split; [done|]. split; [done|].
    right. exists r. by rewrite last_snoc.
Qed.

(** The ways a run can go, with the world it leaves. *)
Lemma scrapeSearchFunder_inv (env : RunEnv) (w : World)
    (fin : RunEnd) (w' : World) (reports : list IterReport) :
  scrapeSearchFunder env w = (fin, w', reports) →
  let processedRef := fresh (dom (heap w)) in
  let lastIndex := initial_lastProfileIndex (loadCheckpoint w) in
  let csv := or_null (csvFilename (loadCheckpoint w)) in
  let w0 := set_heap (<[processedRef :=
              JsSet.of_array (processedProfileIds (loadCheckpoint w))]> (heap w)) w in
  let w1 := setupGracefulShutdown lastIndex csv processedRef w0 in
  (startup env = Thrown ∧ fin = Rejected ∧ w' = w0 ∧ reports = [])
  ∨ (startup env = Ok () ∧ fin = Errored ∧ reports = []
     ∧ ∃ csvE wE,
         w' = updateCheckpoint lastIndex csvE (JsSet.to_array (deref wE processedRef))
                (error_checkpoint_ok env) wE
         ∧ ((wE = w1 ∧ (setup env = Thrown ∨ create_ok env = false))
            ∨ (setup env = Ok () ∧ ∃ file,
                 choose_csv env lastIndex csv processedRef w1 = (Ok file, wE))))
  ∨ (startup env = Ok () ∧ setup env = Ok ()
     ∧ ∃ file w2 lfin lw,
         choose_csv env lastIndex csv processedRef w1 = (Ok file, w2)
         ∧ scroll_loop file processedRef (iterations env) (first_frame lastIndex) w2
           = (lfin, lw, reports)
         ∧ match lfin with
           | Returned _ total =>
               (fin = Completed total
                ∧ clearCheckpoint (unlink_ok env) lw = Ok w')
               ∨ (fin = Errored
                  ∧ clearCheckpoint (unlink_ok env) lw = Thrown
                  ∧ w' = updateCheckpoint lastIndex (Some file)
                           (JsSet.to_array (deref lw processedRef))
                           (error_checkpoint_ok env) lw)
           | Failed =>
               fin = Errored
               ∧ w' = updateCheckpoint lastIndex (Some file)
                        (JsSet.to_array (deref lw processedRef))
                        (error_checkpoint_ok env) lw
           | Scrolling fr => fin = Running fr ∧ w' = lw
           end).
Proof.
  intros Hrun processedRef lastIndex csv w0 w1. unfold scrapeSearchFunder in Hrun.
  fold processedRef lastIndex csv in Hrun. fold w0 in Hrun.
  destruct (startup env) as [[]|] eqn:Hstart.
  2:{ injection Hrun as <- <- <-. by left. }
  right. fold w1 in Hrun. unfold scrape_in_try in Hrun.
  destruct (setup env) as [[]|] eqn:Hsetup.
  2:{ injection Hrun as <- <- <-. left. split; [done|]. split; [done|].
      split; [done|]. exists csv, w1. split; [done|]. left. split; [done|by left]. }
  destruct (choose_csv env lastIndex csv processedRef w1) as [[file|] w2] eqn:Hchoose.
  2:{ injection Hrun as <- <- <-. left. split; [done|]. split; [done|].
      split; [done|]. exists csv, w2. split; [done|]. left.
      unfold choose_csv in Hchoose.
      destruct (create_ok env) eqn:Hcreate.
      - destruct csv as [f|]; [destruct (csv_files w1 !! f)|]; done.
      - split; [|by right].
        destruct csv as [f|]; [destruct (csv_files w1 !! f)|]; by injection Hchoose. }
  unfold scrollScrapeAndSave in Hrun.
  destruct (catch_up (catch_up_counts env) lastIndex).
  2:{ injection Hrun as <- <- <-. left. split; [done|]. split; [done|].
      split; [done|]. exists (Some file), w2. split; [done|].
      right. split; [done|]. by exists file. }
  fold (first_frame lastIndex) in Hrun.
  destruct (scroll_loop file processedRef (iterations env) (first_frame lastIndex) w2)
    as [[lfin lw] lreports] eqn:Hloop.
  right. split; [done|]. split; [done|]. exists file, w2, lfin, lw. split; [done|].
  destruct lfin as [fr' total| |fr'].
  - destruct (clearCheckpoint (unlink_ok env) lw) as [wc|] eqn:Hclear;
      injection Hrun as <- <- <-; (split; [done|]); [by left|by right].
  - by injection Hrun as <- <- <-.
  - by injection Hrun as <- <- <-.
Qed.

(** A run that completes is a loop that began with the counter at 0 and
    returned. *)
Lemma scrapeSearchFunder_completed (env : RunEnv) (w : World)
    (total : nat) (w' : World) (reports : list IterReport) :
  scrapeSearchFunder env w = (Completed total, w', reports) →
  ∃ file processedRef w0 fr' lw,
    scroll_loop file processedRef (iterations env)
      (first_frame (initial_lastProfileIndex (loadCheckpoint w))) w0
    = (Returned fr' total, lw, reports).
Proof.
  intros Hrun.
  destruct (scrapeSearchFunder_inv _ _ _ _ _ Hrun)
    as [(_ & ? & _)|[(_ & ? & _)|(_ & _ & file & w2 & lfin & lw & _ & Hloop & Hfin)]];
    [done..|].
  destruct lfin as [fr' total'| |fr'].
  - destruct Hfin as [[[= <-] _]|[? _]]; [|done].
    by exists file, (fresh (dom (heap w))), w2, fr', lw.
  - by destruct Hfin.
  - by destruct Hfin.
Qed.

(** C4.  After an iteration the counter is one more than before when the
    iteration found no new profile and the height did not change, and 0
    otherwise.  The loop, begun with the counter at 0, returns only when the
    last five iterations were all of that kind, and these five are either
    all the iterations made or come right after one that was not; the same
    holds of a run that completes.  After four such iterations, one that
    finds a new profile puts the counter back to 0 and the loop goes on. *)
Theorem scroll_loop_ends_after_five_stalls :
  (∀ csv processedRef e fr w fr' w' rep,
     loop_body csv processedRef e fr w = (Ok fr', w', rep) →
     noChangeCount fr' = if stalled rep then S (noChangeCount fr) else 0%nat)
  ∧ (∀ r, stalled r = true
          ↔ ∃ h, report_heights r = Ok (h, h) ∧ report_found r = 0%nat)
  ∧ (∀ csv processedRef envs fr w fr' total w' reports,
       noChangeCount fr = 0%nat →
       scroll_loop csv processedRef envs fr w = (Returned fr' total, w', reports) →
       noChangeCount fr' = 5%nat
       ∧ ∃ before last5,
           reports = before ++ last5 ∧ length last5 = 5%nat
           ∧ Forall (λ r, stalled r = true) last5
           ∧ (before = [] ∨ ∃ r, last before = Some r ∧ stalled r = false))
  ∧ (∀ csv processedRef e fr w fr' w' rep,
       noChangeCount fr = 4%nat →
       loop_body csv processedRef e fr w = (Ok fr', w', rep) →
       (0 < report_found rep)%nat →
       noChangeCount fr' = 0%nat
       ∧ scroll_loop csv processedRef [e] fr w = (Scrolling fr', w', [rep]))
  ∧ (∀ env w total w' reports,
       scrapeSearchFunder env w = (Completed total, w', reports) →
       ∃ before last5,
         reports = before ++ last5 ∧ length last5 = 5%nat
         ∧ Forall (λ r, stalled r = true) last5
         ∧ (before = [] ∨ ∃ r, last before = Some r ∧ stalled r = false)).
Proof.
  split; [intros; by eapply loop_body_counter|]. split.
  { intros r. unfold stalled.
    destruct (report_heights r) as [[previousHeight newHeight]|].
    - rewrite andb_true_iff, Z.eqb_eq, Nat.eqb_eq. split.
      + intros [-> ?]. by exists previousHeight.
      + by intros (h & [= -> ->] & ?).
    - split; [done|]. by intros (h & ? & _). }
  split; [intros; by eapply scroll_loop_returned_from_zero|].
  split.
  - intros csv processedRef e fr w fr' w' rep Hfour Hbody Hfound.
    pose proof (loop_body_counter _ _ _ _ _ _ _ _ Hbody) as Hcount.
    assert (stalled rep = false) as Hst.
    { unfold stalled. destruct (report_heights rep) as [[??]|]; [|done].
      apply andb_false_iff. right. apply Nat.eqb_neq. lia. }
    rewrite Hst in Hcount. split; [done|].
    rewrite (scroll_loop_step _ _ _ _ _ _ _ _ ltac:(rewrite Hfour; unfold maxNoChangeCount; lia) Hbody).
    rewrite bool_decide_eq_true_2; [done|].
    rewrite Hcount. unfold maxNoChangeCount. lia.
  - intros env w total w' reports Hrun.
    destruct (scrapeSearchFunder_completed _ _ _ _ _ Hrun)
      as (file & processedRef & w0 & fr' & lw & Hloop).
    eapply proj2, scroll_loop_returned_from_zero; [|exact Hloop]. done.
Qed.

(** Five quiet iterations end the loop; four quiet ones and then a new
    profile do not. *)
Lemma scroll_loop_ends_after_five_stalls_witness :
  (∃ fr' total w' reports,
     scroll_loop (lit "out.csv") 0%nat (replicate 5 quiet) (first_frame (-1))
       started_world = (Returned fr' total, w', reports)
     ∧ noChangeCount fr' = 5%nat ∧ length reports = 5%nat)
  ∧ (∃ fr4 reports4 fr' w' rep,
       scroll_loop (lit "out.csv") 0%nat (replicate 4 quiet) (first_frame (-1))
         started_world = (Scrolling fr4, started_world, reports4)
       ∧ noChangeCount fr4 = 4%nat
       ∧ scroll_loop (lit "out.csv") 0%nat
           [on_page [card_named "Ann"] true true 100 100] fr4 started_world
         = (Scrolling fr', w', [rep])
       ∧ noChangeCount fr' = 0%nat).
Proof.
  destruct scroll_loop_ends_after_five_stalls as (_ & _ & Hret & Hreset & _).
  split.
  - eexists _, _, _, _. split; [vm_compute; reflexivity|].
    destruct (Hret (lit "out.csv") 0%nat (replicate 5 quiet) (first_frame (-1))
                started_world _ _ _ _ eq_refl eq_refl)
      as (Hfive & before & last5 & Hreports & Hlen & _).
    split; [exact Hfive|reflexivity].
  - pose (fr4 := {| loop_lastProfileIndex := -1; noChangeCount := 4;
                    scrollCount := 4 |}).
    destruct (Hreset (lit "out.csv") 0%nat
                (on_page [card_named "Ann"] true true 100 100) fr4 started_world
                _ _ _ eq_refl eq_refl) as [Hzero Hloop]; [vm_compute; lia|].
    eexists fr4, _, _, _, _.
    split; [vm_compute; reflexivity|]. split; [reflexivity|].
    split; [exact Hloop|exact Hzero].
Defined.

(** ** The batch of an iteration *)

Lemma filter_all {A} (P : A → Prop) `{!∀ x, Decision (P x)} (l : list A) :
  Forall P l → filter P l = l.
Proof.
  induction 1 as [|x l Hx _ IH]; [done|].
  rewrite filter_cons_True by done. by rewrite IH.
Qed.

Lemma attach_uniqueIds_scraped (page : nat → outcome (list Card))
    (newProfiles : list ProbeItem) :
  attach_uniqueIds (extractProfileBatch (index <$> newProfiles) page) newProfiles
    = scraped page newProfiles.
Proof.
  unfold attach_uniqueIds, scraped. rewrite extractProfileBatch_imap.
  apply list_eq. intros i. rewrite !list_lookup_imap, list_lookup_fmap.
  by destruct (newProfiles !! i).
Qed.

(** The profiles selected from a probe all pass the test of lines 262-264. *)
Lemma unique_batch_scraped (processedRef : loc) (e : IterEnv) (w : World)
    (lastIndex : Z) (elements : list Card) :
  let newProfiles := select_new lastIndex (deref w processedRef) (probe elements) in
  unique_batch processedRef e newProfiles w = scraped (extract_dom e) newProfiles.
Proof.
  intros newProfiles. unfold unique_batch, select_unique.
  rewrite attach_uniqueIds_scraped. apply filter_all.
  apply Forall_forall. intros t Ht. unfold scraped in Ht.
  apply elem_of_lookup_imap in Ht as (i & p & -> & Hp).
  apply list_elem_of_lookup_2, elem_of_select_new in Hp as (Hprobe & _ & Hfresh).
  unfold still_unprocessed. simpl. apply andb_true_iff. split.
  - unfold probe in Hprobe.
    apply elem_of_lookup_imap in Hprobe as (k & el & -> & _). simpl.
    rewrite fingerprint_segments. by destruct (remove_whitespace _).
  - by apply negb_true_iff, has_false.
Qed.

(** The report and the world of an iteration whose probe did not throw. *)
Lemma loop_body_probed (csv : jsstring) (processedRef : loc) (e : IterEnv)
    (fr : Frame) (w : World) (res : outcome Frame) (w' : World) (rep : IterReport)
    (elements : list Card) :
  loop_body csv processedRef e fr w = (res, w', rep) →
  probe_dom e = Ok elements →
  let newProfiles :=
    select_new (loop_lastProfileIndex fr) (deref w processedRef) (probe elements) in
  report_found rep = length newProfiles
  ∧ report_appended rep = scraped (extract_dom e) newProfiles
  ∧ report_heights rep = heights e
  ∧ (newProfiles = [] → w' = w)
  ∧ (newProfiles ≠ [] →
       w' = committed csv processedRef e
              (max_index (loop_lastProfileIndex fr) newProfiles)
              (scraped (extract_dom e) newProfiles) w).
Proof.
  intros Hbody Hprobe newProfiles. unfold loop_body in Hbody.
  rewrite Hprobe in Hbody. fold newProfiles in Hbody.
  pose proof (unique_batch_scraped processedRef e w (loop_lastProfileIndex fr) elements)
    as Hbatch. simpl in Hbatch. fold newProfiles in Hbatch.
  destruct (scrape_and_save_cases csv processedRef e
              (loop_lastProfileIndex fr) newProfiles w) as [[Heq Hnil]|(Heq & Hn & Hb)];
    rewrite Heq in Hbody; rewrite Hbatch in *.
  - assert (newProfiles = []) as Hnew.
    { destruct Hnil as [?|Hnil]; [done|].
      apply (f_equal length) in Hnil. unfold scraped in Hnil.
      rewrite length_imap in Hnil. by destruct newProfiles. }
    destruct (heights e) as [[??]|]; injection Hbody as <- <- <-; simpl;
      rewrite Hnew; done.
  - destruct (heights e) as [[??]|]; injection Hbody as <- <- <-; simpl; done.
Qed.





(** ** C3: resuming from a checkpoint *)

Lemma heap_choose_csv (env : RunEnv) (lastIndex : Z) (csv : option jsstring)
    (processedRef : loc) (w : World) :
  heap (choose_csv env lastIndex csv processedRef w).2 = heap w.
Proof.
  unfold choose_csv.
  assert (heap (if create_ok env
                then (Ok (clock_filename env),
                      updateCheckpoint lastIndex (Some (clock_filename env))
                        (JsSet.to_array
                           (deref (createCsvWithHeaders (clock_filename env) w)
                              processedRef))
                        (create_checkpoint_ok env)
                        (createCsvWithHeaders (clock_filename env) w))
                else (Thrown, w)).2 = heap w) as Hcreate.
  { destruct (create_ok env); [|done]. simpl. by rewrite heap_updateCheckpoint. }
  destruct csv as [f|]; [|done].
  by destruct (csv_files w !! f).
Qed.

(** The iterations of a run are those of the loop, begun with the set made
    from the checkpoint. *)
Lemma scrapeSearchFunder_reports (env : RunEnv) (w : World)
    (fin : RunEnd) (w' : World) (reports : list IterReport) :
  scrapeSearchFunder env w = (fin, w', reports) →
  reports = []
  ∨ ∃ file processedRef fr w0 lfin lw,
      deref w0 processedRef
        = JsSet.of_array (processedProfileIds (loadCheckpoint w))
      ∧ scroll_loop file processedRef (iterations env) fr w0 = (lfin, lw, reports).
Proof.
  intros Hrun.
  destruct (scrapeSearchFunder_inv _ _ _ _ _ Hrun)
    as [(_ & _ & _ & ?)|[(_ & _ & ? & _)|
        (_ & _ & file & w2 & lfin & lw & Hchoose & Hloop & _)]];
    [by left..|].
  right. eexists file, _, _, w2, lfin, lw. split; [|exact Hloop].
  pose proof (heap_choose_csv env (initial_lastProfileIndex (loadCheckpoint w))
                (or_null (csvFilename (loadCheckpoint w))) (fresh (dom (heap w)))
                (setupGracefulShutdown (initial_lastProfileIndex (loadCheckpoint w))
                   (or_null (csvFilename (loadCheckpoint w))) (fresh (dom (heap w)))
                   (set_heap (<[fresh (dom (heap w)) :=
                        JsSet.of_array (processedProfileIds (loadCheckpoint w))]>
                        (heap w)) w))) as Hheap.
  rewrite Hchoose in Hheap. simpl in Hheap.
  unfold deref. rewrite Hheap. by rewrite lookup_total_insert_eq.
Qed.




(** The same run, in the file: Ann's record is there twice, and the set
    holds Bob's fingerprint though no record of Bob was written. *)
Example changed_page_writes_record_twice :
  let run := scrapeSearchFunder racing_run resumed_world in
  csv_files run.1.2 !! lit "out.csv"
    = Some [extract_card (card_named "Ann"); extract_card (card_named "Ann")]
  ∧ deref run.1.2 0%nat = [lit "Ann||"; lit "Bob||"].
Proof. split; vm_compute; reflexivity. Qed.

(** ** C8: the SIGINT listener *)

Lemma listeners_choose_csv (env : RunEnv) (lastIndex : Z) (csv : option jsstring)
    (processedRef : loc) (w : World) :
  listeners (choose_csv env lastIndex csv processedRef w).2 = listeners w
  ∧ exited (choose_csv env lastIndex csv processedRef w).2 = exited w.
Proof.
  unfold choose_csv, updateCheckpoint.
  destruct csv as [f|]; [destruct (csv_files w !! f); [done|]|];
    by destruct (create_ok env), (create_checkpoint_ok env).
Qed.

Lemma exited_committed (csv : jsstring) (processedRef : loc) (e : IterEnv)
    (lastIndex' : Z) (batch : list TaggedProfile) (w : World) :
  exited (committed csv processedRef e lastIndex' batch w) = exited w.
Proof.
  unfold committed, updateCheckpoint, appendToCsv.
  by destruct (checkpoint_ok e), (profile_data <$> batch), (append_ok e).
Qed.

Lemma scroll_loop_exited (csv : jsstring) (processedRef : loc)
    (envs : list IterEnv) (fr : Frame) (w : World)
    (fin : LoopEnd) (w' : World) (reports : list IterReport) :
  scroll_loop csv processedRef envs fr w = (fin, w', reports) →
  exited w' = exited w.
Proof.
  apply (scroll_loop_ind_world csv processedRef (λ w w', exited w' = exited w)).
  - done.
  - intros w1 w2 w3 ??. congruence.
  - intros e fr0 w0 res w0' rep Hbody.
    destruct (loop_body_inv _ _ _ _ _ _ _ _ Hbody)
      as [(-> & _)|(elements & _ & _ & _ & _ & -> & _)]; [done|].
    apply exited_committed.
Qed.

Lemma listeners_updateCheckpoint_exited (i : Z) (c : option jsstring)
    (ids : list jsstring) (ok : bool) (w : World) :
  listeners (updateCheckpoint i c ids ok w) = listeners w
  ∧ exited (updateCheckpoint i c ids ok w) = exited w.
Proof. unfold updateCheckpoint. by destruct ok. Qed.

Lemma listeners_clearCheckpoint (ok : bool) (w w' : World) :
  clearCheckpoint ok w = Ok w' →
  listeners w' = listeners w ∧ exited w' = exited w.
Proof.
  unfold clearCheckpoint.
  destruct (checkpoint_file w); [by intros [= <-]|destruct ok; [by intros [= <-]|done]..].
Qed.

(** A run that gets past its start-up registers one listener, closed over
    the values read from the checkpoint at the start, and nothing in the run
    changes it; a run that fails in its start-up registers none. *)
Lemma scrapeSearchFunder_listeners (env : RunEnv) (w : World)
    (fin : RunEnd) (w' : World) (reports : list IterReport) :
  scrapeSearchFunder env w = (fin, w', reports) →
  listeners w' =
    listeners w ++
      match startup env with
      | Ok _ =>
          [shutdown_listener (initial_lastProfileIndex (loadCheckpoint w))
             (or_null (csvFilename (loadCheckpoint w)))
             (fresh (dom (heap w))) false]
      | Thrown => []
      end
  ∧ exited w' = exited w.
Proof.
  intros Hrun.
  pose proof (scrapeSearchFunder_inv _ _ _ _ _ Hrun) as Hinv. simpl in Hinv.
  set (processedRef := fresh (dom (heap w))) in *.
  set (lastIndex := initial_lastProfileIndex (loadCheckpoint w)) in *.
  set (csv := or_null (csvFilename (loadCheckpoint w))) in *.
  set (w1 := setupGracefulShutdown _ _ _ _) in *.
  assert (listeners w1 =
            listeners w ++ [shutdown_listener lastIndex csv processedRef false]
          ∧ exited w1 = exited w) as [Hls1 Hex1] by done.
  destruct Hinv as [(-> & _ & -> & _)|[(-> & _ & _ & csvE & wE & -> & HwE)|
      (-> & _ & file & w2 & lfin & lw & Hchoose & Hloop & Hfin)]].
  - simpl. by rewrite app_nil_r.
  - destruct (listeners_updateCheckpoint_exited lastIndex csvE
                (JsSet.to_array (deref wE processedRef)) (error_checkpoint_ok env) wE)
      as [-> ->].
    destruct HwE as [[-> _]|(_ & file & Hchoose)]; [done|].
    pose proof (listeners_choose_csv env lastIndex csv processedRef w1) as [Hls Hex].
    rewrite Hchoose in Hls, Hex. simpl in Hls, Hex. by rewrite Hls, Hex.
  - pose proof (listeners_choose_csv env lastIndex csv processedRef w1) as [Hls Hex].
    rewrite Hchoose in Hls, Hex. simpl in Hls, Hex.
    pose proof (scroll_loop_listeners _ _ _ _ _ _ _ _ Hloop) as Hls'.
    pose proof (scroll_loop_exited _ _ _ _ _ _ _ _ Hloop) as Hex'.
    destruct lfin as [fr' total| |fr'].
    + destruct Hfin as [(_ & Hclear)|(_ & _ & ->)].
      * destruct (listeners_clearCheckpoint _ _ _ Hclear) as [-> ->]. split; simpl; [rewrite Hls', Hls|rewrite Hex', Hex]; done.
      * destruct (listeners_updateCheckpoint_exited lastIndex (Some file)
                (JsSet.to_array (deref lw processedRef)) (error_checkpoint_ok env) lw)
          as [-> ->]. split; simpl; [rewrite Hls', Hls|rewrite Hex', Hex]; done.
    + destruct Hfin as (_ & ->).
      destruct (listeners_updateCheckpoint_exited lastIndex (Some file)
                (JsSet.to_array (deref lw processedRef)) (error_checkpoint_ok env) lw)
          as [-> ->]. split; simpl; [rewrite Hls', Hls|rewrite Hex', Hex]; done.
    + destruct Hfin as (_ & ->). split; simpl; [rewrite Hls', Hls|rewrite Hex', Hex]; done.
Qed.

(** One listener that has not run yet: a SIGINT saves what the listener
    captured, with the set as it is now, and ends the process; a second
    SIGINT does nothing. *)
Lemma sigint_single_listener (write_ok : bool) (w : World)
    (lastIndex : Z) (csv : option jsstring) (processedRef : loc) :
  exited w = false →
  listeners w = [shutdown_listener lastIndex csv processedRef false] →
  sigint write_ok w =
    set_listeners [shutdown_listener lastIndex csv processedRef true]
      (set_exited
         (updateCheckpoint lastIndex csv
            (JsSet.to_array (deref w processedRef)) write_ok w))
  ∧ ∀ write_ok', sigint write_ok' (sigint write_ok w) = sigint write_ok w.
Proof.
  intros Hex Hls.
  assert (sigint write_ok w =
            set_listeners [shutdown_listener lastIndex csv processedRef true]
              (set_exited
                 (updateCheckpoint lastIndex csv
                    (JsSet.to_array (deref w processedRef)) write_ok w))) as Heq.
  { unfold sigint. rewrite Hex, Hls. simpl. rewrite Hex. done. }
  split; [done|].
  intros write_ok'. rewrite Heq. reflexivity.
Qed.

(** What a SIGINT saves during a run that started without listeners: the
    index and the file name are those read from the checkpoint when the run
    started, not those of the loop; the fingerprints are those of the set as
    it is. *)
Lemma sigint_during_run (env : RunEnv) (w : World)
    (fr : Frame) (w' : World) (reports : list IterReport) :
  listeners w = [] → exited w = false →
  scrapeSearchFunder env w = (Running fr, w', reports) →
  checkpoint_file (sigint true w') =
    Document (checkpoint_document
                (initial_lastProfileIndex (loadCheckpoint w))
                (or_null (csvFilename (loadCheckpoint w)))
                (deref w' (fresh (dom (heap w)))))
  ∧ exited (sigint true w') = true.
Proof.
  intros Hls Hex Hrun.
  destruct (scrapeSearchFunder_listeners _ _ _ _ _ Hrun) as [Hls' Hex'].
  assert (startup env = Ok ()) as Hstart.
  { destruct (scrapeSearchFunder_inv _ _ _ _ _ Hrun)
      as [(_ & ? & _)|[(_ & ? & _)|(? & _)]]; done. }
  rewrite Hstart, Hls in Hls'. rewrite Hex in Hex'. simpl in Hls'.
  destruct (sigint_single_listener true w' _ _ _ Hex' Hls') as [-> _].
  done.
Qed.

(** C8, at a first run interrupted after one batch.  The loop has saved
    index 1 and the name of the new file; its own [lastProfileIndex] is 1.
    The listener then writes index -1 and no file name over them, with the
    two fingerprints, and ends the process; there is one listener, and a
    second SIGINT changes nothing. *)
Theorem sigint_saves_values_from_startup :
  let run := scrapeSearchFunder (run_on [card_named "Ann"; card_named "Bob"])
               fresh_world in
  let w := run.1.2 in
  (∃ fr, run.1.1 = Running fr ∧ loop_lastProfileIndex fr = 1)
  ∧ length (listeners w) = 1%nat
  ∧ checkpoint_file w =
      Document {| lastProfileIndex := 1; csvFilename := Some (lit "new.csv");
                  processedProfileIds := [lit "Ann||"; lit "Bob||"] |}
  ∧ checkpoint_file (sigint true w) =
      Document {| lastProfileIndex := -1; csvFilename := None;
                  processedProfileIds := [lit "Ann||"; lit "Bob||"] |}
  ∧ exited (sigint true w) = true
  ∧ sigint true (sigint true w) = sigint true w.
Proof.
  intros run w.
  split; [eexists; split; vm_compute; reflexivity|].
  repeat split; vm_compute; reflexivity.
Qed.

(** * Further properties of the code *)

(** ** Trimming and the extracted record *)

Lemma head_trimStart (s : jsstring) (c : N) :
  head (trimStart s) = Some c → is_whitespace c = false.
Proof.
  induction s as [|c0 s IH]; simpl; [done|].
  destruct (is_whitespace c0) eqn:Hc0; [done|]. by intros [= <-].
Qed.

Lemma last_trimStart (s : jsstring) (c : N) :
  last (trimStart s) = Some c → last s = Some c.
Proof.
  induction s as [|c0 s IH]; simpl; [done|].
  destruct (is_whitespace c0); [|done].
  intros Hl. rewrite last_cons, (IH Hl). done.
Qed.

Lemma trimStart_id (s : jsstring) :
  (∀ c, head s = Some c → is_whitespace c = false) → trimStart s = s.
Proof. destruct s as [|c s]; simpl; [done|]. intros H. by rewrite (H c). Qed.

Lemma trim_trimmed (s : jsstring) : trimmed (trim s).
Proof.
  unfold trim. split; intros c.
  - rewrite head_reverse. intros Hl%last_trimStart.
    rewrite last_reverse in Hl. by apply head_trimStart in Hl.
  - rewrite last_reverse. apply head_trimStart.
Qed.

Lemma trim_id (s : jsstring) : trimmed s → trim s = s.
Proof.
  intros [Hh Hl]. unfold trim.
  rewrite (trimStart_id s Hh), trimStart_id, reverse_involutive; [done|].
  intros c. rewrite head_reverse. apply Hl.
Qed.

Lemma or_null_Some (x : option jsstring) (s : jsstring) :
  or_null x = Some s ↔ x = Some s ∧ s ≠ [].
Proof.
  destruct x as [[|c t]|]; simpl.
  - split; [done|]. by intros [[= <-] ?].
  - split; [intros [= <-]; by split|]. by intros [[= <-] _].
  - split; [done|]. by intros [? _].
Qed.

(** X1.  In a record extracted from a card, no field is the empty string:
    a field is [null] or holds text.  The name, the occupation and the
    location are the trimmed text of their element, so they neither begin
    nor end with whitespace, and trimming them again changes nothing; an
    element whose text is all whitespace gives [null].  The two links are
    the [href] of their element, unchanged. *)
Theorem extract_card_fields_trimmed_or_null (profileEl : Card) :
  let d := extract_card profileEl in
  (∀ f, f ∈ [name; linkedIn_url; website_url; occupation; location; uni_name] →
        f d ≠ Some [])
  ∧ (∀ s, name d = Some s ↔ ∃ t, nameEl profileEl = Some t ∧ trim t = s ∧ s ≠ [])
  ∧ (∀ s, occupation d = Some s
          ↔ ∃ t, occupationEl profileEl = Some t ∧ trim t = s ∧ s ≠ [])
  ∧ (∀ s, location d = Some s
          ↔ ∃ t, locationEl profileEl = Some t ∧ trim t = s ∧ s ≠ [])
  ∧ (∀ s, name d = Some s ∨ occupation d = Some s ∨ location d = Some s →
          trimmed s ∧ trim s = s)
  ∧ (∀ s, linkedIn_url d = Some s ↔ linkedInEl profileEl = Some s ∧ s ≠ [])
  ∧ (∀ s, website_url d = Some s ↔ websiteEl profileEl = Some s ∧ s ≠ []).
Proof.
  intros d.
  assert (∀ el s, or_null (getTextContent el) = Some s
                  ↔ ∃ t, el = Some t ∧ trim t = s ∧ s ≠ []) as Htext.
  { intros el s. rewrite or_null_Some. unfold getTextContent.
    destruct el as [t|]; simpl.
    - split; [intros [[= <-] ?]; by exists t|].
      by intros (t' & [= <-] & <- & ?).
    - split; [by intros [? _]|]. by intros (t' & ? & _). }
  split.
  { intros f Hf Hempty.
    assert (∀ x, or_null x ≠ Some []) as Hnull.
    { intros x [_ ?]%or_null_Some. done. }
    repeat (apply elem_of_cons in Hf as [->|Hf]; [exact (Hnull _ Hempty)|]).
    by apply elem_of_nil in Hf. }
  split; [apply Htext|]. split; [apply Htext|]. split; [apply Htext|].
  split.
  { intros s Hs.
    assert (∃ t, trim t = s) as [t <-].
    { destruct Hs as [Hs|[Hs|Hs]]; apply Htext in Hs as (t & _ & ? & _); by exists t. }
    split; [apply trim_trimmed|apply trim_id, trim_trimmed]. }
  split; intros s; subst d; simpl; apply or_null_Some.
Qed.

Lemma extract_card_fields_trimmed_or_null_witness :
  let d := extract_card
             {| nameEl := Some (lit "  Ann Lee "); occupationEl := Some (lit "   ");
                locationEl := None; uniContainerEl := None;
                linkedInEl := Some (lit "https://www.linkedin.com/in/ann");
                websiteEl := Some (lit "") |} in
  name d = Some (lit "Ann Lee") ∧ occupation d = None ∧ website_url d = None
  ∧ trimmed (lit "Ann Lee").
Proof.
  intros d.
  destruct (extract_card_fields_trimmed_or_null
              {| nameEl := Some (lit "  Ann Lee "); occupationEl := Some (lit "   ");
                 locationEl := None; uniContainerEl := None;
                 linkedInEl := Some (lit "https://www.linkedin.com/in/ann");
                 websiteEl := Some (lit "") |})
    as (_ & Hname & _ & _ & Htrim & _).
  assert (name d = Some (lit "Ann Lee")) as Hn.
  { apply Hname. exists (lit "  Ann Lee "). split; [reflexivity|].
    split; [reflexivity|discriminate]. }
  split; [exact Hn|]. split; [reflexivity|]. split; [reflexivity|].
  exact (proj1 (Htrim (lit "Ann Lee") (or_introl Hn))).
Defined.

(** ** The shape of a fingerprint *)

Lemma remove_whitespace_visible (s : jsstring) :
  Forall (λ c, is_whitespace c = false) (remove_whitespace s).
Proof.
  apply Forall_forall. intros c Hc.
  by apply list_elem_of_filter in Hc as [? _].
Qed.

(** X2.  A fingerprint holds no whitespace character and is never the empty
    string (it contains the two separators), so the test [profile.uniqueId]
    of line 263 holds of every probed profile.  Whitespace is all that is
    dropped: cards whose three fields are equal once whitespace is removed
    have the same fingerprint, wherever the whitespace stands. *)
Theorem fingerprint_shape :
  (∀ n o l : option jsstring,
     Forall (λ c, is_whitespace c = false) (fingerprint n o l)
     ∧ truthy (fingerprint n o l) = true
     ∧ ∃ a b c, fingerprint n o l = a ++ [pipe] ++ b ++ [pipe] ++ c)
  ∧ (∀ n1 o1 l1 n2 o2 l2 : option jsstring,
       remove_whitespace (raw n1) = remove_whitespace (raw n2) →
       remove_whitespace (raw o1) = remove_whitespace (raw o2) →
       remove_whitespace (raw l1) = remove_whitespace (raw l2) →
       fingerprint n1 o1 l1 = fingerprint n2 o2 l2)
  ∧ (∀ (elements : list Card) (p : ProbeItem),
       p ∈ probe elements → truthy (uniqueId p) = true).
Proof.
  assert (∀ n o l, truthy (fingerprint n o l) = true) as Htruthy.
  { intros n o l. rewrite fingerprint_segments.
    by destruct (remove_whitespace (raw n)). }
  split; [|split].
  - intros n o l. split; [|split; [apply Htruthy|]].
    + rewrite fingerprint_raw. apply remove_whitespace_visible.
    + rewrite fingerprint_segments. by eexists _, _, _.
  - intros n1 o1 l1 n2 o2 l2 Hn Ho Hl.
    rewrite !fingerprint_segments. by rewrite Hn, Ho, Hl.
  - intros elements p Hp. unfold probe in Hp.
    apply elem_of_lookup_imap in Hp as (i & el & -> & _). apply Htruthy.
Qed.

(** The same card rendered with other spacing has the same fingerprint. *)
Lemma fingerprint_shape_witness :
  fingerprint (Some (lit " John  Smith ")) (Some (lit "CEO")) None
  = fingerprint (Some (lit "JohnSmith")) (Some (lit " C E O ")) (Some (lit " ")).
Proof.
  apply (proj1 (proj2 fingerprint_shape)); reflexivity.
Defined.

(** ** The catch-up scrolls *)

Lemma catch_up_from_Ok (counts : nat → outcome nat) (lastIndex : Z)
    (i remaining n : nat) :
  catch_up_from counts lastIndex i remaining = Ok n →
  (i ≤ n ≤ i + remaining)%nat
  ∧ (∀ j, (i ≤ j < n)%nat →
       ∃ c, counts j = Ok c ∧ ((S j < n)%nat → Z.of_nat c ≤ lastIndex))
  ∧ ((n < i + remaining)%nat →
       ∃ c, counts (pred n) = Ok c ∧ lastIndex < Z.of_nat c ∧ (i < n)%nat).
Proof.
  revert i. induction remaining as [|r IH]; intros i; simpl.
  - intros [= <-]. split; [lia|]. split; intros; lia.
  - destruct (counts i) as [c|] eqn:Hc; [|done].
    destruct (Z.of_nat c >? lastIndex) eqn:Hgt.
    + intros [= <-]. split; [lia|]. split.
      * intros j Hj. assert (j = i) as -> by lia. exists c. split; [done|lia].
      * intros _. exists c. simpl. split; [done|]. split; [lia|lia].
    + intros Hrec. destruct (IH _ Hrec) as (Hb & Hall & Hlast).
      split; [lia|]. split.
      * intros j Hj. destruct (decide (j = i)) as [->|Hne].
        -- exists c. split; [done|]. lia.
        -- apply Hall. lia.
      * intros Hlt. destruct Hlast as (c' & ? & ? & ?); [lia|].
        exists c'. split; [done|]. split; [done|lia].
Qed.

Lemma catch_up_from_Thrown (counts : nat → outcome nat) (lastIndex : Z)
    (i remaining : nat) :
  catch_up_from counts lastIndex i remaining = Thrown →
  ∃ j, (i ≤ j < i + remaining)%nat ∧ counts j = Thrown.
Proof.
  revert i. induction remaining as [|r IH]; intros i; simpl; [done|].
  destruct (counts i) as [c|] eqn:Hc.
  - destruct (Z.of_nat c >? lastIndex); [done|].
    intros (j & ? & ?)%IH. exists j. split; [lia|done].
  - intros _. exists i. split; [lia|done].
Qed.

(** X3.  The catch-up phase scrolls at most 30 times and at most
    [ceil(lastProfileIndex / 10)] times, and not at all unless
    [lastProfileIndex] is positive.  Every scroll but the last one found no
    more than [lastProfileIndex] profiles; when it stops before its bound,
    the last scroll found more.  It throws only if one of its calls into the
    page throws. *)
Theorem catch_up_bounded (counts : nat → outcome nat) (lastIndex : Z) :
  (∀ n, catch_up counts lastIndex = Ok n →
     (n ≤ 30)%nat
     ∧ Z.of_nat n ≤ Z.max 0 ((lastIndex + 9) / 10)
     ∧ (lastIndex ≤ 0 → n = 0%nat)
     ∧ (∀ j, (j < n)%nat →
          ∃ c, counts j = Ok c ∧ ((S j < n)%nat → Z.of_nat c ≤ lastIndex))
     ∧ ((n < 30)%nat → Z.of_nat n < (lastIndex + 9) / 10 →
          ∃ c, counts (pred n) = Ok c ∧ lastIndex < Z.of_nat c))
  ∧ (catch_up counts lastIndex = Thrown →
       0 < lastIndex ∧ ∃ j, (j < 30)%nat ∧ counts j = Thrown).
Proof.
  unfold catch_up, scrollsNeeded.
  destruct (lastIndex >? 0) eqn:Hpos.
  - apply Z.gtb_lt in Hpos. split.
    + intros n Hn. apply catch_up_from_Ok in Hn as (Hb & Hall & Hlast).
      split; [lia|]. split; [lia|]. split; [lia|]. split.
      * intros j Hj. apply Hall. lia.
      * intros H30 Hneed. destruct Hlast as (c & ? & ? & _); [lia|]. by exists c.
    + intros (j & Hj & ?)%catch_up_from_Thrown. split; [done|].
      exists j. split; [lia|done].
  - rewrite Z.gtb_ltb in Hpos. apply Z.ltb_ge in Hpos. split; [|done].
    assert ((lastIndex + 9) / 10 < 1) by (apply Z.div_lt_upper_bound; lia).
    intros n [= <-]. split; [lia|]. split; [lia|]. split; [done|].
    split; intros; lia.
Qed.

(** Resuming after index 25 on a page that shows ten more profiles with each
    scroll: three scrolls, the third finds 30. *)
Lemma catch_up_bounded_witness :
  catch_up (λ i, Ok (10 * S i)%nat) 25 = Ok 3%nat
  ∧ (3 ≤ 30)%nat
  ∧ (∀ j, (j < 3)%nat →
       ∃ c, (λ i, Ok (10 * S i)%nat) j = Ok c ∧ ((S j < 3)%nat → Z.of_nat c ≤ 25)).
Proof.
  split; [reflexivity|].
  destruct (proj1 (catch_up_bounded (λ i, Ok (10 * S i)%nat) 25) 3%nat eq_refl)
    as (H30 & _ & _ & Hall & _).
  split; [exact H30|exact Hall].
Defined.

(** ** What an iteration appends *)

Lemma omap_uniqueId_imap (g : nat → ProbeItem → ProfileData)
    (newProfiles : list ProbeItem) :
  omap profile_uniqueId
    (imap (λ i p, {| profile_data := g i p;
                     profile_uniqueId := Some (uniqueId p) |}) newProfiles)
  = uniqueId <$> newProfiles.
Proof.
  revert g. induction newProfiles as [|p ps IH]; intros g; [done|].
  simpl. f_equal. apply (IH (λ i, g (S i))).
Qed.

Lemma omap_uniqueId_scraped (page : nat → outcome (list Card))
    (newProfiles : list ProbeItem) :
  omap profile_uniqueId (scraped page newProfiles) = uniqueId <$> newProfiles.
Proof.
  apply (omap_uniqueId_imap (λ i p, extract_one (page i) (index p))).
Qed.

(** X4.  The second filter never drops anything: every profile selected at
    lines 243-246 is handed to [appendToCsv], in page order, with the record
    extracted for it (or the placeholder) and the fingerprint of the probe.
    An iteration so appends as many rows as it reports found, and adds the
    fingerprints of all the selected profiles to the set. *)
Theorem loop_body_appends_all_selected
    (csv : jsstring) (processedRef : loc) (e : IterEnv) (fr : Frame) (w : World)
    (res : outcome Frame) (w' : World) (rep : IterReport) (elements : list Card) :
  loop_body csv processedRef e fr w = (res, w', rep) →
  probe_dom e = Ok elements →
  let newProfiles :=
    select_new (loop_lastProfileIndex fr) (deref w processedRef) (probe elements) in
  report_appended rep = scraped (extract_dom e) newProfiles
  ∧ length (report_appended rep) = report_found rep
  ∧ omap profile_uniqueId (report_appended rep) = uniqueId <$> newProfiles
  ∧ deref w' processedRef
      = foldl JsSet.add (deref w processedRef) (uniqueId <$> newProfiles).
Proof.
  intros Hbody Hprobe newProfiles.
  destruct (loop_body_probed _ _ _ _ _ _ _ _ _ Hbody Hprobe)
    as (Hfound & Happ & _ & Hnil & Hcons). fold newProfiles in Hfound, Happ, Hnil, Hcons.
  split; [done|]. split.
  { rewrite Happ, Hfound. unfold scraped. by rewrite length_imap. }
  split; [by rewrite Happ, omap_uniqueId_scraped|].
  destruct (decide (newProfiles = [])) as [Hn|Hn].
  - rewrite (Hnil Hn), Hn. done.
  - rewrite (Hcons Hn), deref_committed. unfold mark_processed.
    by rewrite omap_uniqueId_scraped.
Qed.

(** Three profiles on the page, the extraction of the second one throws:
    three rows are handed over, the second is the placeholder. *)
Lemma loop_body_appends_all_selected_witness :
  let e := {| probe_dom := Ok sample_page;
              extract_dom := λ i, if (i =? 1)%nat then Thrown else Ok sample_page;
              append_ok := true; checkpoint_ok := true;
              heights := Ok (100, 200) |} in
  let rep := (loop_body (lit "out.csv") 0%nat e (first_frame (-1)) started_world).2 in
  length (report_appended rep) = 3%nat
  ∧ profile_data <$> report_appended rep
    = [extract_card (card_named "Ann"); error_profile 1; extract_card (card_named "Cy")].
Proof.
  intros e rep.
  destruct (loop_body_appends_all_selected (lit "out.csv") 0%nat e (first_frame (-1))
              started_world _ _ rep sample_page eq_refl eq_refl)
    as (Happ & Hlen & _).
  split; [exact Hlen|]. rewrite Happ. reflexivity.
Defined.

(** What an iteration appends is in the set when the iteration is over. *)
Lemma loop_body_appended_marked (csv : jsstring) (processedRef : loc) (e : IterEnv)
    (fr : Frame) (w : World) (res : outcome Frame) (w' : World) (rep : IterReport)
    (p : TaggedProfile) (u : jsstring) :
  loop_body csv processedRef e fr w = (res, w', rep) →
  p ∈ report_appended rep → profile_uniqueId p = Some u →
  u ∈ deref w' processedRef.
Proof.
  intros Hbody Hp Hu.
  destruct (loop_body_inv _ _ _ _ _ _ _ _ Hbody)
    as [(_ & Hnil & _)|(elements & _ & _ & _ & Hrep & -> & _)].
  - rewrite Hnil in Hp. by apply elem_of_nil in Hp.
  - rewrite deref_committed. apply elem_of_mark_processed. right.
    exists p. by rewrite <- Hrep.
Qed.

(** X5.  A profile whose extraction fails is not skipped and not retried: its
    row in the batch is the placeholder, with the fingerprint of the probe;
    the fingerprint is in the set when the iteration is over; when the append
    succeeds the placeholder row is in the file; and no later iteration of the
    loop appends a profile with that fingerprint. *)
Theorem failed_extraction_is_saved_and_never_retried
    (csv : jsstring) (processedRef : loc) (e : IterEnv) (fr : Frame) (w : World)
    (res : outcome Frame) (w' : World) (rep : IterReport)
    (elements : list Card) (i : nat) (p : ProbeItem) :
  loop_body csv processedRef e fr w = (res, w', rep) →
  probe_dom e = Ok elements →
  select_new (loop_lastProfileIndex fr) (deref w processedRef) (probe elements) !! i
    = Some p →
  extraction_fails (extract_dom e i) (index p) →
  report_appended rep !! i
    = Some {| profile_data := error_profile (index p);
              profile_uniqueId := Some (uniqueId p) |}
  ∧ uniqueId p ∈ deref w' processedRef
  ∧ (append_ok e = true →
       error_profile (index p) ∈ default [] (csv_files w' !! csv))
  ∧ (∀ envs fr1 fin w2 reports rep2 q,
       scroll_loop csv processedRef envs fr1 w' = (fin, w2, reports) →
       rep2 ∈ reports → q ∈ report_appended rep2 →
       profile_uniqueId q ≠ Some (uniqueId p)).
Proof.
  intros Hbody Hprobe Hi Hfail.
  destruct (loop_body_probed _ _ _ _ _ _ _ _ _ Hbody Hprobe)
    as (_ & Happ & _ & _ & Hcons).
  set (newProfiles := select_new _ _ _) in *.
  assert (report_appended rep !! i
          = Some {| profile_data := error_profile (index p);
                    profile_uniqueId := Some (uniqueId p) |}) as Hrow.
  { rewrite Happ. unfold scraped. rewrite list_lookup_imap, Hi. simpl.
    do 2 f_equal. unfold extract_one, evaluate_extract.
    destruct (extract_dom e i) as [els|]; [|done].
    simpl in Hfail. by rewrite Hfail. }
  assert (uniqueId p ∈ deref w' processedRef) as Hmarked.
  { apply (loop_body_appended_marked _ _ _ _ _ _ _ _
             {| profile_data := error_profile (index p);
                profile_uniqueId := Some (uniqueId p) |} _ Hbody); [|done].
    by eapply list_elem_of_lookup_2. }
  split; [done|]. split; [done|]. split.
  - intros Hok.
    assert (newProfiles ≠ []) as Hne by (intros Hnil; by rewrite Hnil in Hi).
    rewrite (Hcons Hne). unfold committed.
    rewrite csv_files_updateCheckpoint. simpl. unfold appendToCsv. rewrite Hok.
    rewrite <- Happ.
    destruct (profile_data <$> report_appended rep) as [|row rows] eqn:Hrows.
    { apply (f_equal (λ l, l !! i)) in Hrows.
      by rewrite list_lookup_fmap, Hrow in Hrows. }
    simpl. rewrite lookup_insert_eq. simpl. rewrite <- Hrows.
    apply elem_of_app. right. apply list_elem_of_filter. split; [done|].
    apply list_elem_of_fmap.
    eexists. split; [|by eapply list_elem_of_lookup_2]. done.
  - intros envs fr1 fin w2 reports rep2 q Hloop Hrep2 Hq Hu.
    by eapply scroll_loop_appended_fresh.
Qed.

(** The extraction of Bob throws: his placeholder is written, and when the
    page is scraped again he is not extracted again. *)
Lemma failed_extraction_is_saved_and_never_retried_witness :
  let e := {| probe_dom := Ok sample_page;
              extract_dom := λ i, if (i =? 1)%nat then Thrown else Ok sample_page;
              append_ok := true; checkpoint_ok := true;
              heights := Ok (100, 200) |} in
  let w' := (loop_body (lit "out.csv") 0%nat e (first_frame (-1)) started_world).1.2 in
  error_profile 1 ∈ default [] (csv_files w' !! lit "out.csv")
  ∧ lit "Bob||" ∈ deref w' 0%nat.
Proof.
  intros e w'.
  destruct (failed_extraction_is_saved_and_never_retried
              (lit "out.csv") 0%nat e (first_frame (-1)) started_world _ w' _
              sample_page 1%nat {| index := 1; uniqueId := lit "Bob||" |}
              eq_refl eq_refl eq_refl I) as (_ & Hset & Hfile & _).
  split; [exact (Hfile eq_refl)|exact Hset].
Defined.

(** ** Across the iterations of a loop *)

(** X6.  No fingerprint is appended in two different iterations of a loop,
    and so in two different iterations of a run. *)
Theorem no_fingerprint_appended_in_two_iterations :
  (∀ csv processedRef envs fr w fin w' reports i j ra rb p q u,
     scroll_loop csv processedRef envs fr w = (fin, w', reports) →
     reports !! i = Some ra → reports !! j = Some rb → (i < j)%nat →
     p ∈ report_appended ra → q ∈ report_appended rb →
     profile_uniqueId p = Some u → profile_uniqueId q ≠ Some u)
  ∧ (∀ env w fin w' reports i j ra rb p q u,
       scrapeSearchFunder env w = (fin, w', reports) →
       reports !! i = Some ra → reports !! j = Some rb → (i < j)%nat →
       p ∈ report_appended ra → q ∈ report_appended rb →
       profile_uniqueId p = Some u → profile_uniqueId q ≠ Some u).
Proof.
  assert (∀ csv processedRef envs fr w fin w' reports i j ra rb p q u,
            scroll_loop csv processedRef envs fr w = (fin, w', reports) →
            reports !! i = Some ra → reports !! j = Some rb → (i < j)%nat →
            p ∈ report_appended ra → q ∈ report_appended rb →
            profile_uniqueId p = Some u → profile_uniqueId q ≠ Some u) as Hloop.
  { intros csv processedRef envs.
    induction envs as [|e envs IH];
      intros fr w fin w' reports i j ra rb p q u; rewrite scroll_loop_unfold.
    - case_bool_decide; intros [= <- <- <-]; done.
    - case_bool_decide; [|intros [= <- <- <-]; done].
      destruct (loop_body csv processedRef e fr w) as [[[fr1|] w1] rep1] eqn:Hbody.
      + destruct (scroll_loop csv processedRef envs fr1 w1)
          as [[fin2 w2] reports2] eqn:Hrest.
        intros [= <- <- <-] Hi Hj Hlt Hp Hq Hu Hu'.
        destruct j as [|j]; [lia|]. simpl in Hj.
        destruct i as [|i]; simpl in Hi.
        * injection Hi as <-.
          apply (scroll_loop_appended_fresh _ _ _ _ _ _ _ _ rb q u Hrest
                   (list_elem_of_lookup_2 _ _ _ Hj) Hq Hu').
          by eapply loop_body_appended_marked.
        * assert (i < j)%nat as Hlt' by lia.
          exact (IH _ _ _ _ _ i j ra rb p q u Hrest Hi Hj Hlt' Hp Hq Hu Hu').
      + intros [= <- <- <-] Hi Hj Hlt.
        destruct j as [|j]; [lia|]. by destruct i. }
  split; [exact Hloop|].
  intros env w fin w' reports i j ra rb p q u Hrun Hi.
  destruct (scrapeSearchFunder_reports _ _ _ _ _ Hrun)
    as [->|(file & processedRef & fr & w0 & lfin & lw & _ & Hl)]; [done|].
  by eapply Hloop.
Qed.

(** The page shows Ann, then Ann and Bob: the second iteration appends Bob
    only. *)
Lemma no_fingerprint_appended_in_two_iterations_witness :
  let envs := [on_page [card_named "Ann"] true true 100 200;
               on_page [card_named "Ann"; card_named "Bob"] true true 200 300] in
  let run := scroll_loop (lit "out.csv") 0%nat envs (first_frame (-1))
               started_world in
  let reports := run.2 in
  (omap profile_uniqueId <$> (report_appended <$> reports))
    = [[lit "Ann||"]; [lit "Bob||"]]
  ∧ ∀ rb q, reports !! 1%nat = Some rb → q ∈ report_appended rb →
            profile_uniqueId q ≠ Some (lit "Ann||").
Proof.
  intros envs run reports. split; [reflexivity|].
  intros rb q Hrb Hq.
  eapply (proj1 no_fingerprint_appended_in_two_iterations
            (lit "out.csv") 0%nat envs (first_frame (-1)) started_world
            run.1.1 run.1.2 reports 0%nat 1%nat _ rb
            {| profile_data := extract_card (card_named "Ann");
               profile_uniqueId := Some (lit "Ann||") |} q (lit "Ann||")).
  - unfold reports, run. by destruct (scroll_loop _ _ _ _ _) as [[??]?].
  - reflexivity.
  - exact Hrb.
  - lia.
  - vm_compute. left.
  - exact Hq.
  - reflexivity.
Defined.

(** ** The file the loop writes *)

Lemma loop_body_csv_files (csv : jsstring) (processedRef : loc) (e : IterEnv)
    (fr : Frame) (w : World) (res : outcome Frame) (w' : World) (rep : IterReport) :
  loop_body csv processedRef e fr w = (res, w', rep) →
  default [] (csv_files w' !! csv)
    = default [] (csv_files w !! csv)
      ++ (if append_ok e
          then csv_rows (profile_data <$> report_appended rep) else [])
  ∧ ∀ f, f ≠ csv → csv_files w' !! f = csv_files w !! f.
Proof.
  intros Hbody.
  destruct (loop_body_inv _ _ _ _ _ _ _ _ Hbody)
    as [(-> & -> & _)|(elements & _ & _ & _ & -> & -> & _)].
  - split; [|done]. destruct (append_ok e); by rewrite app_nil_r.
  - set (batch := unique_batch _ _ _ _).
    unfold committed. rewrite csv_files_updateCheckpoint. simpl.
    unfold appendToCsv.
    destruct (profile_data <$> batch) as [|row rows];
      [split; [|done]; destruct (append_ok e); by rewrite app_nil_r|].
    destruct (append_ok e); cbn [csv_files set_csv_files].
    + split; [by rewrite lookup_insert_eq|].
      intros f Hf. by rewrite lookup_insert_ne.
    + split; [by rewrite app_nil_r|done].
Qed.

(** X7.  The records of the file after the loop are those of the file
    before it followed, for each iteration whose append succeeded, in the
    order of the iterations, by the records of its batch that have a field
    that is not null: a record with no field yields no line.  The loop
    touches no other file, and makes no more iterations than the page gave
    it occasion for. *)
Theorem scroll_loop_file_contents
    (csv : jsstring) (processedRef : loc) (envs : list IterEnv)
    (fr : Frame) (w : World) (fin : LoopEnd) (w' : World)
    (reports : list IterReport) :
  scroll_loop csv processedRef envs fr w = (fin, w', reports) →
  default [] (csv_files w' !! csv)
    = default [] (csv_files w !! csv) ++ rows_written envs reports
  ∧ (∀ f, f ≠ csv → csv_files w' !! f = csv_files w !! f)
  ∧ (length reports ≤ length envs)%nat.
Proof.
  revert fr w fin w' reports.
  induction envs as [|e envs IH]; intros fr w fin w' reports;
    rewrite scroll_loop_unfold.
  - case_bool_decide; intros [= <- <- <-]; by rewrite app_nil_r.
  - case_bool_decide; [|intros [= <- <- <-]; rewrite app_nil_r; simpl; split_and!; [done..|lia]].
    destruct (loop_body csv processedRef e fr w) as [[[fr1|] w1] rep1] eqn:Hbody;
      destruct (loop_body_csv_files _ _ _ _ _ _ _ _ Hbody) as [Hrows Hother].
    + destruct (scroll_loop csv processedRef envs fr1 w1)
        as [[fin2 w2] reports2] eqn:Hrest.
      destruct (IH _ _ _ _ _ Hrest) as (Hrows2 & Hother2 & Hlen).
      intros [= <- <- <-]. unfold rows_written in *. simpl.
      split; [by rewrite Hrows2, Hrows, app_assoc|].
      split; [|lia]. intros f Hf. by rewrite Hother2, Hother.
    + intros [= <- <- <-]. unfold rows_written. simpl.
      rewrite zip_with_nil_r. simpl. rewrite app_nil_r.
      split; [done|]. split; [done|lia].
Qed.

(** Two iterations on a growing page, whose second card has no content;
    the second append fails: the file holds the one record of the first
    iteration that is not empty. *)
Lemma scroll_loop_file_contents_witness :
  let envs := [on_page [card_named "Ann"; blank_card] true true 100 200;
               on_page [card_named "Ann"; blank_card; card_named "Bob"]
                 false true 200 300] in
  let run := scroll_loop (lit "out.csv") 0%nat envs (first_frame (-1))
               started_world in
  (length <$> (report_appended <$> run.2)) = [2%nat; 1%nat]
  ∧ csv_files run.1.2 !! lit "out.csv" = Some [extract_card (card_named "Ann")]
  ∧ default [] (csv_files run.1.2 !! lit "out.csv")
    = default [] (csv_files started_world !! lit "out.csv")
      ++ rows_written envs run.2.
Proof.
  intros envs run. split; [reflexivity|]. split; [reflexivity|].
  apply (scroll_loop_file_contents (lit "out.csv") 0%nat envs (first_frame (-1))
           started_world run.1.1 run.1.2 run.2).
  unfold run. by destruct (scroll_loop _ _ _ _ _) as [[??]?].
Defined.

(** ** The checkpoint the loop leaves *)

Lemma loop_body_in_sync (csv : jsstring) (processedRef : loc) (e : IterEnv)
    (fr fr' : Frame) (w w' : World) (rep : IterReport) :
  checkpoint_ok e = true →
  loop_body csv processedRef e fr w = (Ok fr', w', rep) →
  (report_appended rep = [] ∧ w' = w
   ∧ loop_lastProfileIndex fr' = loop_lastProfileIndex fr)
  ∨ (report_appended rep ≠ [] ∧ in_sync csv processedRef fr' w').
Proof.
  intros Hok Hbody.
  destruct (loop_body_inv _ _ _ _ _ _ _ _ Hbody)
    as [(-> & Hnil & Hlast)|(elements & _ & Hne & _ & Hrep & -> & Hlast)].
  - left. split; [done|]. split; [done|]. by apply Hlast.
  - right. split; [by rewrite Hrep|].
    unfold in_sync. rewrite (Hlast fr' eq_refl).
    unfold committed at 1, updateCheckpoint at 1. rewrite Hok. simpl.
    do 3 f_equal. unfold committed, deref. by rewrite heap_updateCheckpoint.
Qed.

(** X8.  When every checkpoint write succeeds, the checkpoint file follows
    the loop: if the file held the state of the loop when the loop began, or
    some iteration appended a batch, then wherever the loop stands or ends
    the file holds the loop's own [lastProfileIndex], the name of its CSV
    file and the last 1000 fingerprints of the set. *)
Theorem scroll_loop_keeps_checkpoint_in_sync
    (csv : jsstring) (processedRef : loc) (envs : list IterEnv)
    (fr : Frame) (w : World) (fin : LoopEnd) (w' : World)
    (reports : list IterReport) (fr' : Frame) :
  Forall (λ e, checkpoint_ok e = true) envs →
  scroll_loop csv processedRef envs fr w = (fin, w', reports) →
  final_frame fin = Some fr' →
  in_sync csv processedRef fr w
  ∨ (∃ rep, rep ∈ reports ∧ report_appended rep ≠ []) →
  in_sync csv processedRef fr' w'.
Proof.
  intros Hoks. revert fr w fin w' reports.
  induction Hoks as [|e envs Hok _ IH]; intros fr w fin w' reports;
    rewrite scroll_loop_unfold.
  - case_bool_decide; intros [= <- <- <-] [= <-] [?|(rep & Hrep & _)]; try done;
      by apply elem_of_nil in Hrep.
  - case_bool_decide.
    2:{ intros [= <- <- <-] [= <-] [?|(rep & Hrep & _)]; [done|].
        by apply elem_of_nil in Hrep. }
    destruct (loop_body csv processedRef e fr w) as [[[fr1|] w1] rep1] eqn:Hbody;
      [|by intros [= <- <- <-]].
    destruct (scroll_loop csv processedRef envs fr1 w1)
      as [[fin2 w2] reports2] eqn:Hrest.
    intros [= <- <- <-] Hfin Hstart. apply (IH _ _ _ _ _ Hrest Hfin).
    destruct (loop_body_in_sync _ _ _ _ _ _ _ _ Hok Hbody)
      as [(Hnil & -> & Hlast)|[_ Hsync]]; [|by left].
    destruct Hstart as [Hsync|(rep & [->|Hrep]%elem_of_cons & Hne)].
    + left. unfold in_sync in *. by rewrite Hlast.
    + done.
    + right. by exists rep.
Qed.

(** After one batch of three profiles the file holds index 2, the name of
    the CSV file and the three fingerprints. *)
Lemma scroll_loop_keeps_checkpoint_in_sync_witness :
  let envs := [on_page sample_page true true 100 200] in
  let run := scroll_loop (lit "out.csv") 0%nat envs (first_frame (-1))
               started_world in
  checkpoint_file run.1.2
  = Document {| lastProfileIndex := 2; csvFilename := Some (lit "out.csv");
                processedProfileIds := [lit "Ann||"; lit "Bob||"; lit "Cy||"] |}.
Proof.
  intros envs run.
  assert (in_sync (lit "out.csv") 0%nat
            {| loop_lastProfileIndex := 2; noChangeCount := 0; scrollCount := 1 |}
            run.1.2) as Hsync.
  { apply (scroll_loop_keeps_checkpoint_in_sync (lit "out.csv") 0%nat envs
             (first_frame (-1)) started_world run.1.1 run.1.2 run.2).
    - repeat constructor.
    - unfold run. by destruct (scroll_loop _ _ _ _ _) as [[??]?].
    - reflexivity.
    - right. eexists. split; [left|]. discriminate. }
  exact Hsync.
Defined.

(** ** Saving and loading the checkpoint *)

(** X9.  What [updateCheckpoint] writes, [loadCheckpoint] reads back: after
    a save that succeeds, a run that starts reads the index saved (with 0
    read as -1, because of [|| -1]), the file name saved (with the empty
    name read as none), and builds from the array a set that is the last
    1000 entries of the set saved, in the same order, and the whole set when
    it has at most 1000.  A save that fails leaves what is read as it was,
    and a missing or unreadable file reads as index -1, no file name, no
    fingerprint. *)
Theorem checkpoint_save_load_round_trip :
  (∀ (lastIndex : Z) (csv : option jsstring) (s : JsSet.t) (w : World),
     NoDup s →
     let c := loadCheckpoint
                (updateCheckpoint lastIndex csv (JsSet.to_array s) true w) in
     initial_lastProfileIndex c = (if lastIndex =? 0 then -1 else lastIndex)
     ∧ or_null (csvFilename c) = or_null csv
     ∧ JsSet.of_array (processedProfileIds c) = drop (length s - 1000) s
     ∧ ((length s ≤ 1000)%nat → JsSet.of_array (processedProfileIds c) = s))
  ∧ (∀ lastIndex csv ids w,
       loadCheckpoint (updateCheckpoint lastIndex csv ids false w) = loadCheckpoint w)
  ∧ (∀ w, checkpoint_file w = Missing ∨ checkpoint_file w = Unparsable →
          initial_lastProfileIndex (loadCheckpoint w) = -1
          ∧ csvFilename (loadCheckpoint w) = None
          ∧ JsSet.of_array (processedProfileIds (loadCheckpoint w)) = []).
Proof.
  split; [|split].
  - intros lastIndex csv s w Hs c.
    assert (c = checkpoint_document lastIndex csv s) as -> by done.
    split; [done|]. split; [done|].
    rewrite checkpoint_document_ids.
    assert (NoDup (slice_last maxCheckpointIds s)) as Hnd.
    { eapply sublist_NoDup; [done|apply sublist_drop]. }
    rewrite (of_array_fresh _ Hnd). split; [done|].
    intros Hlen. unfold slice_last, maxCheckpointIds.
    by replace (length s - 1000)%nat with 0%nat by lia.
  - done.
  - intros w [Hw|Hw]; unfold loadCheckpoint; by rewrite Hw.
Qed.

(** A run that has saved the three sample fingerprints at index 0 resumes at
    index -1 with the same three fingerprints. *)
Lemma checkpoint_save_load_round_trip_witness :
  let s := [lit "Ann||"; lit "Bob||"; lit "Cy||"] in
  let c := loadCheckpoint
             (updateCheckpoint 0 (Some (lit "out.csv")) (JsSet.to_array s) true
                fresh_world) in
  initial_lastProfileIndex c = -1
  ∧ JsSet.of_array (processedProfileIds c) = s.
Proof.
  intros s c.
  destruct (proj1 checkpoint_save_load_round_trip 0 (Some (lit "out.csv")) s fresh_world)
    as (Hidx & _ & _ & Hset).
  - apply (bool_decide_unpack _). vm_compute. exact I.
  - split; [exact Hidx|]. apply Hset. simpl. lia.
Defined.

(** ** A page that has stopped changing *)

Section Settled.

Variables (csv : jsstring) (processedRef : loc) (cards : list Card).

(** Once an iteration has seen a page, nothing on that page is new. *)
Lemma loop_body_nothing_left (e : IterEnv) (fr fr' : Frame) (w w' : World)
    (rep : IterReport) :
  probe_dom e = Ok cards →
  loop_body csv processedRef e fr w = (Ok fr', w', rep) →
  select_new (loop_lastProfileIndex fr') (deref w' processedRef) (probe cards) = [].
Proof.
  intros Hprobe Hbody.
  destruct (select_new (loop_lastProfileIndex fr') (deref w' processedRef)
              (probe cards)) as [|p rest] eqn:Hsel; [done|].
  assert (p ∈ select_new (loop_lastProfileIndex fr') (deref w' processedRef)
                (probe cards)) as Hp by (rewrite Hsel; left).
  apply elem_of_select_new in Hp as (Hin & Hidx & Hfresh).
  pose proof (loop_body_prefix _ _ _ _ _ _ _ _ Hbody) as Hprefix.
  assert (p ∈ select_new (loop_lastProfileIndex fr) (deref w processedRef)
                (probe cards)) as Hsel0.
  { apply elem_of_select_new. split; [done|]. split.
    - destruct (loop_body_lastProfileIndex _ _ _ _ _ _ _ _ Hbody)
        as [[_ Heq]|(els & _ & _ & Heq)]; rewrite Heq in Hidx; [done|].
      eapply Z.le_lt_trans; [apply max_index_ge|done].
    - intros Hold. apply Hfresh. by eapply elem_of_prefix. }
  destruct (loop_body_lastProfileIndex _ _ _ _ _ _ _ _ Hbody)
    as [[Hnil _]|(els & Hels & _ & Heq)].
  - destruct (loop_body_probed _ _ _ _ _ _ _ _ _ Hbody Hprobe) as (_ & Happ & _).
    rewrite Hnil in Happ. apply (f_equal length) in Happ.
    unfold scraped in Happ. rewrite length_imap in Happ.
    destruct (select_new (loop_lastProfileIndex fr) _ _); [|done].
    by apply elem_of_nil in Hsel0.
  - rewrite Hprobe in Hels. injection Hels as <-.
    pose proof (max_index_bounds (loop_lastProfileIndex fr)
                  (select_new (loop_lastProfileIndex fr) (deref w processedRef)
                     (probe cards))) as Hb.
    rewrite Forall_forall in Hb. specialize (Hb p Hsel0). lia.
Qed.

(** With nothing new on the page and the height unchanged, an iteration
    changes only the two counters. *)
Lemma loop_body_settled (e : IterEnv) (fr : Frame) (w : World) :
  settled cards e →
  select_new (loop_lastProfileIndex fr) (deref w processedRef) (probe cards) = [] →
  ∃ rep,
    loop_body csv processedRef e fr w
    = (Ok {| loop_lastProfileIndex := loop_lastProfileIndex fr;
             noChangeCount := S (noChangeCount fr);
             scrollCount := S (scrollCount fr) |}, w, rep)
    ∧ report_appended rep = [] ∧ report_found rep = 0%nat.
Proof.
  intros [Hprobe [h Hh]] Hsel. unfold loop_body.
  rewrite Hprobe, Hsel, Hh. simpl. unfold next_noChangeCount.
  rewrite Z.eqb_refl. simpl. by eexists.
Qed.

Lemma scroll_loop_settled (envs : list IterEnv) (fr : Frame) (w : World) :
  Forall (settled cards) envs →
  select_new (loop_lastProfileIndex fr) (deref w processedRef) (probe cards) = [] →
  (noChangeCount fr ≤ 5)%nat →
  (5 - noChangeCount fr ≤ length envs)%nat →
  ∃ fr' reports,
    scroll_loop csv processedRef envs fr w
    = (Returned fr' (JsSet.size (deref w processedRef)), w, reports)
    ∧ length reports = (5 - noChangeCount fr)%nat
    ∧ Forall (λ rep, report_appended rep = []) reports.
Proof.
  intros Hall. revert fr.
  induction Hall as [|e envs He _ IH]; intros fr Hsel Hle Hlen;
    rewrite scroll_loop_unfold; unfold maxNoChangeCount.
  - simpl in Hlen. rewrite bool_decide_eq_false_2 by lia.
    exists fr, []. split; [done|]. split; [simpl; lia|constructor].
  - case_bool_decide as Hlt.
    + destruct (loop_body_settled e fr w He Hsel) as (rep & -> & Hnil & _).
      destruct (IH {| loop_lastProfileIndex := loop_lastProfileIndex fr;
                      noChangeCount := S (noChangeCount fr);
                      scrollCount := S (scrollCount fr) |})
        as (fr' & reports & -> & Hlen' & Hnils); simpl in *; [done|lia|lia|].
      exists fr', (rep :: reports). split; [done|].
      split; [simpl; lia|by constructor].
    + exists fr, []. split; [done|]. split; [simpl; lia|constructor].
Qed.

End Settled.

(** X10.  On a page that no longer changes the loop ends: given six
    iterations that all see the same cards and measure an unchanged height,
    the loop returns after at most six of them, whatever the extraction, the
    append and the checkpoint write do.  Only the first of them can append
    anything, and the value returned is the size of the set. *)
Theorem scroll_loop_ends_on_settled_page
    (csv : jsstring) (processedRef : loc) (cards : list Card)
    (envs : list IterEnv) (fr : Frame) (w : World) :
  Forall (settled cards) envs → (6 ≤ length envs)%nat →
  ∃ fr' w' reports,
    scroll_loop csv processedRef envs fr w
    = (Returned fr' (JsSet.size (deref w' processedRef)), w', reports)
    ∧ (length reports ≤ 6)%nat
    ∧ Forall (λ rep, report_appended rep = []) (tail reports).
Proof.
  intros Hall Hlen.
  destruct (decide (noChangeCount fr < maxNoChangeCount)%nat) as [Hlt|Hge].
  - destruct Hall as [|e envs He Hall]; [simpl in Hlen; lia|].
    rewrite scroll_loop_unfold, bool_decide_eq_true_2 by done.
    destruct He as [Hprobe [h Hh]].
    destruct (loop_body csv processedRef e fr w) as [[res w1] rep] eqn:Hbody.
    assert (∃ fr1, res = Ok fr1) as [fr1 ->].
    { unfold loop_body in Hbody. rewrite Hprobe, Hh in Hbody.
      destruct (scrape_and_save _ _ _ _ _ _) as [[??]?].
      injection Hbody as <- _ _. by eexists. }
    pose proof (loop_body_nothing_left csv processedRef cards e fr fr1 w w1 rep
                  Hprobe Hbody) as Hsel.
    pose proof (loop_body_counter _ _ _ _ _ _ _ _ Hbody) as Hcount.
    unfold maxNoChangeCount in Hlt.
    destruct (scroll_loop_settled csv processedRef cards envs fr1 w1 Hall Hsel)
      as (fr' & reports & -> & Hlen' & Hnils).
    { destruct (stalled rep); lia. }
    { simpl in Hlen. lia. }
    exists fr', w1, (rep :: reports). split; [done|]. split; [simpl; lia|done].
  - rewrite scroll_loop_unfold, bool_decide_eq_false_2 by done.
    exists fr, w, []. split; [done|]. split; [simpl; lia|constructor].
Qed.

(** A first run on a page of three profiles: six iterations, three rows. *)
Lemma scroll_loop_ends_on_settled_page_witness :
  ∃ fr' w' reports,
    scroll_loop (lit "out.csv") 0%nat
      (replicate 6 (on_page sample_page true true 100 100))
      (first_frame (-1)) started_world
    = (Returned fr' (JsSet.size (deref w' 0%nat)), w', reports)
    ∧ (length reports ≤ 6)%nat
    ∧ Forall (λ rep, report_appended rep = []) (tail reports).
Proof.
  apply (scroll_loop_ends_on_settled_page (lit "out.csv") 0%nat sample_page).
  - repeat constructor; by exists 100.
  - simpl. lia.
Defined.

(** ** Signals *)

Lemma emit_exited (write_ok : bool) (ls : list Listener) (w : World) :
  exited w = true → emit write_ok ls w = (ls, w).
Proof. intros Hex. destruct ls; simpl; [done|]. by rewrite Hex. Qed.

Lemma emit_all_shutting_down (write_ok : bool) (ls : list Listener) (w : World) :
  Forall (λ l, shuttingDown l = true) ls → emit write_ok ls w = (ls, w).
Proof.
  induction 1 as [|l ls Hl _ IH]; simpl; [done|].
  destruct (exited w); [done|].
  unfold on_sigint. rewrite Hl, IH. done.
Qed.

(** Either some listener ran and the process has exited, or every listener
    had run before and nothing changed. *)
Lemma emit_cases (write_ok : bool) (ls : list Listener) (w : World) :
  exited w = false →
  exited (emit write_ok ls w).2 = true
  ∨ (emit write_ok ls w = (ls, w) ∧ Forall (λ l, shuttingDown l = true) ls).
Proof.
  intros Hex. induction ls as [|l ls IH]; simpl; [right; by split|].
  rewrite Hex. unfold on_sigint.
  destruct (shuttingDown l) eqn:Hl.
  - destruct IH as [IH|[IH Hall]].
    + left. by destruct (emit write_ok ls w).
    + right. rewrite IH. split; [done|by constructor].
  - left. rewrite emit_exited by done. done.
Qed.

Lemma csv_files_emit (write_ok : bool) (ls : list Listener) (w : World) :
  csv_files (emit write_ok ls w).2 = csv_files w.
Proof.
  revert w. induction ls as [|l ls IH]; intros w; simpl; [done|].
  destruct (exited w); [done|].
  unfold on_sigint. destruct (shuttingDown l).
  - specialize (IH w). by destruct (emit write_ok ls w).
  - specialize (IH (set_exited
                      (updateCheckpoint (captured_lastProfileIndex l)
                         (captured_csvFilename l)
                         (JsSet.to_array (deref w (captured_processedProfileIds l)))
                         write_ok w))).
    destruct (emit write_ok ls _) as [ls' w']. simpl in *.
    rewrite IH. apply csv_files_updateCheckpoint.
Qed.

(** X11.  Under repeated signals the listener runs once: a second SIGINT
    changes nothing, whatever listeners are registered and whether or not
    the writes succeed.  A SIGINT never touches the set or the CSV files;
    and it ends the process unless every listener registered has already
    run. *)
Theorem sigint_runs_once (a b : bool) (w : World) :
  sigint b (sigint a w) = sigint a w
  ∧ heap (sigint a w) = heap w
  ∧ csv_files (sigint a w) = csv_files w
  ∧ (exited (sigint a w) = true
     ∨ (sigint a w = w ∧ listeners w ≠ []
        ∧ Forall (λ l, shuttingDown l = true) (listeners w))).
Proof.
  assert (exited (sigint a w) = true
          ∨ (sigint a w = w ∧ listeners w ≠ []
             ∧ Forall (λ l, shuttingDown l = true) (listeners w))) as Hcases.
  { unfold sigint. destruct (exited w) eqn:Hex; [by left|].
    destruct (listeners w) as [|l ls] eqn:Hls; [by left|].
    destruct (emit_cases a (l :: ls) w Hex) as [Hdone|[Heq Hall]].
    - left. by destruct (emit a (l :: ls) w).
    - right. rewrite Heq. split; [|done].
      rewrite <- Hls. by destruct w. }
  split; [|split; [apply heap_sigint|split; [|done]]].
  - destruct Hcases as [Hex|(Heq & Hne & Hall)].
    + unfold sigint at 1. by rewrite Hex.
    + rewrite Heq. unfold sigint.
      destruct (exited w); [done|].
      destruct (listeners w) as [|l ls] eqn:Hls; [done|].
      rewrite emit_all_shutting_down by done. rewrite <- Hls. by destruct w.
  - unfold sigint. destruct (exited w); [done|].
    destruct (listeners w) as [|l ls]; [done|].
    pose proof (csv_files_emit a (l :: ls) w) as Hcsv.
    by destruct (emit a (l :: ls) w).
Qed.

(** ** The run as a whole *)

(** X12.  The file the loop appends to exists when the loop begins.  A
    file named in the checkpoint that still exists is used as it is, and
    nothing is written; otherwise a new file is created that holds the
    header only, under the name the clock gives, and no file of another name
    is touched. *)
Theorem choose_csv_file_exists (env : RunEnv) (lastIndex : Z) (csv : option jsstring)
    (processedRef : loc) (w : World) (file : jsstring) (w' : World) :
  choose_csv env lastIndex csv processedRef w = (Ok file, w') →
  is_Some (csv_files w' !! file)
  ∧ (∀ f, f ≠ clock_filename env → csv_files w' !! f = csv_files w !! f)
  ∧ ((csv = Some file ∧ is_Some (csv_files w !! file) ∧ w' = w)
     ∨ (file = clock_filename env ∧ create_ok env = true
        ∧ csv_files w' !! file = Some []
        ∧ (csv = None ∨ ∃ f, csv = Some f ∧ csv_files w !! f = None))).
Proof.
  unfold choose_csv.
  assert (∀ reason : csv = None ∨ ∃ f, csv = Some f ∧ csv_files w !! f = None,
            (if create_ok env
             then (Ok (clock_filename env),
                   updateCheckpoint lastIndex (Some (clock_filename env))
                     (JsSet.to_array
                        (deref (createCsvWithHeaders (clock_filename env) w)
                           processedRef))
                     (create_checkpoint_ok env)
                     (createCsvWithHeaders (clock_filename env) w))
             else (Thrown, w)) = (Ok file, w') →
            is_Some (csv_files w' !! file)
            ∧ (∀ f, f ≠ clock_filename env → csv_files w' !! f = csv_files w !! f)
            ∧ ((csv = Some file ∧ is_Some (csv_files w !! file) ∧ w' = w)
               ∨ (file = clock_filename env ∧ create_ok env = true
                  ∧ csv_files w' !! file = Some []
                  ∧ (csv = None ∨ ∃ f, csv = Some f ∧ csv_files w !! f = None))))
    as Hcreate.
  { intros reason. destruct (create_ok env); [|done].
    intros [= <- <-]. rewrite csv_files_updateCheckpoint. simpl.
    rewrite lookup_insert_eq. split; [by eexists|]. split.
    - intros f Hf. by rewrite lookup_insert_ne.
    - right. done. }
  destruct csv as [f|]; [|apply Hcreate; by left].
  destruct (csv_files w !! f) as [rows|] eqn:Hf.
  - intros [= <- <-]. rewrite Hf. split; [by eexists|]. split; [done|].
    left. split; [done|]. split; [by eexists|done].
  - apply Hcreate. right. by exists f.
Qed.


(** The checkpoint names a file that is gone: a new one is made. *)
Lemma choose_csv_file_exists_witness :
  let r := choose_csv (run_on sample_page) 2 (Some (lit "gone.csv")) 0%nat
             started_world in
  r.1 = Ok (lit "new.csv")
  ∧ csv_files r.2 !! lit "new.csv" = Some []
  ∧ csv_files r.2 !! lit "out.csv" = csv_files started_world !! lit "out.csv".
Proof.
  intros r.
  destruct (choose_csv_file_exists (run_on sample_page) 2 (Some (lit "gone.csv"))
              0%nat started_world (lit "new.csv") r.2 eq_refl)
    as (_ & Hother & [(Hcsv & _)|(_ & _ & Hnew & _)]); [discriminate Hcsv|].
  split; [reflexivity|]. split; [exact Hnew|].
  apply Hother. discriminate.
Defined.

Lemma scroll_loop_lastProfileIndex_le (csv : jsstring) (processedRef : loc)
    (envs : list IterEnv) (fr : Frame) (w : World)
    (fin : LoopEnd) (w' : World) (reports : list IterReport) (fr' : Frame) :
  scroll_loop csv processedRef envs fr w = (fin, w', reports) →
  final_frame fin = Some fr' →
  loop_lastProfileIndex fr ≤ loop_lastProfileIndex fr'.
Proof.
  revert fr w fin w' reports.
  induction envs as [|e envs IH]; intros fr w fin w' reports;
    rewrite scroll_loop_unfold.
  - case_bool_decide; intros [= <- <- <-] [= <-]; done.
  - case_bool_decide; [|intros [= <- <- <-] [= <-]; done].
    destruct (loop_body csv processedRef e fr w) as [[[fr1|] w1] rep1] eqn:Hbody;
      [|by intros [= <- <- <-]].
    destruct (scroll_loop csv processedRef envs fr1 w1)
      as [[fin2 w2] reports2] eqn:Hrest.
    intros [= <- <- <-] Hfin. etrans; [|by eapply IH].
    destruct (loop_body_lastProfileIndex _ _ _ _ _ _ _ _ Hbody)
      as [[_ ->]|(els & _ & _ & ->)]; [done|apply max_index_ge].
Qed.

Lemma scroll_loop_returned_total (csv : jsstring) (processedRef : loc)
    (envs : list IterEnv) (fr : Frame) (w : World)
    (fr' : Frame) (total : nat) (w' : World) (reports : list IterReport) :
  scroll_loop csv processedRef envs fr w = (Returned fr' total, w', reports) →
  total = JsSet.size (deref w' processedRef).
Proof.
  revert fr w reports.
  induction envs as [|e envs IH]; intros fr w reports; rewrite scroll_loop_unfold.
  - case_bool_decide; [done|]. by intros [= <- <- <- <-].
  - case_bool_decide; [|by intros [= <- <- <- <-]].
    destruct (loop_body csv processedRef e fr w) as [[[fr1|] w1] rep1]; [|done].
    destruct (scroll_loop csv processedRef envs fr1 w1)
      as [[fin2 w2] reports2] eqn:Hrest.
    intros [= -> <- <-]. by eapply IH.
Qed.

Lemma clearCheckpoint_Ok (ok : bool) (w w' : World) :
  clearCheckpoint ok w = Ok w' → w' = set_checkpoint_file Missing w.
Proof.
  unfold clearCheckpoint. destruct w as [? [| |c] ? ? ?]; simpl.
  - by intros [= <-].
  - destruct ok; [by intros [= <-]|done].
  - destruct ok; [by intros [= <-]|done].
Qed.

(** X13.  How a run ends.  A run that fails before the [try] block, reading
    the checkpoint or launching the browser, rejects: it registers no
    listener, scrapes nothing and writes no file.  A run that completes
    leaves no checkpoint file and returns the size of the set.  A run that
    ends with an error, which includes the one that cannot delete the
    checkpoint file after the loop, writes, when the write succeeds, a
    checkpoint whose index is the one read when the run started (the main
    function never updates its own copy) and whose fingerprints are the last
    1000 of the set as it is.  When login or navigation fails nothing is
    scraped and no CSV file is created or changed.  In every case the set is
    the set built from the checkpoint with fingerprints added at its end,
    and no other object of the heap is touched. *)
Theorem run_outcomes (env : RunEnv) (w : World)
    (fin : RunEnd) (w' : World) (reports : list IterReport) :
  scrapeSearchFunder env w = (fin, w', reports) →
  let processedRef := fresh (dom (heap w)) in
  (startup env = Thrown ↔ fin = Rejected)
  ∧ (fin = Rejected →
       reports = [] ∧ listeners w' = listeners w ∧ exited w' = exited w
       ∧ checkpoint_file w' = checkpoint_file w ∧ csv_files w' = csv_files w)
  ∧ (∀ total, fin = Completed total →
       checkpoint_file w' = Missing ∧ total = JsSet.size (deref w' processedRef))
  ∧ (fin = Errored → error_checkpoint_ok env = true →
       ∃ c, checkpoint_file w' = Document c
            ∧ lastProfileIndex c = initial_lastProfileIndex (loadCheckpoint w)
            ∧ processedProfileIds c = drop (length (deref w' processedRef) - 1000)
                                        (deref w' processedRef))
  ∧ (startup env = Ok () → setup env = Thrown →
       fin = Errored ∧ reports = [] ∧ csv_files w' = csv_files w)
  ∧ JsSet.of_array (processedProfileIds (loadCheckpoint w))
      `prefix_of` deref w' processedRef
  ∧ (∀ r, r ≠ processedRef → heap w' !! r = heap w !! r).
Proof.
  intros Hrun processedRef.
  pose proof (scrapeSearchFunder_inv _ _ _ _ _ Hrun) as Hinv. simpl in Hinv.
  fold processedRef in Hinv.
  set (lastIndex := initial_lastProfileIndex (loadCheckpoint w)) in *.
  set (csv := or_null (csvFilename (loadCheckpoint w))) in *.
  set (w1 := setupGracefulShutdown _ _ _ _) in *.
  assert (heap w1 = <[processedRef :=
            JsSet.of_array (processedProfileIds (loadCheckpoint w))]> (heap w))
    as Hw1 by done.
  assert (csv_files w1 = csv_files w) as Hcsv1 by done.
  destruct Hinv as [(Hstart & -> & -> & ->)|[Herr|Hloop]].
  - split; [done|]. split; [done|]. split; [done|]. split; [done|].
    split; [by rewrite Hstart|].
    unfold deref. simpl. split.
    + by rewrite lookup_total_insert_eq.
    + intros r Hr. by rewrite lookup_insert_ne.
  - destruct Herr as (Hstart & -> & -> & csvE & wE & -> & HwE).
    assert (heap wE = heap w1) as HheapE.
    { destruct HwE as [[-> _]|(_ & file & Hchoose)]; [done|].
      pose proof (heap_choose_csv env lastIndex csv processedRef w1) as Hh.
      by rewrite Hchoose in Hh. }
    split; [by rewrite Hstart|]. split; [done|]. split; [done|]. split.
    { intros _ Hok. unfold updateCheckpoint. rewrite Hok. eexists.
      split; [reflexivity|]. split; [done|].
      rewrite checkpoint_document_ids. done. }
    split.
    { intros _ Hsetup. split; [done|]. split; [done|].
      rewrite csv_files_updateCheckpoint.
      destruct HwE as [[-> _]|(Hok & _)]; [done|congruence]. }
    unfold deref. rewrite heap_updateCheckpoint, HheapE, Hw1. split.
    + by rewrite lookup_total_insert_eq.
    + intros r Hr. by rewrite lookup_insert_ne.
  - destruct Hloop as (Hstart & Hsetup & file & w2 & lfin & lw & Hchoose & Hloop & Hfin).
    assert (heap w2 = <[processedRef :=
              JsSet.of_array (processedProfileIds (loadCheckpoint w))]> (heap w))
      as Hw2.
    { pose proof (heap_choose_csv env lastIndex csv processedRef w1) as Hh.
      by rewrite Hchoose in Hh. }
    pose proof (scroll_loop_prefix _ _ _ _ _ _ _ _ Hloop) as Hprefix.
    assert (deref w2 processedRef
            = JsSet.of_array (processedProfileIds (loadCheckpoint w))) as Hset.
    { unfold deref. by rewrite Hw2, lookup_total_insert_eq. }
    rewrite Hset in Hprefix.
    assert (∀ r, r ≠ processedRef → heap lw !! r = heap w !! r) as Hother.
    { intros r Hr.
      assert (heap lw !! r = heap w2 !! r) as ->.
      { revert Hloop.
        apply (scroll_loop_ind_world file processedRef
                 (λ wa wb, heap wb !! r = heap wa !! r)); [done|congruence|].
        intros e fr0 w0 res w0' rep Hbody.
        destruct (loop_body_inv _ _ _ _ _ _ _ _ Hbody)
          as [(-> & _)|(elements & _ & _ & _ & _ & -> & _)]; [done|].
        unfold committed. rewrite heap_updateCheckpoint. simpl.
        rewrite lookup_insert_ne by done. by rewrite heap_appendToCsv. }
      by rewrite Hw2, lookup_insert_ne. }
    assert (∀ wu, wu = updateCheckpoint lastIndex (Some file)
                         (JsSet.to_array (deref lw processedRef))
                         (error_checkpoint_ok env) lw →
              (error_checkpoint_ok env = true →
                 ∃ c, checkpoint_file wu = Document c
                      ∧ lastProfileIndex c = lastIndex
                      ∧ processedProfileIds c
                        = drop (length (deref wu processedRef) - 1000)
                            (deref wu processedRef))
              ∧ JsSet.of_array (processedProfileIds (loadCheckpoint w))
                  `prefix_of` deref wu processedRef
              ∧ (∀ r, r ≠ processedRef → heap wu !! r = heap w !! r)) as Hupd.
    { intros wu ->. split.
      - intros Hok. unfold updateCheckpoint. rewrite Hok. eexists.
        split; [reflexivity|]. split; [done|].
        by rewrite checkpoint_document_ids.
      - unfold deref. rewrite heap_updateCheckpoint. done. }
    destruct lfin as [fr' total| |fr'].
    + destruct Hfin as [(-> & ->%clearCheckpoint_Ok)|(-> & _ & Hw')].
      * split; [by rewrite Hstart|]. split; [done|]. split.
        { intros total' [= <-]. split; [done|].
          by apply (scroll_loop_returned_total _ _ _ _ _ _ _ _ _ Hloop). }
        split; [done|]. split; [congruence|]. done.
      * destruct (Hupd _ Hw') as (Hc & Hp & Ho).
        split; [by rewrite Hstart|]. split; [done|]. split; [done|].
        split; [by intros _|]. split; [congruence|]. done.
    + destruct Hfin as (-> & Hw'). destruct (Hupd _ Hw') as (Hc & Hp & Ho).
      split; [by rewrite Hstart|]. split; [done|]. split; [done|].
      split; [by intros _|]. split; [congruence|]. done.
    + destruct Hfin as (-> & ->).
      split; [by rewrite Hstart|]. split; [done|]. split; [done|].
      split; [done|]. split; [congruence|]. done.
Qed.

(** Login fails on a first run: no CSV file is made, and the checkpoint
    written says index -1 and no fingerprint.  The browser does not start:
    no file at all, and no listener.  The loop returns after one profile
    but the checkpoint file cannot be deleted: the run ends with an error
    and the checkpoint written says index -1, with the fingerprint. *)
Lemma run_outcomes_witness :
  let env := {| startup := Ok (); setup := Thrown;
                clock_filename := lit "new.csv"; create_ok := true;
                create_checkpoint_ok := true; catch_up_counts := λ _, Ok 0%nat;
                iterations := []; unlink_ok := true;
                error_checkpoint_ok := true |} in
  let env0 := {| startup := Thrown; setup := Ok ();
                 clock_filename := lit "new.csv"; create_ok := true;
                 create_checkpoint_ok := true; catch_up_counts := λ _, Ok 0%nat;
                 iterations := []; unlink_ok := true;
                 error_checkpoint_ok := true |} in
  let env1 := {| startup := Ok (); setup := Ok ();
                 clock_filename := lit "new.csv"; create_ok := true;
                 create_checkpoint_ok := true; catch_up_counts := λ _, Ok 0%nat;
                 iterations := on_page [card_named "Ann"] true true 100 200
                               :: replicate 5 quiet;
                 unlink_ok := false; error_checkpoint_ok := true |} in
  let run := scrapeSearchFunder env fresh_world in
  let run0 := scrapeSearchFunder env0 fresh_world in
  let run1 := scrapeSearchFunder env1 fresh_world in
  (run.1.1 = Errored ∧ run.2 = [] ∧ csv_files run.1.2 = ∅
   ∧ ∃ c, checkpoint_file run.1.2 = Document c ∧ lastProfileIndex c = -1)
  ∧ (run0.1.1 = Rejected ∧ listeners run0.1.2 = []
     ∧ checkpoint_file run0.1.2 = Missing)
  ∧ (run1.1.1 = Errored
     ∧ ∃ c, checkpoint_file run1.1.2 = Document c ∧ lastProfileIndex c = -1
            ∧ processedProfileIds c = [lit "Ann||"]).
Proof.
  intros env env0 env1 run run0 run1. split; [|split].
  3:{ destruct (run_outcomes env1 fresh_world run1.1.1 run1.1.2 run1.2)
        as (_ & _ & _ & Herr & _).
      { unfold run1. by destruct (scrapeSearchFunder _ _) as [[??]?]. }
      split; [reflexivity|].
      destruct (Herr eq_refl eq_refl) as (c & Hc & Hidx & Hids).
      exists c. split; [exact Hc|]. split; [exact Hidx|exact Hids]. }
  - destruct (run_outcomes env fresh_world run.1.1 run.1.2 run.2)
      as (_ & _ & _ & Herr & Hsetup & _).
    { unfold run. by destruct (scrapeSearchFunder _ _) as [[??]?]. }
    destruct (Hsetup eq_refl eq_refl) as (Hfin & Hreports & Hcsv).
    split; [exact Hfin|]. split; [exact Hreports|]. split; [exact Hcsv|].
    destruct (Herr Hfin eq_refl) as (c & Hc & Hidx & _).
    exists c. split; [exact Hc|exact Hidx].
  - destruct (run_outcomes env0 fresh_world run0.1.1 run0.1.2 run0.2)
      as (Hrej & Hnone & _).
    { unfold run0. by destruct (scrapeSearchFunder _ _) as [[??]?]. }
    pose proof (proj1 Hrej eq_refl) as Hfin.
    destruct (Hnone Hfin) as (_ & Hls & _ & Hfile & _).
    split; [exact Hfin|]. split; [exact Hls|exact Hfile].
Defined.

Lemma checkpoint_document_eq (lastIndex : Z) (csv : option jsstring)
    (ids : list jsstring) :
  checkpoint_document lastIndex csv ids
  = {| lastProfileIndex := lastIndex; csvFilename := csv;
       processedProfileIds := drop (length ids - 1000) ids |}.
Proof.
  unfold checkpoint_document. f_equal.
  unfold slice_last, maxCheckpointIds. case_bool_decide; [done|].
  by replace (length ids - 1000)%nat with 0%nat by lia.
Qed.

(** X14.  A run that gets past its start-up (reading the checkpoint and
    launching the browser) registers exactly one SIGINT listener, whichever
    way it goes afterwards, closed over the index and the file name read
    from the checkpoint when the run started; a run that fails in its
    start-up registers none; and a run never ends the process itself.  So a
    SIGINT that arrives while a run is in progress, in a process without
    other listeners, writes that index and that file name, not those of the
    loop, with the last 1000 fingerprints of the set as it is, and ends the
    process; the index written is never above the index of the loop. *)
Theorem sigint_during_run_saves_startup_values (env : RunEnv) (w : World)
    (fin : RunEnd) (w' : World) (reports : list IterReport) :
  scrapeSearchFunder env w = (fin, w', reports) →
  let processedRef := fresh (dom (heap w)) in
  let lastIndex := initial_lastProfileIndex (loadCheckpoint w) in
  let csv := or_null (csvFilename (loadCheckpoint w)) in
  (startup env = Thrown ↔ fin = Rejected)
  ∧ (fin ≠ Rejected →
       listeners w'
       = listeners w ++ [shutdown_listener lastIndex csv processedRef false])
  ∧ (fin = Rejected → listeners w' = listeners w)
  ∧ exited w' = exited w
  ∧ (listeners w = [] → exited w = false → ∀ fr, fin = Running fr →
       checkpoint_file (sigint true w')
       = Document {| lastProfileIndex := lastIndex; csvFilename := csv;
                     processedProfileIds :=
                       drop (length (deref w' processedRef) - 1000)
                            (deref w' processedRef) |}
       ∧ exited (sigint true w') = true
       ∧ lastIndex ≤ loop_lastProfileIndex fr).
Proof.
  intros Hrun processedRef lastIndex csv.
  destruct (scrapeSearchFunder_listeners _ _ _ _ _ Hrun) as [Hls Hex].
  pose proof (scrapeSearchFunder_inv _ _ _ _ _ Hrun) as Hinv. simpl in Hinv.
  assert (startup env = Thrown ↔ fin = Rejected) as Hrej.
  { destruct Hinv as [(? & ? & _)|[(Hs & -> & _)|
      (Hs & _ & file & w2 & lfin & lw & _ & _ & Hfin)]]; [done|by rewrite Hs|].
    rewrite Hs. destruct lfin as [? ?| |fr'].
    - by destruct Hfin as [[-> _]|[-> _]].
    - by destruct Hfin as [-> _].
    - by destruct Hfin as [-> _]. }
  split; [done|]. split; [|split; [|split; [done|]]].
  - intros Hfin. destruct (startup env) as [[]|]; [done|].
    destruct Hfin. by apply Hrej.
  - intros Hfin%Hrej. rewrite Hfin in Hls. by rewrite app_nil_r in Hls.
  - intros Hnone Hlive fr ->.
    destruct (sigint_during_run env w fr w' reports Hnone Hlive Hrun)
      as [Hfile Hexit].
    split; [|split; [done|]].
    + rewrite Hfile. f_equal. apply checkpoint_document_eq.
    + destruct Hinv as [(_ & ? & _)|[(_ & ? & _)|
        (_ & _ & file & w2 & lfin & lw & _ & Hloop & Hfin)]]; [done..|].
      destruct lfin as [? ?| |fr'].
      * by destruct Hfin as [[? _]|[? _]].
      * by destruct Hfin as [? _].
      * destruct Hfin as [[= <-] _].
        by apply (scroll_loop_lastProfileIndex_le _ _ _ _ _ _ _ _ fr Hloop).
Qed.

(** A first run interrupted after one batch of two: one listener, and the
    file written says index -1 and no file name. *)
Lemma sigint_during_run_saves_startup_values_witness :
  let run := scrapeSearchFunder (run_on [card_named "Ann"; card_named "Bob"])
               fresh_world in
  listeners run.1.2 = [shutdown_listener (-1) None 0%nat false]
  ∧ checkpoint_file (sigint true run.1.2)
    = Document {| lastProfileIndex := -1; csvFilename := None;
                  processedProfileIds := [lit "Ann||"; lit "Bob||"] |}.
Proof.
  intros run.
  destruct (sigint_during_run_saves_startup_values
              (run_on [card_named "Ann"; card_named "Bob"]) fresh_world
              run.1.1 run.1.2 run.2) as (_ & Hls & _ & _ & Hsig).
  { unfold run. by destruct (scrapeSearchFunder _ _) as [[??]?]. }
  split; [apply Hls; discriminate|].
  destruct (Hsig eq_refl eq_refl
              {| loop_lastProfileIndex := 1; noChangeCount := 0; scrollCount := 1 |}
              eq_refl) as (Hfile & _).
  exact Hfile.
Defined.

(** ** The first version of the loop *)

Lemma v0_has_seq (m i : nat) : v0_has (seq 0 m) i = false ↔ (m ≤ i)%nat.
Proof.
  unfold v0_has. rewrite bool_decide_eq_false, elem_of_seq. lia.
Qed.

Lemma v0_select_new_seq (m n : nat) :
  v0_select_new (seq 0 m) (seq 0 n) = seq m (n - m).
Proof.
  unfold v0_select_new. induction n as [|n IH]; [done|].
  rewrite seq_S, filter_app, IH. simpl.
  destruct (decide (m ≤ n)%nat) as [Hle|Hgt].
  - rewrite filter_cons_True, filter_nil by (by apply v0_has_seq).
    replace (S n - m)%nat with (S (n - m)) by lia.
    rewrite seq_S. do 2 f_equal. lia.
  - rewrite filter_cons_False, filter_nil, app_nil_r.
    + by replace (S n - m)%nat with (n - m)%nat by lia.
    + rewrite v0_has_seq. lia.
Qed.

Lemma v0_foldl_add_seq (m k : nat) :
  foldl v0_add (seq 0 m) (seq m k) = seq 0 (m + k).
Proof.
  revert m. induction k as [|k IH]; intros m; simpl.
  - by rewrite Nat.add_0_r.
  - unfold v0_add at 2.
    rewrite (proj2 (v0_has_seq m m)) by lia.
    replace (seq 0 m ++ [m]) with (seq 0 (S m)) by (by rewrite seq_S).
    rewrite IH. f_equal. lia.
Qed.

(** One iteration of the first version, from a set that is [0 .. m-1]. *)
Lemma v0_loop_body_seq (csv : jsstring) (e : IterEnv) (fr : V0Frame) (w : World)
    (res : outcome V0Frame) (w' : World) (batch : list ProfileData) (m : nat) :
  v0_processedProfileIndices fr = seq 0 m →
  v0_loop_body csv e fr w = (res, w', batch) →
  ∃ n, (m ≤ n)%nat
       ∧ length batch = (n - m)%nat
       ∧ (∀ elements, probe_dom e = Ok elements →
            n = (m `max` length elements)%nat
            ∧ batch = extractProfileBatch (seq m (n - m)) (extract_dom e))
       ∧ (∀ fr', res = Ok fr' → v0_processedProfileIndices fr' = seq 0 n)
       ∧ default [] (csv_files w' !! csv)
         = default [] (csv_files w !! csv) ++ (if append_ok e then csv_rows batch else []).
Proof.
  intros Hm. unfold v0_loop_body.
  destruct (probe_dom e) as [elements|] eqn:Hprobe.
  2:{ intros [= <- <- <-]. exists m. split; [done|]. split; [simpl; lia|].
      split; [done|]. split; [done|]. destruct (append_ok e); by rewrite app_nil_r. }
  unfold v0_currentProfiles. rewrite Hm, v0_select_new_seq.
  set (n := length elements).
  destruct (decide (n ≤ m)%nat) as [Hle|Hgt].
  - replace (n - m)%nat with 0%nat by lia. simpl.
    intros Hres. exists m. split; [done|].
    assert (batch = [] ∧ w' = w
            ∧ ∀ fr', res = Ok fr' → v0_processedProfileIndices fr' = seq 0 m)
      as (-> & -> & Hfr).
    { destruct (heights e) as [[??]|]; injection Hres as <- <- <-;
        (split; [done|split; [done|]]); [by intros fr' [= <-]|done]. }
    split; [simpl; lia|]. split.
    { intros els [= <-]. fold n. split; [lia|].
      by rewrite Nat.sub_diag. }
    split; [done|]. destruct (append_ok e); by rewrite app_nil_r.
  - destruct (seq m (n - m)) as [|i rest] eqn:Hseq.
    { apply (f_equal length) in Hseq. rewrite length_seq in Hseq. simpl in Hseq. lia. }
    rewrite <- Hseq.
    set (batchData := extractProfileBatch (seq m (n - m)) (extract_dom e)).
    intros Hres. exists n. split; [lia|].
    assert (batch = batchData
            ∧ w' = appendToCsv csv batchData (append_ok e) w
            ∧ ∀ fr', res = Ok fr' → v0_processedProfileIndices fr' = seq 0 n)
      as (-> & -> & Hfr).
    { assert (foldl v0_add (seq 0 m) (seq m (n - m)) = seq 0 n) as Hadd.
      { rewrite v0_foldl_add_seq. f_equal. lia. }
      destruct (heights e) as [[??]|]; injection Hres as <- <- <-;
        (split; [done|split; [done|]]); [|done].
      intros fr' [= <-]. simpl. exact Hadd. }
    split; [unfold batchData; by rewrite length_extractProfileBatch, length_seq|].
    split.
    { intros els [= <-]. fold n. split; [lia|done]. }
    split; [done|].
    unfold appendToCsv. destruct batchData as [|row rows] eqn:Hb.
    { destruct (append_ok e); by rewrite app_nil_r. }
    destruct (append_ok e); cbn [csv_files set_csv_files];
      [by rewrite lookup_insert_eq|by rewrite app_nil_r].
Qed.

Lemma v0_scroll_loop_seq (csv : jsstring) (envs : list IterEnv) (fr : V0Frame)
    (w : World) (fin : V0LoopEnd) (w' : World) (batches : list (list ProfileData))
    (m : nat) :
  v0_processedProfileIndices fr = seq 0 m →
  v0_scroll_loop csv envs fr w = (fin, w', batches) →
  (∀ fr', v0_final_frame fin = Some fr' →
     ∃ n, v0_processedProfileIndices fr' = seq 0 n
          ∧ (m + length (concat batches))%nat = n)
  ∧ (∀ fr' total, fin = V0Returned fr' total →
       total = length (v0_processedProfileIndices fr'))
  ∧ default [] (csv_files w' !! csv)
    = default [] (csv_files w !! csv)
      ++ concat (zip_with (λ e b, if append_ok e then csv_rows b else []) envs batches).
Proof.
  revert fr w fin w' batches m.
  induction envs as [|e envs IH]; intros fr w fin w' batches m Hm; simpl.
  - case_bool_decide; intros [= <- <- <-]; simpl; rewrite app_nil_r;
      (split; [intros fr' [= <-]; exists m; split; [done|lia]|]);
      (split; [|done]); [done|by intros fr' total [= <- <-]].
  - case_bool_decide.
    2:{ intros [= <- <- <-]. simpl. rewrite app_nil_r.
        split; [intros fr' [= <-]; exists m; split; [done|lia]|].
        split; [|done]. by intros fr' total [= <- <-]. }
    destruct (v0_loop_body csv e fr w) as [[res w1] batch] eqn:Hbody.
    destruct (v0_loop_body_seq _ _ _ _ _ _ _ _ Hm Hbody)
      as (n & Hmn & Hlen & _ & Hfr & Hrows).
    destruct res as [fr1|].
    + destruct (v0_scroll_loop csv envs fr1 w1) as [[fin2 w2] batches2] eqn:Hrest.
      destruct (IH _ _ _ _ _ n (Hfr fr1 eq_refl) Hrest) as (Hfin & Htot & Hrows2).
      intros [= <- <- <-]. split; [|split; [done|]].
      * intros fr' Hfr'. destruct (Hfin fr' Hfr') as (n' & Hn' & Hsum).
        exists n'. split; [done|]. simpl. rewrite length_app. lia.
      * simpl. by rewrite Hrows2, Hrows, app_assoc.
    + intros [= <- <- <-]. split; [done|]. split; [done|].
      simpl. rewrite zip_with_nil_r. simpl. by rewrite app_nil_r.
Qed.

(** X15.  The first version of the loop scrapes every index once: wherever
    it stands or ends, the indices it has marked are [0 .. n-1] for the
    total number [n] of records in the batches it handed to [appendToCsv],
    and the value it returns is that [n].  The records of the file after
    the loop are those of the file before it followed, for each batch whose
    append succeeded, by the records of the batch that have a field that is
    not null: a record with no field yields no line, so the file can hold
    fewer records than the value returned. *)
Theorem v0_loop_scrapes_each_index_once
    (csv : jsstring) (envs : list IterEnv) (w : World)
    (fin : V0LoopEnd) (w' : World) (batches : list (list ProfileData)) :
  v0_scrollScrapeAndSave csv envs w = (fin, w', batches) →
  (∀ fr', v0_final_frame fin = Some fr' →
     v0_processedProfileIndices fr' = seq 0 (length (concat batches)))
  ∧ (∀ fr' total, fin = V0Returned fr' total → total = length (concat batches))
  ∧ default [] (csv_files w' !! csv)
    = default [] (csv_files w !! csv)
      ++ concat (zip_with (λ e b, if append_ok e then csv_rows b else []) envs batches).
Proof.
  intros Hrun.
  unfold v0_scrollScrapeAndSave in Hrun.
  eapply (v0_scroll_loop_seq _ _ _ _ _ _ _ 0%nat) in Hrun
    as (Hfin & Htot & Hrows); [|reflexivity].
  split; [|split; [|done]].
  - intros fr' Hfr'. destruct (Hfin fr' Hfr') as (n & -> & <-). done.
  - intros fr' total ->. rewrite (Htot fr' total eq_refl).
    destruct (Hfin fr' eq_refl) as (n & -> & <-). by rewrite length_seq.
Qed.

(** A page of one profile that grows to three, the second a card without
    content, and then stays: the first version returns 3 and has handed
    three records to [appendToCsv]; the file holds the two that are not
    empty. *)
Lemma v0_loop_scrapes_each_index_once_witness :
  let page := [card_named "Ann"; blank_card; card_named "Cy"] in
  let envs := on_page [card_named "Ann"] true true 100 200
              :: replicate 6 (on_page page true true 200 200) in
  let run := v0_scrollScrapeAndSave (lit "out.csv") envs started_world in
  (∃ fr', run.1.1 = V0Returned fr' 3)
  ∧ length (concat run.2) = 3%nat
  ∧ csv_files run.1.2 !! lit "out.csv"
    = Some [extract_card (card_named "Ann"); extract_card (card_named "Cy")]
  ∧ default [] (csv_files run.1.2 !! lit "out.csv")
    = concat (csv_rows <$> run.2).
Proof.
  intros page envs run.
  destruct (v0_loop_scrapes_each_index_once (lit "out.csv") envs started_world
              run.1.1 run.1.2 run.2) as (_ & Htot & Hfile).
  { unfold run. by destruct (v0_scrollScrapeAndSave _ _ _) as [[??]?]. }
  split; [eexists; vm_compute; reflexivity|]. split.
  { symmetry. eapply Htot. vm_compute. reflexivity. }
  split; [reflexivity|].
  rewrite Hfile. reflexivity.
Defined.

(** ** The university names *)

Lemma join_cons_cons (sep p q : jsstring) (ps : list jsstring) :
  join sep (p :: q :: ps) = p ++ sep ++ join sep (q :: ps).
Proof. reflexivity. Qed.

Lemma length_join (sep : jsstring) (parts : list jsstring) :
  length (join sep parts)
  = (sum_list (length <$> parts) + length sep * pred (length parts))%nat.
Proof.
  induction parts as [|p [|q ps] IH]; [simpl; lia|simpl; lia|].
  rewrite join_cons_cons, !length_app, IH. simpl. lia.
Qed.

(** X16.  The university field is [null] exactly when the card has no
    container for it, or the container holds no inner element, or it holds
    one element whose text is all whitespace.  Otherwise it is the trimmed
    texts of the inner elements joined with a semicolon and a space, so with
    two elements or more it is never [null], even when all of them are
    blank. *)
Theorem uni_name_joined (profileEl : Card) :
  (uni_name (extract_card profileEl) = None
   ↔ uniContainerEl profileEl = None
     ∨ uniContainerEl profileEl = Some []
     ∨ ∃ d, uniContainerEl profileEl = Some [d] ∧ trim d = [])
  ∧ (∀ divs s, uniContainerEl profileEl = Some divs →
       uni_name (extract_card profileEl) = Some s →
       s = join (lit "; ") (trim <$> divs)
       ∧ length s = (sum_list (length <$> (trim <$> divs))
                     + 2 * pred (length divs))%nat)
  ∧ (∀ divs, uniContainerEl profileEl = Some divs → (2 ≤ length divs)%nat →
       is_Some (uni_name (extract_card profileEl))).
Proof.
  assert (∀ divs, uniContainerEl profileEl = Some divs → divs ≠ [] →
            uni_names (uniContainerEl profileEl)
            = Some (join (lit "; ") (trim <$> divs))) as Hsome.
  { intros divs -> Hne. by destruct divs. }
  assert (∀ x : option jsstring, or_null x = None ↔ x = None ∨ x = Some []) as Hnone.
  { intros [[|c t]|]; simpl; split; try done; try (by left); try (by right);
      by intros [?|?]. }
  assert (∀ divs : list jsstring, (2 ≤ length divs)%nat →
            join (lit "; ") (trim <$> divs) ≠ []) as Hjoin.
  { intros divs Hlen Hnil. apply (f_equal length) in Hnil.
    rewrite length_join, length_fmap in Hnil. simpl in Hnil. lia. }
  change (uni_name (extract_card profileEl))
    with (or_null (uni_names (uniContainerEl profileEl))).
  split; [|split].
  - rewrite Hnone.
    destruct (uniContainerEl profileEl) as [[|d [|d' ds]]|] eqn:Hc.
    + split; [by right; left|by left].
    + rewrite (Hsome [d] eq_refl) by done. simpl. split.
      * intros [?|[= Ht]]; [done|]. right; right. by exists d.
      * intros [?|[?|(d0 & [= <-] & Ht)]]; try done. right. by rewrite Ht.
    + rewrite (Hsome _ eq_refl) by done. split.
      * intros [?|Hnil]; [done|]. apply (inj Some) in Hnil.
        exfalso. apply (Hjoin (d :: d' :: ds)); [simpl; lia|exact Hnil].
      * by intros [?|[?|(d0 & ? & _)]].
    + split; [by left|by left].
  - intros divs s Hdivs Hs. apply or_null_Some in Hs as [Hs Hne].
    destruct (decide (divs = [])) as [->|Hd].
    { by rewrite Hdivs in Hs. }
    rewrite (Hsome divs Hdivs Hd) in Hs. injection Hs as <-.
    split; [done|]. rewrite length_join, length_fmap. simpl. lia.
  - intros divs Hdivs Hlen.
    rewrite (Hsome divs Hdivs) by (intros ->; simpl in Hlen; lia).
    exists (join (lit "; ") (trim <$> divs)). apply or_null_Some.
    split; [done|by apply Hjoin].
Qed.

(** Two blank inner elements: the field is the separator alone. *)
Lemma uni_name_joined_witness :
  let el := {| nameEl := None; occupationEl := None; locationEl := None;
               uniContainerEl := Some [lit " "; lit ""];
               linkedInEl := None; websiteEl := None |} in
  uni_name (extract_card el) = Some (lit "; ").
Proof.
  intros el.
  destruct (proj2 (proj2 (uni_name_joined el)) [lit " "; lit ""] eq_refl)
    as [s Hs]; [simpl; lia|].
  destruct (proj1 (proj2 (uni_name_joined el)) _ s eq_refl Hs) as [-> _].
  exact Hs.
Defined.

(** ** The size of the set and the number of rows *)

Lemma length_foldl_add (s : JsSet.t) (l : list jsstring) :
  (length (foldl JsSet.add s l) ≤ length s + length l)%nat.
Proof.
  revert s. induction l as [|x l IH]; intros s; simpl; [lia|].
  etrans; [apply IH|]. unfold JsSet.add.
  destruct (JsSet.has s x); rewrite ?length_app; simpl; lia.
Qed.

Lemma foldl_add_full_length (s : JsSet.t) (l : list jsstring) :
  NoDup s →
  length (foldl JsSet.add s l) = (length s + length l)%nat → NoDup (s ++ l).
Proof.
  intros Hs Hlen.
  assert (foldl JsSet.add s l ≡ₚ s ++ l) as <-; [|by apply NoDup_foldl_add].
  apply submseteq_length_Permutation.
  - apply NoDup_submseteq; [by apply NoDup_foldl_add|].
    intros x. rewrite elem_of_foldl_add, elem_of_app. done.
  - rewrite length_app. lia.
Qed.

(** X17.  The set has no duplicates, so the number the loop prints and
    returns counts distinct fingerprints, not rows: an iteration adds to the
    set at most as many entries as it appends rows, and exactly as many only
    when the profiles it selected have pairwise different fingerprints.  Two
    cards with the same fingerprint on one page are both appended and
    counted once. *)
Theorem set_counts_distinct_fingerprints
    (csv : jsstring) (processedRef : loc) (e : IterEnv) (fr : Frame) (w : World)
    (res : outcome Frame) (w' : World) (rep : IterReport) (elements : list Card) :
  loop_body csv processedRef e fr w = (res, w', rep) →
  probe_dom e = Ok elements →
  NoDup (deref w processedRef) →
  let newProfiles :=
    select_new (loop_lastProfileIndex fr) (deref w processedRef) (probe elements) in
  NoDup (deref w' processedRef)
  ∧ (JsSet.size (deref w' processedRef)
     ≤ JsSet.size (deref w processedRef) + length (report_appended rep))%nat
  ∧ (JsSet.size (deref w' processedRef)
     = (JsSet.size (deref w processedRef) + length (report_appended rep))%nat
     ↔ NoDup (uniqueId <$> newProfiles)).
Proof.
  intros Hbody Hprobe Hnd newProfiles.
  destruct (loop_body_probed _ _ _ _ _ _ _ _ _ Hbody Hprobe)
    as (Hfound & Happ & _ & Hnil & Hcons). fold newProfiles in Hfound, Happ, Hnil, Hcons.
  assert (deref w' processedRef
          = foldl JsSet.add (deref w processedRef) (uniqueId <$> newProfiles)) as Hset.
  { destruct (decide (newProfiles = [])) as [Hn|Hn].
    - rewrite (Hnil Hn), Hn. done.
    - rewrite (Hcons Hn), deref_committed. unfold mark_processed.
      by rewrite omap_uniqueId_scraped. }
  assert (length (report_appended rep) = length (uniqueId <$> newProfiles)) as Hlen.
  { rewrite Happ. unfold scraped. by rewrite length_imap, length_fmap. }
  unfold JsSet.size. rewrite Hset, Hlen.
  split; [by apply NoDup_foldl_add|]. split; [apply length_foldl_add|].
  split.
  - intros Heq. apply foldl_add_full_length in Heq; [|done].
    by apply NoDup_app in Heq as (_ & _ & ?).
  - intros Hnew. rewrite foldl_add_fresh; [by rewrite length_app|].
    apply NoDup_app. split; [done|]. split; [|done].
    intros u Hu Hin. apply list_elem_of_fmap in Hin as (p & -> & Hp).
    by apply elem_of_select_new in Hp as (_ & _ & ?).
Qed.

(** Two cards that read the same: two rows, one entry in the set. *)
Lemma set_counts_distinct_fingerprints_witness :
  let e := on_page [card_named "Ann"; card_named "Ann"] true true 100 200 in
  let r := loop_body (lit "out.csv") 0%nat e (first_frame (-1)) started_world in
  length (report_appended r.2) = 2%nat
  ∧ JsSet.size (deref r.1.2 0%nat) = 1%nat
  ∧ NoDup (deref r.1.2 0%nat).
Proof.
  intros e r.
  destruct (set_counts_distinct_fingerprints (lit "out.csv") 0%nat e (first_frame (-1))
              started_world r.1.1 r.1.2 r.2 [card_named "Ann"; card_named "Ann"])
    as (Hnd & _ & _).
  - unfold r. by destruct (loop_body _ _ _ _ _) as [[??]?].
  - reflexivity.
  - apply (bool_decide_unpack _). vm_compute. exact I.
  - split; [reflexivity|]. split; [reflexivity|exact Hnd].
Defined.

(** ** The order of the profiles in a batch *)

Lemma index_probe (elements : list Card) :
  index <$> probe elements = seq 0 (length elements).
Proof.
  unfold probe. rewrite fmap_imap.
  apply list_eq. intros i. rewrite list_lookup_imap.
  destruct (elements !! i) as [el|] eqn:Hel; simpl.
  - symmetry. apply lookup_seq. split; [done|]. by eapply lookup_lt_Some.
  - symmetry. apply lookup_seq_ge. by apply lookup_ge_None.
Qed.

Lemma sublist_seq_lt (j n : nat) (l1 l2 : list nat) (x y : nat) :
  l1 ++ l2 `sublist_of` seq j n → x ∈ l1 → y ∈ l2 → (x < y)%nat.
Proof.
  revert j l1. induction n as [|n IH]; intros j l1 Hsub Hx Hy; simpl in Hsub.
  - apply sublist_nil_r in Hsub. apply app_eq_nil in Hsub as [-> _].
    by apply elem_of_nil in Hx.
  - destruct l1 as [|a l1]; [by apply elem_of_nil in Hx|].
    simpl in Hsub. apply sublist_cons_r in Hsub as [Hsub|(l' & Heq & Hsub)].
    + apply (IH (S j) (a :: l1)); done.
    + injection Heq as -> <-.
      assert (j < y)%nat as Hjy.
      { assert (y ∈ seq (S j) n) as Hin.
        { eapply elem_of_sublist; [|done]. apply elem_of_app. by right. }
        apply elem_of_seq in Hin. lia. }
      apply elem_of_cons in Hx as [->|Hx]; [done|].
      by apply (IH (S j) l1).
Qed.

(** X18.  The profiles of a batch are taken in page order: their indices
    are increasing, above [lastProfileIndex] and below the number of cards
    on the page, and the value [lastProfileIndex] gets when the batch is
    committed is the index of the last of them. *)
Theorem batch_in_page_order (lastIndex : Z) (processed : JsSet.t)
    (elements : list Card) :
  let newProfiles := select_new lastIndex processed (probe elements) in
  (index <$> newProfiles) `sublist_of` seq 0 (length elements)
  ∧ (∀ i j p q, (i < j)%nat → newProfiles !! i = Some p → newProfiles !! j = Some q →
       (index p < index q)%nat)
  ∧ (∀ p, p ∈ newProfiles →
       lastIndex < Z.of_nat (index p) ∧ (index p < length elements)%nat)
  ∧ (∀ p, last newProfiles = Some p →
       max_index lastIndex newProfiles = Z.of_nat (index p)).
Proof.
  intros newProfiles.
  assert ((index <$> newProfiles) `sublist_of` seq 0 (length elements)) as Hsub.
  { rewrite <- index_probe. apply fmap_sublist, sublist_filter. }
  assert (∀ i j p q, (i < j)%nat → newProfiles !! i = Some p →
            newProfiles !! j = Some q → (index p < index q)%nat) as Hlt.
  { intros i j p q Hij Hp Hq.
    apply (sublist_seq_lt 0 (length elements)
             (take j (index <$> newProfiles)) (drop j (index <$> newProfiles))).
    - by rewrite take_drop.
    - apply list_elem_of_lookup. exists i.
      rewrite lookup_take_lt, list_lookup_fmap, Hp; done.
    - apply list_elem_of_lookup. exists 0%nat.
      rewrite lookup_drop, Nat.add_0_r, list_lookup_fmap, Hq. done. }
  split; [done|]. split; [done|]. split.
  - intros p Hp. split; [by apply elem_of_select_new in Hp as (_ & ? & _)|].
    assert (index p ∈ seq 0 (length elements)) as Hin.
    { eapply elem_of_sublist; [|done]. apply list_elem_of_fmap. by exists p. }
    apply elem_of_seq in Hin. lia.
  - intros p Hlast.
    pose proof (max_index_bounds lastIndex newProfiles) as Hb.
    rewrite Forall_forall in Hb.
    assert (p ∈ newProfiles) as Hp by (by apply last_Some_elem_of).
    destruct (max_index_attained lastIndex newProfiles) as [Heq|(q & Hq & Heq)].
    + apply elem_of_select_new in Hp as Hp'. specialize (Hb p Hp). lia.
    + specialize (Hb p Hp). rewrite Heq in *.
      apply list_elem_of_lookup in Hq as [i Hi].
      rewrite last_lookup in Hlast.
      destruct (decide (i = pred (length newProfiles))) as [->|Hne].
      * congruence.
      * assert (i < pred (length newProfiles))%nat as Hi'.
        { apply lookup_lt_Some in Hi. lia. }
        pose proof (Hlt _ _ _ _ Hi' Hi Hlast). lia.
Qed.

(** Ann is already saved: Bob and Cy are taken in that order, and the index
    becomes 2. *)
Lemma batch_in_page_order_witness :
  let newProfiles := select_new (-1) [lit "Ann||"] (probe sample_page) in
  index <$> newProfiles = [1; 2]%nat
  ∧ max_index (-1) newProfiles = 2.
Proof.
  intros newProfiles. split; [reflexivity|].
  apply (proj2 (proj2 (proj2 (batch_in_page_order (-1) [lit "Ann||"] sample_page)))
           {| index := 2; uniqueId := lit "Cy||" |}).
  reflexivity.
Defined.
